(** * Travel planner assistant

    A shallow embedding of [travel_chatbot.py]: the keyword-based content
    validator, the travel query functions over the destination datasets,
    the weather advice, the session handling of the chat endpoint and the
    list of destinations.

    Conventions of the embedding.
    - Text is a sequence of 8-bit characters.  The character classes
      ([str.isspace], the [\w] of [re], [str.lower], [str.title]) are those
      of Python on ASCII, the alphabet of the lexicon and of the datasets;
      a character above 127 belongs to no class and has no case.  What is
      stated about the matching of keywords is stated for texts of ASCII
      characters, or for occurrences between ASCII characters.
    - The travel relevance score, a float that the code compares with a
      threshold, is an IEEE-754 binary64 number, here a primitive float.
      The floats of the datasets and of the budget (ratings, means,
      totals, shares) are rationals and their arithmetic is exact;
      [round(x, n)] rounds the exact value, a tie going to the even
      digit.
    - A Python dictionary with a fixed set of keys is a record; a key that
      a branch leaves out is an [option] field set to [None].  Dictionaries
      that are iterated keep their insertion order and are association
      lists.
    - Logging has no effect on any value that is returned or stored and is
      left out. *)

From Stdlib Require Import ZArith QArith Qround Qabs List String Ascii Bool Lia Lqa.
From Stdlib Require Import Floats Uint63 DecimalString Sorting.Sorted.
From stdpp Require Import gmap strings.

Import ListNotations.
Set Warnings "-inexact-float".

(** ** Python strings *)

Module PyStr.

Definition chars := list ascii.

Definition code (c : ascii) : N := N_of_ascii c.

Definition in_range (lo hi : N) (c : ascii) : bool :=
  ((lo <=? code c) && (code c <=? hi))%N.

Definition is_upper (c : ascii) : bool := in_range 65 90 c.
Definition is_lower (c : ascii) : bool := in_range 97 122 c.
Definition is_alpha (c : ascii) : bool := is_upper c || is_lower c.
Definition is_digit (c : ascii) : bool := in_range 48 57 c.

(** The class [\w] of [re]: letters, digits and the underscore. *)
Definition is_word (c : ascii) : bool :=
  is_alpha c || is_digit c || (code c =? 95)%N.

(** [str.isspace]: tab, line feed, vertical tab, form feed, carriage
    return, the separators 28 to 31, and the space. *)
Definition is_space (c : ascii) : bool := in_range 9 13 c || in_range 28 32 c.

Definition is_newline (c : ascii) : bool := (code c =? 10)%N.

Definition lower_char (c : ascii) : ascii :=
  if is_upper c then ascii_of_N (code c + 32) else c.

Definition upper_char (c : ascii) : ascii :=
  if is_lower c then ascii_of_N (code c - 32) else c.

(** [s.lower()] *)
Definition lower (s : chars) : chars := List.map lower_char s.

Fixpoint lstrip (s : chars) : chars :=
  match s with
  | [] => []
  | c :: s' => if is_space c then lstrip s' else s
  end.

Definition rstrip (s : chars) : chars := rev (lstrip (rev s)).

(** [s.strip()] *)
Definition strip (s : chars) : chars := rstrip (lstrip s).

(** [s.split()]: the maximal runs of characters that are not whitespace.
    [cur] is the run being read, last character first. *)
Fixpoint split_aux (cur s : chars) : list chars :=
  match s with
  | [] => match cur with [] => [] | _ => [rev cur] end
  | c :: s' =>
      if is_space c
      then match cur with
           | [] => split_aux [] s'
           | _ => rev cur :: split_aux [] s'
           end
      else split_aux (c :: cur) s'
  end.

Definition split (s : chars) : list chars := split_aux [] s.

(** [s.title()]: a letter that follows a letter is lowered, any other
    letter is raised. *)
Fixpoint title_aux (prev_cased : bool) (s : chars) : chars :=
  match s with
  | [] => []
  | c :: s' =>
      if is_alpha c
      then (if prev_cased then lower_char c else upper_char c)
             :: title_aux true s'
      else c :: title_aux false s'
  end.

Definition title (s : chars) : chars := title_aux false s.

Definition of_string (s : string) : chars := list_ascii_of_string s.
Definition to_string (s : chars) : string := string_of_list_ascii s.

End PyStr.

(** ** The fragment of [re] the validator uses *)

Module Re.
Import PyStr.

(** Patterns: a literal (compared without case, [re.IGNORECASE]), the word
    boundary [\b], the greedy [.+], alternation and concatenation.  [Fail]
    is the empty alternation. *)
Inductive regex : Type :=
| Lit (w : chars)
| WordB
| AnyPlus
| Alt (r1 r2 : regex)
| Cat (r1 r2 : regex)
| Fail.

Definition opt_word (c : option ascii) : bool :=
  match c with Some c => is_word c | None => false end.

(** [\b] holds between [prev] and [next] when exactly one of them is a
    word character; the ends of the text count as non-word. *)
Definition boundary (prev next : option ascii) : bool :=
  xorb (opt_word prev) (opt_word next).

Definition char_eq_nocase (a b : ascii) : bool :=
  Ascii.eqb (lower_char a) (lower_char b).

(** Reads the literal [w] at the head of [s]; returns the last character
    read and the rest of the text. *)
Fixpoint lit_match (w : chars) (prev : option ascii) (s : chars)
  : option (option ascii * chars) :=
  match w with
  | [] => Some (prev, s)
  | p :: w' =>
      match s with
      | [] => None
      | c :: s' => if char_eq_nocase p c then lit_match w' (Some c) s' else None
      end
  end.

Definition cont := option ascii -> chars -> option chars.

(** [.+] takes one character or more, none of them a line feed, and as
    many as the rest of the pattern allows, the longest first. *)
Fixpoint any_plus (k : cont) (s : chars) : option chars :=
  match s with
  | [] => None
  | c :: s' =>
      if is_newline c then None
      else match any_plus k s' with
           | Some rest => Some rest
           | None => k (Some c) s'
           end
  end.

(** The backtracking matcher: [run r prev s k] matches [r] at the head of
    [s], [prev] being the character before it, and hands the rest to [k];
    alternatives are tried from left to right. *)
Fixpoint run (r : regex) (prev : option ascii) (s : chars) (k : cont)
  : option chars :=
  match r with
  | Lit w =>
      match lit_match w prev s with
      | Some (p, s') => k p s'
      | None => None
      end
  | WordB => if boundary prev (hd_error s) then k prev s else None
  | AnyPlus => any_plus k s
  | Alt r1 r2 =>
      match run r1 prev s k with
      | Some rest => Some rest
      | None => run r2 prev s k
      end
  | Cat r1 r2 => run r1 prev s (fun p s' => run r2 p s' k)
  | Fail => None
  end.

(** A match of [r] that starts at the head of [s]: what follows it. *)
Definition match_at (r : regex) (prev : option ascii) (s : chars)
  : option chars :=
  run r prev s (fun _ rest => Some rest).

(** [pattern.findall(text)]: the matches from left to right, each search
    resuming where the previous match ended.  [skip] counts the characters
    of the current match still to be passed. *)
Fixpoint scan (r : regex) (skip : nat) (prev : option ascii) (s : chars)
  : list chars :=
  match s with
  | [] =>
      match skip with
      | O => match match_at r prev [] with Some _ => [[]] | None => [] end
      | S _ => []
      end
  | c :: s' =>
      match skip with
      | S n => scan r n (Some c) s'
      | O =>
          match match_at r prev s with
          | Some rest =>
              let len := (length s - length rest)%nat in
              firstn len s :: scan r (len - 1) (Some c) s'
          | None => scan r O (Some c) s'
          end
      end
  end.

Definition findall (r : regex) (s : chars) : list chars := scan r O None s.

(** [re.search(pattern, text)] as a truth value. *)
Fixpoint search_from (r : regex) (prev : option ascii) (s : chars) : bool :=
  match match_at r prev s with
  | Some _ => true
  | None =>
      match s with
      | [] => false
      | c :: s' => search_from r (Some c) s'
      end
  end.

Definition search (r : regex) (s : chars) : bool := search_from r None s.

(** [(?:w1|w2|...)] over escaped words. *)
Definition alts (words : list string) : regex :=
  fold_right (fun w r => Alt (Lit (of_string w)) r) Fail words.

(** [r'\b(?:' + '|'.join(re.escape(word) for word in words) + r')\b'] *)
Definition word_pattern (words : list string) : regex :=
  Cat WordB (Cat (alts words) WordB).

End Re.

(** ** Values the endpoints receive *)

(** A JSON argument as Python sees it: [None], a boolean, an integer, a
    string, or any other value (a float, a list, an object), of which
    only the truth value and the text under [str()] are ever used. *)
Inductive pyval : Type :=
| PNone
| PBool (b : bool)
| PInt (z : Z)
| PStr (s : string)
| POther (truth : bool) (shown : string).

(** Truth value, as in [if x:]. *)
Definition truthy (v : pyval) : bool :=
  match v with
  | PNone => false
  | PBool b => b
  | PInt z => negb (z =? 0)%Z
  | PStr s => negb (String.eqb s "")
  | POther t _ => t
  end.

(** [str(v)], as an f-string shows it. *)
Definition py_str (v : pyval) : string :=
  match v with
  | PNone => "None"
  | PBool b => if b then "True" else "False"
  | PInt z => NilZero.string_of_int (Z.to_int z)
  | PStr s => s
  | POther _ shown => shown
  end.

(** [isinstance(v, int)]; [bool] is a subclass of [int]. *)
Definition as_int (v : pyval) : option Z :=
  match v with
  | PInt z => Some z
  | PBool b => Some (if b then 1 else 0)%Z
  | _ => None
  end.

(** [isinstance(v, str)] *)
Definition as_str (v : pyval) : option string :=
  match v with PStr s => Some s | _ => None end.

(** ** The content validator *)

Module Validator.
Import PyStr Re.

Definition lexicon := list (string * list string).

Definition travel_keywords : lexicon :=
  [ ("destinations",
      ["city"; "country"; "destination"; "place"; "location"; "visit";
       "travel to"; "paris"; "london"; "tokyo"; "new york"; "dubai";
       "barcelona"; "rome"; "bangkok"; "sydney"; "mumbai"; "europe"; "asia";
       "america"; "africa"]);
    ("accommodation",
      ["hotel"; "hostel"; "resort"; "accommodation"; "stay"; "lodge"; "inn";
       "apartment"; "booking"; "room"; "suite"; "bed and breakfast"]);
    ("activities",
      ["attraction"; "sightseeing"; "tour"; "museum"; "landmark"; "monument";
       "beach"; "park"; "temple"; "church"; "castle"; "gallery"; "zoo";
       "shopping"; "restaurant"; "nightlife"; "entertainment"]);
    ("transportation",
      ["flight"; "plane"; "airport"; "train"; "bus"; "taxi"; "car rental";
       "transportation"; "metro"; "subway"; "ferry"; "cruise"]);
    ("planning",
      ["itinerary"; "schedule"; "plan"; "trip"; "vacation"; "holiday";
       "journey"; "budget"; "cost"; "price"; "expense"; "currency";
       "exchange"; "visa"; "passport"; "weather"; "climate"; "season"]) ]%string.

Definition high_threat_words : list string :=
  ["bomb"; "terrorist"; "kill"; "murder"; "attack"; "violence"; "weapon";
   "gun"; "knife"; "explosive"; "threat"; "harm"; "destroy"]%string.

Definition threat_words : lexicon :=
  [ ("high_threat", high_threat_words);
    ("inappropriate",
      ["sex"; "porn"; "nude"; "adult"; "drug"; "cocaine"; "marijuana"]);
    ("travel_illegal",
      ["visa fraud"; "fake passport"; "smuggling"; "human trafficking";
       "drug trafficking"; "money laundering"; "illegal border"]) ]%string.

Definition non_travel_topics : lexicon :=
  [ ("technology",
      ["programming"; "coding"; "software"; "computer"; "python";
       "javascript"; "html"; "css"; "database"; "api"; "algorithm"]);
    ("entertainment",
      ["movie"; "tv show"; "music"; "song"; "game"; "sport"; "celebrity";
       "news"]);
    ("education",
      ["homework"; "essay"; "study"; "exam"; "math problem";
       "research paper"]);
    ("general",
      ["hello"; "hi"; "how are you"; "tell me a joke";
       "what do you think"]) ]%string.

(** [_compile_patterns] *)
Definition travel_pattern : regex :=
  word_pattern (List.concat (List.map snd travel_keywords)).

Definition compile (lx : lexicon) : list (string * regex) :=
  List.map (fun cw => (fst cw, word_pattern (snd cw))) lx.

Definition threat_patterns : list (string * regex) := compile threat_words.
Definition non_travel_patterns : list (string * regex) :=
  compile non_travel_topics.

(** The dictionary [_check_security_threats] returns. *)
Record security_result : Type := {
  sr_is_safe : bool;
  sr_category : option string;
  sr_matches : list chars;
  sr_severity : option string
}.

Fixpoint check_threats_in (pats : list (string * regex)) (text : chars)
  : security_result :=
  match pats with
  | [] => {| sr_is_safe := true; sr_category := None; sr_matches := [];
             sr_severity := None |}
  | (category, pattern) :: rest =>
      match findall pattern text with
      | [] => check_threats_in rest text
      | matches =>
          {| sr_is_safe := false;
             sr_category := Some category;
             sr_matches := matches;
             sr_severity :=
               Some (if String.eqb category "high_threat"
                     then "critical" else "moderate")%string |}
      end
  end.

Definition _check_security_threats (text : chars) (user_id : string)
  : security_result :=
  check_threats_in threat_patterns text.

Definition float_of_nat (n : nat) : float :=
  PrimFloat.of_uint63 (Uint63.of_Z (Z.of_nat n)).

(** [max(a, b)] and [min(a, b)] of two numbers: the first argument is kept
    unless the second is strictly beyond it. *)
Definition py_max (a b : float) : float := if PrimFloat.ltb a b then b else a.
Definition py_min (a b : float) : float := if PrimFloat.ltb b a then b else a.

Definition travel_patterns : list regex :=
  [ word_pattern ["trip to"; "travel to"; "visit"; "vacation in";
                  "holiday in"];
    word_pattern ["hotel in"; "stay in"; "accommodation in"];
    word_pattern ["attractions in"; "things to do in"];
    Cat WordB (Cat (alts ["budget for"; "cost of"])
                 (Cat AnyPlus (Cat (alts ["trip"; "travel"; "vacation"])
                                 WordB)));
    word_pattern ["weather in"; "climate in"; "best time to visit"] ]%string.

Definition pattern_boost (text : chars) : float :=
  fold_left
    (fun boost pattern =>
       if search pattern text then (boost + 0.2)%float else boost)
    travel_patterns 0%float.

Definition _calculate_travel_relevance (text : chars) : float :=
  match split text with
  | [] => 0%float
  | words =>
      let travel_matches := length (findall travel_pattern text) in
      let total_words := length words in
      let keyword_score :=
        py_min (float_of_nat travel_matches
                  / py_max (float_of_nat total_words * 0.3) 1)%float
               1%float in
      py_min (keyword_score + pattern_boost text)%float 1%float
  end.

Fixpoint detect_in (pats : list (string * regex)) (text : chars) : string :=
  match pats with
  | [] => "other_non_travel"
  | (category, pattern) :: rest =>
      if search pattern text then category else detect_in rest text
  end.

Definition _detect_non_travel_category (text : chars) : string :=
  detect_in non_travel_patterns text.

Definition suggestions : list string :=
  [ "Try asking about hotels, attractions, or itineraries for your destination!";
    "I can help you plan trips - ask about destinations, budgets, or travel recommendations!";
    "Let's focus on travel planning - ask me about accommodations, activities, or trip costs!";
    "Ask me about travel topics like finding hotels, creating itineraries, or budgeting for trips!"
  ]%string.

(** [random.choice(suggestions)]; [pick] is the draw. *)
Definition _get_travel_suggestion (pick : nat) : string :=
  nth (pick mod 4) suggestions ""%string.

Inductive action : Type := allow | block | redirect.

(** The dictionary [validate_content] returns. *)
Record validation : Type := {
  is_safe : bool;
  is_travel : bool;
  v_action : action;
  reason : string;
  category : option string;
  severity : option string;
  travel_score : option float;
  suggestion : option string
}.

Definition invalid_input : validation :=
  {| is_safe := false; is_travel := false; v_action := block;
     reason := "invalid_input"; category := None; severity := None;
     travel_score := None; suggestion := None |}.

Definition validate_text (text : string) (user_id : string) (pick : nat)
  : validation :=
  let text_clean := lower (strip (of_string text)) in
  let security_result := _check_security_threats text_clean user_id in
  if negb (sr_is_safe security_result) then
    {| is_safe := false; is_travel := false; v_action := block;
       reason := "security_violation";
       category := sr_category security_result;
       severity :=
         Some (match sr_severity security_result with
               | Some s => s
               | None => "high"%string
               end);
       travel_score := None; suggestion := None |}
  else
    let score := _calculate_travel_relevance text_clean in
    if PrimFloat.ltb score 0.3 then
      {| is_safe := true; is_travel := false; v_action := redirect;
         reason := "non_travel_topic";
         category := Some (_detect_non_travel_category text_clean);
         severity := None;
         travel_score := Some score;
         suggestion := Some (_get_travel_suggestion pick) |}
    else
      {| is_safe := true; is_travel := true; v_action := allow;
         reason := "valid_travel_query"; category := None; severity := None;
         travel_score := Some score; suggestion := None |}.

(** [validate_content(text, user_id)]: anything that is not a non-empty
    string is refused before it is read. *)
Definition validate_content (text : pyval) (user_id : string) (pick : nat)
  : validation :=
  match text with
  | PStr s => if String.eqb s "" then invalid_input
              else validate_text s user_id pick
  | _ => invalid_input
  end.

End Validator.


(** ** Numbers of the query functions *)

(** The floats of the datasets (ratings, durations) and the floats computed
    from them (means, totals, shares) are finite; they are rationals here
    and their arithmetic is exact. *)

Module Num.

Definition sum_Z (l : list Z) : Z := fold_right Z.add 0%Z l.
Definition sum_Q (l : list Q) : Q := fold_right Qplus 0%Q l.

Definition len_Q {A} (l : list A) : Q := inject_Z (Z.of_nat (length l)).

(** [mean] of a column; the callers pass no empty column. *)
Definition mean_Z (l : list Z) : Q := (inject_Z (sum_Z l) / len_Q l)%Q.
Definition mean_Q (l : list Q) : Q := (sum_Q l / len_Q l)%Q.

Definition Qltb (x y : Q) : bool := negb (Qle_bool y x).

(** [int(x)]: towards zero. *)
Definition int_of (x : Q) : Z :=
  if Qle_bool 0 x then Qfloor x else Qceiling x.

(** The integer nearest to [x], the even one of two that are as near. *)
Definition round_half_even (x : Q) : Z :=
  let f := Qfloor x in
  let d := (x - inject_Z f)%Q in
  if Qltb d (1 # 2) then f
  else if Qltb (1 # 2) d then (f + 1)%Z
  else if Z.even f then f else (f + 1)%Z.

(** [round(x, ndigits)] *)
Definition py_round (x : Q) (ndigits : nat) : Q :=
  let scale := inject_Z (10 ^ Z.of_nat ndigits) in
  (inject_Z (round_half_even (x * scale)) / scale)%Q.

Definition min_Z (l : list Z) : Z :=
  match l with [] => 0%Z | x :: l' => fold_left Z.min l' x end.
Definition max_Z (l : list Z) : Z :=
  match l with [] => 0%Z | x :: l' => fold_left Z.max l' x end.

End Num.

(** ** Sequences: [sorted], [sort_values], [unique], [join] *)

Module Seq.

Section Sort.
Context {A : Type} (le : A -> A -> bool).

(** Puts [x] in front of the first element it does not exceed. *)
Fixpoint insert (x : A) (l : list A) : list A :=
  match l with
  | [] => [x]
  | y :: l' => if le x y then x :: l else y :: insert x l'
  end.

(** A stable sort: elements that compare equal keep their order. *)
Definition sort (l : list A) : list A := fold_right insert [] l.

End Sort.

(** [unique()]: the values in the order of their first appearance. *)
Fixpoint unique (l : list string) : list string :=
  match l with
  | [] => []
  | x :: l' => x :: List.filter (fun y => negb (String.eqb x y)) (unique l')
  end.

Definition mem (x : string) (l : list string) : bool :=
  existsb (String.eqb x) l.

(** [sorted(l)] on strings. *)
Definition sorted (l : list string) : list string := sort String.leb l.

(** [sep.join(l)] *)
Definition join (sep : string) (l : list string) : string :=
  String.concat sep l.

(** [s.split(sep)] on a one-character separator. *)
Fixpoint split_on_aux (sep : ascii) (cur : list ascii) (s : list ascii)
  : list string :=
  match s with
  | [] => [string_of_list_ascii (rev cur)]
  | c :: s' =>
      if Ascii.eqb c sep
      then string_of_list_ascii (rev cur) :: split_on_aux sep [] s'
      else split_on_aux sep (c :: cur) s'
  end.

Definition split_on (sep : ascii) (s : string) : list string :=
  split_on_aux sep [] (list_ascii_of_string s).

End Seq.

(** ** Payloads *)

(** An error dictionary: the message under ["error"] and the keys some
    errors add to it. *)
Record error_payload : Type := {
  error : string;
  available_cities : option (list string);
  available_categories : option (list string);
  err_suggestion : option string
}.

(** What a query function returns: a dictionary with ["success": True], or
    an error dictionary. *)
Inductive result (A : Type) : Type :=
| Success (payload : A)
| Error (e : error_payload).
Arguments Success {A} payload.
Arguments Error {A} e.

Definition err (msg : string) : error_payload :=
  {| error := msg; available_cities := None; available_categories := None;
     err_suggestion := None |}.

Definition bind {A B} (r : result A) (f : A -> result B) : result B :=
  match r with
  | Success a => f a
  | Error e => Error e
  end.

Notation "'let*' x ':=' r 'in' k" := (bind r (fun x => k))
  (at level 10, x name, r at level 100, k at level 200).

Definition is_success {A} (r : result A) : bool :=
  match r with Success _ => true | Error _ => false end.

(** [s.strip().title()] on a string. *)
Definition normalize_city (s : string) : string :=
  PyStr.to_string (PyStr.title (PyStr.strip (PyStr.of_string s))).

(** [s.lower()] on a string. *)
Definition str_lower (s : string) : string :=
  PyStr.to_string (PyStr.lower (PyStr.of_string s)).

(** ** The destination datasets and the query functions *)

Module Planner.
Import Num Seq.

(** A row of [travel_hotels.csv]. *)
Record hotel : Type := {
  hotel_id : string;
  h_name : string;
  h_city : string;
  h_country : string;
  h_category : string;
  price_per_night : Z;
  h_rating : Q;
  amenities : string;
  address : string;
  availability : bool
}.

(** A row of [travel_attractions.csv]; the dictionary [get_attractions]
    builds from a row repeats its columns and is the same record. *)
Record attraction : Type := {
  attraction_id : string;
  a_name : string;
  a_city : string;
  a_country : string;
  a_category : string;
  entry_fee : Z;
  duration_hours : Q;
  a_rating : Q;
  description : string;
  opening_hours : string
}.

(** An entry of ["hotels"]. *)
Record hotel_entry : Type := {
  he_id : string;
  he_name : string;
  he_category : string;
  he_price_per_night : Z;
  he_rating : Q;
  he_amenities : list string;
  he_address : string;
  he_available : bool;
  he_country : string
}.

Definition hotel_entry_of (h : hotel) : hotel_entry :=
  {| he_id := hotel_id h; he_name := h_name h; he_category := h_category h;
     he_price_per_night := price_per_night h; he_rating := h_rating h;
     he_amenities := split_on "," (amenities h);
     he_address := address h; he_available := availability h;
     he_country := h_country h |}.

Record hotel_statistics : Type := {
  average_price : Z;
  price_min : Z;
  price_max : Z;
  hs_average_rating : Q
}.

Record hotels_payload : Type := {
  hp_city : string;
  hp_country : string;
  hotels_found : nat;
  hotels : list hotel_entry;
  hp_statistics : hotel_statistics;
  hp_budget_max : pyval;
  hp_category : pyval;
  hp_availability_check : pyval
}.

(** [sort_values(['rating', key], ascending=[False, True])]: the better
    rating first, then the smaller [key]. *)
Definition by_rating_then {A} (rating : A -> Q) (key : A -> Z) (x y : A)
  : bool :=
  Qltb (rating y) (rating x)
  || (Qeq_bool (rating x) (rating y) && (key x <=? key y)%Z).

Definition in_city {A} (city_of : A -> string) (city : string) (row : A)
  : bool :=
  String.eqb (str_lower (city_of row)) (str_lower city).

Definition valid_categories : list string :=
  ["luxury"; "mid-range"; "budget"]%string.

(** [if budget_max: ...] *)
Definition filter_budget (budget_max : pyval) (rows : list hotel)
  : result (list hotel) :=
  if truthy budget_max then
    match as_int budget_max with
    | Some b =>
        if (b <? 0)%Z || (5000 <? b)%Z
        then Error (err "Budget must be a positive integer between 0 and 5000 USD")
        else Success (List.filter (fun h => (price_per_night h <=? b)%Z) rows)
    | None =>
        Error (err "Budget must be a positive integer between 0 and 5000 USD")
    end
  else Success rows.

Definition search_failed : error_payload :=
  err "Failed to search hotels. Please try again with valid parameters.".

(** [if category: ...]; a category that is true but no string has no
    [lower] and the call ends in the [except] clause. *)
Definition filter_category (category : pyval) (rows : list hotel)
  : result (list hotel) :=
  if truthy category then
    match as_str category with
    | Some c =>
        if mem (str_lower c) valid_categories
        then Success
               (List.filter
                  (fun h => String.eqb (str_lower (h_category h)) (str_lower c))
                  rows)
        else Error (err ("Category must be one of: "
                           +:+ join ", " valid_categories))
    | None => Error search_failed
    end
  else Success rows.

Definition filter_available (check_availability : pyval) (rows : list hotel)
  : list hotel :=
  if truthy check_availability then List.filter availability rows else rows.

Definition search_hotels (hotels_df : list hotel)
    (city budget_max category check_availability : pyval)
  : result hotels_payload :=
  match as_str city with
  | None => Error (err "City parameter is required and must be a valid string")
  | Some c =>
    if String.eqb c "" then
      Error (err "City parameter is required and must be a valid string")
    else
    let city := normalize_city c in
    match hotels_df with
    | [] => Error (err "Hotel database is currently unavailable")
    | _ =>
      match List.filter (in_city h_city city) hotels_df with
      | [] =>
          let available := sorted (unique (List.map h_city hotels_df)) in
          Error {| error := "No hotels found in " +:+ city;
                   available_cities := Some available;
                   available_categories := None;
                   err_suggestion :=
                     Some ("Try one of these cities: "
                             +:+ join ", " (firstn 5 available)) |}
      | city_hotels =>
          let* city_hotels := filter_budget budget_max city_hotels in
          let* city_hotels := filter_category category city_hotels in
          match filter_available check_availability city_hotels with
          | [] =>
              Error {| error := "No hotels found matching your criteria in "
                                  +:+ city;
                       available_cities := None;
                       available_categories := None;
                       err_suggestion :=
                         Some "Try adjusting your budget or category preferences" |}
          | city_hotels =>
              let results :=
                firstn 8 (sort (by_rating_then h_rating price_per_night)
                            city_hotels) in
              let prices := List.map price_per_night results in
              Success
                {| hp_city := city;
                   hp_country := match results with
                                 | h :: _ => h_country h
                                 | [] => ""
                                 end;
                   hotels_found := length results;
                   hotels := List.map hotel_entry_of results;
                   hp_statistics :=
                     {| average_price := int_of (mean_Z prices);
                        price_min := min_Z prices;
                        price_max := max_Z prices;
                        hs_average_rating :=
                          py_round (mean_Q (List.map h_rating results)) 1 |};
                   hp_budget_max := budget_max;
                   hp_category := category;
                   hp_availability_check := check_availability |}
          end
      end
    end
  end.

Record category_summary : Type := {
  cs_count : nat;
  cs_entry_fee : Q;
  cs_rating : Q
}.

Record attraction_statistics : Type := {
  average_entry_fee : Z;
  free_attractions : nat;
  average_duration : Q;
  as_average_rating : Q
}.

Record attractions_payload : Type := {
  ap_city : string;
  ap_country : string;
  attractions_found : nat;
  attractions : list attraction;
  categories_summary : list (string * category_summary);
  ap_statistics : attraction_statistics;
  ap_category : pyval;
  ap_max_entry_fee : pyval
}.

(** [if category: ...]: membership in the categories of the whole
    dataset, the strings compared as they are. *)
Definition filter_attraction_category (attractions_df : list attraction)
    (category : pyval) (rows : list attraction) : result (list attraction) :=
  if truthy category then
    let available := sorted (unique (List.map a_category attractions_df)) in
    match as_str category with
    | Some c =>
        if mem c available
        then Success (List.filter (fun a => String.eqb (a_category a) c) rows)
        else Error {| error := "Invalid category '" +:+ c +:+ "'";
                      available_cities := None;
                      available_categories := Some available;
                      err_suggestion := None |}
    | None =>
        Error {| error := "Invalid category '" +:+ py_str category +:+ "'";
                 available_cities := None;
                 available_categories := Some available;
                 err_suggestion := None |}
    end
  else Success rows.

(** [if max_entry_fee is not None: ...] *)
Definition filter_entry_fee (max_entry_fee : pyval) (rows : list attraction)
  : result (list attraction) :=
  match max_entry_fee with
  | PNone => Success rows
  | _ =>
      match as_int max_entry_fee with
      | Some m =>
          if (m <? 0)%Z
          then Error (err "Maximum entry fee must be a non-negative integer")
          else Success (List.filter (fun a => (entry_fee a <=? m)%Z) rows)
      | None => Error (err "Maximum entry fee must be a non-negative integer")
      end
  end.

(** [groupby('category').agg(count, mean, mean).round(1)], the groups in
    the order of their names. *)
Definition summarize (rows : list attraction)
  : list (string * category_summary) :=
  List.map
    (fun c =>
       let group := List.filter (fun a => String.eqb (a_category a) c) rows in
       (c, {| cs_count := length group;
              cs_entry_fee := py_round (mean_Z (List.map entry_fee group)) 1;
              cs_rating := py_round (mean_Q (List.map a_rating group)) 1 |}))
    (sorted (unique (List.map a_category rows))).

Definition get_attractions (attractions_df : list attraction)
    (city category max_entry_fee : pyval) : result attractions_payload :=
  match as_str city with
  | None => Error (err "City parameter is required and must be a valid string")
  | Some c =>
    if String.eqb c "" then
      Error (err "City parameter is required and must be a valid string")
    else
    let city := normalize_city c in
    match attractions_df with
    | [] => Error (err "Attractions database is currently unavailable")
    | _ =>
      match List.filter (in_city a_city city) attractions_df with
      | [] =>
          let available := sorted (unique (List.map a_city attractions_df)) in
          Error {| error := "No attractions found in " +:+ city;
                   available_cities := Some available;
                   available_categories := None;
                   err_suggestion :=
                     Some ("Try one of these cities: "
                             +:+ join ", " (firstn 5 available)) |}
      | city_attractions =>
          let* city_attractions :=
            filter_attraction_category attractions_df category
              city_attractions in
          let* city_attractions :=
            filter_entry_fee max_entry_fee city_attractions in
          match city_attractions with
          | [] =>
              Error {| error := "No attractions found matching your criteria in "
                                  +:+ city;
                       available_cities := None;
                       available_categories := None;
                       err_suggestion :=
                         Some "Try adjusting your category or budget filters" |}
          | _ =>
              let results :=
                firstn 12 (sort (by_rating_then a_rating entry_fee)
                             city_attractions) in
              Success
                {| ap_city := city;
                   ap_country := match results with
                                 | a :: _ => a_country a
                                 | [] => ""
                                 end;
                   attractions_found := length results;
                   attractions := results;
                   categories_summary := summarize results;
                   ap_statistics :=
                     {| average_entry_fee :=
                          int_of (mean_Z (List.map entry_fee results));
                        free_attractions :=
                          length (List.filter
                                    (fun a => (entry_fee a =? 0)%Z) results);
                        average_duration :=
                          py_round (mean_Q (List.map duration_hours results)) 1;
                        as_average_rating :=
                          py_round (mean_Q (List.map a_rating results)) 1 |};
                   ap_category := category;
                   ap_max_entry_fee := max_entry_fee |}
          end
      end
    end
  end.

(** A day of an itinerary. *)
Record day_plan : Type := {
  day : Z;
  dp_title : string;
  activities : list string;
  attraction_details : list attraction;
  meals : list string;
  estimated_cost : Z;
  total_duration : Q;
  transportation : string
}.

(** Modelled from the spec: the itinerary templates, which the source reads
    from [travel_itinerary_templates.json], a file that is not part of the
    sources.  The store maps a city to a duration key (["3_days"]) to an
    ordered sequence of day plans, each carrying an [estimated_cost]; a
    day plan of a template has the shape of a generated one. *)
Abbreviation template_store := (gmap string (gmap string (list day_plan))).

Record itinerary_payload : Type := {
  ip_city : string;
  ip_duration_days : pyval;
  itinerary_type : string;
  itinerary : list day_plan;
  total_estimated_cost : Z;
  daily_average_cost : Q;
  attractions_included : option nat;
  ip_interests : option pyval;
  variety_achieved : option nat;
  notes : string
}.

(** The running state of a day: the attractions chosen for it, its cost,
    and the identifiers used so far in the whole itinerary. *)
Record day_state : Type := {
  day_attractions : list attraction;
  day_cost : Z;
  used_attractions : gset string
}.

Definition select (selected : attraction) (st : day_state) : day_state :=
  {| day_attractions := day_attractions st ++ [selected];
     day_cost := day_cost st + entry_fee selected;
     used_attractions := {[ attraction_id selected ]} ∪ used_attractions st |}.

(** [[a for a in l if a['id'] not in used_attractions]] *)
Definition unused (used : gset string) (l : list attraction)
  : list attraction :=
  List.filter (fun a => negb (bool_decide (attraction_id a ∈ used))) l.

(** Appends [a] to the list of its category, a new category going last. *)
Fixpoint add_to_category (a : attraction)
    (groups : list (string * list attraction))
  : list (string * list attraction) :=
  match groups with
  | [] => [(a_category a, [a])]
  | (c, l) :: rest =>
      if String.eqb c (a_category a) then (c, l ++ [a]) :: rest
      else (c, l) :: add_to_category a rest
  end.

Definition categorize (l : list attraction)
  : list (string * list attraction) :=
  fold_left (fun groups a => add_to_category a groups) l [].

(** [for category in categorized_attractions: ...] *)
Definition diverse_pass (attractions_per_day : nat)
    (groups : list (string * list attraction)) (st : day_state) : day_state :=
  fold_left
    (fun st group =>
       match unused (used_attractions st) (snd group) with
       | selected :: _ =>
           if (length (day_attractions st) <? attractions_per_day)%nat
           then select selected st else st
       | [] => st
       end)
    groups st.

(** [while len(day_attractions) < attractions_per_day: ...]; every turn
    of the loop that does not leave it fills one of the [slots] left. *)
Fixpoint fill (slots : nat) (all : list attraction) (st : day_state)
  : day_state :=
  match slots with
  | O => st
  | S slots' =>
      match unused (used_attractions st) all with
      | [] => st
      | selected :: _ => fill slots' all (select selected st)
      end
  end.

Definition plan_day (city : string) (attractions_per_day : nat)
    (all : list attraction) (groups : list (string * list attraction))
    (used : gset string) (d : nat) : day_plan * gset string :=
  let st0 := {| day_attractions := []; day_cost := 50;
                used_attractions := used |} in
  let st1 := diverse_pass attractions_per_day groups st0 in
  let st2 := fill (attractions_per_day - length (day_attractions st1)) all st1 in
  ({| day := Z.of_nat d;
      dp_title := "Day " +:+ py_str (PInt (Z.of_nat d)) +:+ " - " +:+ city
                    +:+ " Exploration";
      activities := List.map a_name (day_attractions st2);
      attraction_details := day_attractions st2;
      meals := ["Local breakfast"; "Regional lunch"; "Traditional dinner"];
      estimated_cost := day_cost st2;
      total_duration := sum_Q (List.map duration_hours (day_attractions st2));
      transportation := "Public transport + Walking" |},
   used_attractions st2).

(** [for day in range(1, duration_days + 1): ...] *)
Definition plan_days (city : string) (attractions_per_day : nat)
    (all : list attraction) (groups : list (string * list attraction))
    (duration_days : nat) : list day_plan * gset string :=
  fold_left
    (fun acc d =>
       let '(plan, used) :=
         plan_day city attractions_per_day all groups (snd acc) d in
       (fst acc ++ [plan], used))
    (seq 1 duration_days) ([], ∅).

Definition total_cost_of (days : list day_plan) : Z :=
  sum_Z (List.map estimated_cost days).

Definition create_itinerary (attractions_df : list attraction)
    (itinerary_templates : template_store)
    (city duration_days interests : pyval) : result itinerary_payload :=
  match as_str city with
  | None => Error (err "City parameter is required and must be a valid string")
  | Some c =>
    if String.eqb c "" then
      Error (err "City parameter is required and must be a valid string")
    else
    match as_int duration_days with
    | None => Error (err "Duration must be between 1 and 14 days")
    | Some n =>
      if (n <? 1)%Z || (14 <? n)%Z then
        Error (err "Duration must be between 1 and 14 days")
      else
      let city := normalize_city c in
      let key := py_str duration_days +:+ "_days" in
      match itinerary_templates !! city ≫= (fun t => t !! key) with
      | Some template_itinerary =>
          let total_cost := total_cost_of template_itinerary in
          Success
            {| ip_city := city;
               ip_duration_days := duration_days;
               itinerary_type := "curated_template";
               itinerary := template_itinerary;
               total_estimated_cost := total_cost;
               daily_average_cost :=
                 py_round (inject_Z total_cost / inject_Z n) 2;
               attractions_included := None;
               ip_interests := None;
               variety_achieved := None;
               notes := "This is a curated itinerary template based on popular attractions and activities." |}
      | None =>
          let* attractions_result :=
            get_attractions attractions_df (PStr city) PNone PNone in
          let all := attractions attractions_result in
          if (Z.of_nat (length all) <? n * 2)%Z then
            Error {| error := "Insufficient attraction data for "
                                +:+ py_str duration_days +:+ " days in "
                                +:+ city;
                     available_cities := None;
                     available_categories := None;
                     err_suggestion :=
                       Some "Try a shorter duration or a different destination" |}
          else
            let attractions_per_day :=
              Nat.max 2 (length all / Z.to_nat n) in
            let categorized_attractions := categorize all in
            let '(plans, used) :=
              plan_days city attractions_per_day all categorized_attractions
                (Z.to_nat n) in
            let total_cost := total_cost_of plans in
            Success
              {| ip_city := city;
                 ip_duration_days := duration_days;
                 itinerary_type := "custom_generated";
                 itinerary := plans;
                 total_estimated_cost := total_cost;
                 daily_average_cost :=
                   py_round (inject_Z total_cost / inject_Z n) 2;
                 attractions_included := Some (size used);
                 ip_interests := Some interests;
                 variety_achieved := Some (length categorized_attractions);
                 notes := "This is a custom itinerary generated from available attractions data." |}
      end
    end
  end.

(** A line of ["budget_breakdown"]. *)
Record share : Type := {
  sh_total : Q;
  sh_daily : Q;
  sh_percentage : Q
}.

Record breakdown : Type := {
  bb_accommodation : share;
  bb_category : string;
  bb_attractions : share;
  avg_per_attraction : Q;
  bb_meals : share;
  bb_transportation : share;
  bb_miscellaneous : share;
  bb_total : Q
}.

Record comparisons : Type := {
  cc_budget : Q;
  cc_mid_range : Q;
  cc_luxury : Q
}.

(** A tip: a sentence around a number, or a sentence alone. *)
Record tip : Type := {
  tip_before : string;
  tip_number : option Q;
  tip_after : string
}.

Record budget_payload : Type := {
  bp_city : string;
  bp_duration_days : pyval;
  bp_accommodation_category : string;
  budget_breakdown : breakdown;
  daily_average : Q;
  category_comparisons : comparisons;
  budget_tips : list tip;
  currency : string
}.

Definition lookup_default {A} (table : list (string * A)) (key : string)
    (default : A) : A :=
  match List.find (fun kv => String.eqb (fst kv) key) table with
  | Some kv => snd kv
  | None => default
  end.

Definition base_prices : list (string * Z) :=
  [("luxury", 400); ("mid-range", 150); ("budget", 60)]%string%Z.

Definition city_multipliers : list (string * Q) :=
  [("Paris", 13 # 10); ("London", 14 # 10); ("Tokyo", 12 # 10);
   ("New York", 15 # 10); ("Dubai", 11 # 10); ("Barcelona", 9 # 10);
   ("Rome", 1); ("Bangkok", 6 # 10); ("Sydney", 11 # 10);
   ("Mumbai", 5 # 10)]%string%Q.

Definition meal_costs : list (string * Z) :=
  [("Paris", 70); ("London", 65); ("Tokyo", 55); ("New York", 80);
   ("Dubai", 60); ("Barcelona", 45); ("Rome", 50); ("Bangkok", 25);
   ("Sydney", 60); ("Mumbai", 20)]%string%Z.

(** [int(base_prices[accommodation_category] * multiplier)] *)
Definition fallback_hotel_price (city category : string) : Z :=
  int_of (inject_Z (lookup_default base_prices category 0%Z)
          * lookup_default city_multipliers city 1)%Q.

Definition average_hotel_price (hotels_df : list hotel)
    (city category : string) : Z :=
  match search_hotels hotels_df (PStr city) PNone (PStr category)
          (PBool true) with
  | Success p =>
      match hotels p with
      | [] => fallback_hotel_price city category
      | _ => average_price (hp_statistics p)
      end
  | Error _ => fallback_hotel_price city category
  end.

Definition average_attraction_cost (attractions_df : list attraction)
    (city : string) (days : Z) : Q :=
  match get_attractions attractions_df (PStr city) PNone PNone with
  | Success p =>
      match attractions p with
      | [] => 20
      | l => mean_Z (List.map entry_fee (firstn (Z.to_nat (days * 3)) l))
      end
  | Error _ => 20
  end.

Definition percent (part total : Q) : Q := py_round (part / total * 100) 1.

Definition budget_failed : error_payload :=
  err "Failed to estimate budget. Please try again with valid parameters.".

Definition get_travel_budget_estimate (hotels_df : list hotel)
    (attractions_df : list attraction)
    (city duration_days accommodation_category : pyval)
  : result budget_payload :=
  match as_str city with
  | None => Error (err "City parameter is required")
  | Some c =>
    if String.eqb c "" then Error (err "City parameter is required") else
    match as_int duration_days with
    | None => Error (err "Duration must be between 1 and 30 days")
    | Some n =>
      if (n <? 1)%Z || (30 <? n)%Z then
        Error (err "Duration must be between 1 and 30 days")
      else
      let city := normalize_city c in
      match as_str accommodation_category with
      | None => Error (err ("Accommodation category must be one of: "
                              +:+ join ", " valid_categories))
      | Some category =>
        if negb (mem category valid_categories) then
          Error (err ("Accommodation category must be one of: "
                        +:+ join ", " valid_categories))
        else
        let days := inject_Z n in
        let avg_hotel_price := average_hotel_price hotels_df city category in
        let avg_attraction_cost :=
          average_attraction_cost attractions_df city n in
        let accommodation_total := inject_Z (avg_hotel_price * n) in
        let attractions_total := (avg_attraction_cost * days * (5 # 2))%Q in
        let meals_daily := lookup_default meal_costs city 50%Z in
        let meals_total := inject_Z (meals_daily * n) in
        let transport_daily :=
          if mem city ["New York"; "London"; "Paris"]%string
          then 30%Z else 20%Z in
        let transport_total := inject_Z (transport_daily * n) in
        let misc_percentage := (15 # 100)%Q in
        let subtotal :=
          (accommodation_total + attractions_total + meals_total
           + transport_total)%Q in
        let miscellaneous_total := (subtotal * misc_percentage)%Q in
        let total_budget := (subtotal + miscellaneous_total)%Q in
        (* a division by a total of zero ends in the except clause *)
        if Qeq_bool total_budget 0 then Error budget_failed else
        let line total daily :=
          {| sh_total := py_round total 2;
             sh_daily := daily;
             sh_percentage := percent total total_budget |} in
        let bd :=
          {| bb_accommodation :=
               line accommodation_total
                    (py_round (accommodation_total / days) 2);
             bb_category := category;
             bb_attractions :=
               line attractions_total (py_round (attractions_total / days) 2);
             avg_per_attraction := py_round avg_attraction_cost 2;
             bb_meals := line meals_total (inject_Z meals_daily);
             bb_transportation :=
               line transport_total (inject_Z transport_daily);
             bb_miscellaneous :=
               line miscellaneous_total
                    (py_round (miscellaneous_total / days) 2);
             bb_total := py_round total_budget 2 |} in
        Success
          {| bp_city := city;
             bp_duration_days := duration_days;
             bp_accommodation_category := category;
             budget_breakdown := bd;
             daily_average := py_round (total_budget / days) 2;
             category_comparisons :=
               {| cc_budget := py_round (total_budget * (7 # 10)) 2;
                  cc_mid_range := py_round total_budget 2;
                  cc_luxury := py_round (total_budget * (15 # 10)) 2 |};
             budget_tips :=
               [ {| tip_before := "Accommodation represents ";
                    tip_number := Some (sh_percentage (bb_accommodation bd));
                    tip_after := "% of your budget" |};
                 {| tip_before := "Consider visiting during off-peak season for 20-30% savings";
                    tip_number := None; tip_after := "" |};
                 {| tip_before := "Free attractions can reduce costs by $";
                    tip_number :=
                      Some (py_round (attractions_total * (3 # 10)) 2);
                    tip_after := "" |};
                 {| tip_before := "Street food and local eateries can save $";
                    tip_number := Some (py_round (meals_total * (4 # 10)) 2);
                    tip_after := "" |} ];
             currency := "USD" |}
      end
    end
  end.

End Planner.

(** ** Sessions and the chat endpoint *)

Module Chat.
Import Validator.

(** An entry of a conversation. *)
Record message : Type := {
  role : string;
  content : option string;
  m_name : option string;
  m_function_call : option (string * string)
}.

Definition text_message (r c : string) : message :=
  {| role := r; content := Some c; m_name := None; m_function_call := None |}.

Record session : Type := {
  messages : list message;
  created_at : Z;
  message_count : Z;
  off_topic_warnings : Z;
  security_violations : Z
}.

(** [conversation_sessions] *)
Abbreviation store := (gmap string session).

Definition fresh (now : Z) : session :=
  {| messages := []; created_at := now; message_count := 0;
     off_topic_warnings := 0; security_violations := 0 |}.

(** The JSON body of a request: the value under ["message"] and the one
    under ["session_id"], each possibly absent. *)
Record body : Type := {
  b_message : option pyval;
  b_session_id : option string
}.

(** What the model answers: the first choice with its text and the
    function call it asks for, or an answer without a first choice. *)
Inductive model_reply : Type :=
| NoChoice
| Choice (text : option string) (call : option (string * string)).

(** The collaborators of one turn.
    - [now] is [datetime.now()] and [pick] the draw of [random.choice].
    - [converse messages] is [call_openai_with_functions]: [None] when the
      call failed and the failure was logged.
    - [json_args arguments] is [json.loads] followed by [json.dumps]:
      [None] when the arguments are not JSON.
    - [invoke name arguments] is the call of [function_mapping[name]] on
      the decoded arguments, followed by [json.dumps]: [None] when the call
      raises, which it does when the arguments do not fit the parameters
      of the function. *)
Record env : Type := {
  now : Z;
  pick : nat;
  converse : list message -> option model_reply;
  json_args : string -> option string;
  invoke : string -> string -> option string
}.

Inductive exn : Type :=
| AttributeError
| IndexError
| TypeError.

(** A JSON answer with its HTTP status; a key that is left out is [None]
    or [false]. *)
Record response : Type := {
  status : nat;
  r_success : bool;
  r_error : option string;
  r_message : option string;
  r_reason : option string;
  r_action : option string;
  session_reset : bool;
  blocked : bool;
  off_topic : bool;
  retry : bool;
  travel_query : bool;
  violations : option Z;
  warnings : option Z;
  r_category : option string;
  function_called : option string;
  function_result : option string;
  function_args : option string;
  technical_error : option exn
}.

Definition error_response (code : nat) (msg : string) : response :=
  {| status := code; r_success := false; r_error := Some msg;
     r_message := None; r_reason := None; r_action := None;
     session_reset := false; blocked := false; off_topic := false;
     retry := false; travel_query := false; violations := None;
     warnings := None; r_category := None; function_called := None;
     function_result := None; function_args := None;
     technical_error := None |}.

Definition ok_response (msg : string) : response :=
  {| status := 200; r_success := true; r_error := None;
     r_message := Some msg; r_reason := None; r_action := None;
     session_reset := false; blocked := false; off_topic := false;
     retry := false; travel_query := false; violations := None;
     warnings := None; r_category := None; function_called := None;
     function_result := None; function_args := None;
     technical_error := None |}.

Definition function_names : list string :=
  ["search_hotels"; "get_attractions"; "create_itinerary";
   "get_travel_budget_estimate"; "check_weather_recommendation"]%string.

Definition system_prompt : string :=
  "You are an expert travel planning assistant. You specialize EXCLUSIVELY in helping travelers plan amazing trips.

Your capabilities include:
1. Hotel and accommodation searches with detailed filtering
2. Tourist attraction discovery and recommendations
3. Comprehensive travel itinerary creation
4. Accurate travel budget estimation
5. Weather-based travel timing advice

IMPORTANT GUIDELINES:
- You ONLY help with travel-related queries
- Use the available travel functions whenever appropriate
- Provide detailed, helpful, and enthusiastic travel advice
- Always prioritize user safety and practical travel recommendations
- Include specific details like prices, ratings, and practical tips
- Be conversational and engaging while remaining professional

Available destinations include Paris, London, Tokyo, New York, Dubai, Barcelona, Rome, Bangkok, Sydney, and Mumbai with comprehensive data for each location.".

(** [l[-10:]] *)
Definition last10 {A} (l : list A) : list A := skipn (length l - 10) l.

(** The answer of the outer [except] clause. *)
Definition unavailable (e : exn) : response :=
  {| status := 500; r_success := false;
     r_error := Some "Travel assistance temporarily unavailable. Please try again.";
     r_message := None; r_reason := None; r_action := None;
     session_reset := false; blocked := false; off_topic := false;
     retry := false; travel_query := false; violations := None;
     warnings := None; r_category := None; function_called := None;
     function_result := None; function_args := None;
     technical_error := Some e |}.

Definition rate_limited : response :=
  {| status := 429; r_success := false;
     r_error := Some "Session limit reached. Please start a new chat for continued travel assistance.";
     r_message := None; r_reason := None; r_action := Some "reset_required";
     session_reset := false; blocked := false; off_topic := false;
     retry := false; travel_query := false; violations := None;
     warnings := None; r_category := None; function_called := None;
     function_result := None; function_args := None;
     technical_error := None |}.

Definition fresh_start : response :=
  {| status := 200; r_success := true; r_error := None;
     r_message := Some "Chat has been reset due to security violations. Let's start fresh with safe travel planning!";
     r_reason := Some "security"; r_action := None;
     session_reset := true; blocked := false; off_topic := false;
     retry := false; travel_query := false; violations := None;
     warnings := None; r_category := None; function_called := None;
     function_result := None; function_args := None;
     technical_error := None |}.

Definition block_message (count : Z) : response :=
  {| status := 200; r_success := true; r_error := None;
     r_message := Some "I can only assist with safe travel planning. Please ask about hotels, attractions, itineraries, or travel advice.";
     r_reason := Some "security"; r_action := None;
     session_reset := false; blocked := true; off_topic := false;
     retry := false; travel_query := false; violations := Some count;
     warnings := None; r_category := None; function_called := None;
     function_result := None; function_args := None;
     technical_error := None |}.

Definition off_topic_text (count : Z) (v : validation) : string :=
  if (count =? 1)%Z then
    "I'm a travel planning assistant and can only help with travel-related queries. "
      +:+ default "Try asking about travel planning!" (suggestion v)
  else if (count =? 2)%Z then
    "I'm specifically designed for travel planning only. Please ask about destinations, hotels, attractions, itineraries, or travel budgets."
  else if (3 <=? count)%Z then
    "I can ONLY assist with travel planning. I cannot help with other topics. Please ask about: hotels, attractions, itineraries, travel budgets, or destination recommendations."
  else
    "I'm here exclusively for travel assistance. " +:+ default "" (suggestion v).

Definition off_topic_message (count : Z) (v : validation) : response :=
  {| status := 200; r_success := true; r_error := None;
     r_message := Some (off_topic_text count v);
     r_reason := None; r_action := None;
     session_reset := false; blocked := false; off_topic := true;
     retry := false; travel_query := false; violations := None;
     warnings := Some count; r_category := category v;
     function_called := None; function_result := None;
     function_args := None; technical_error := None |}.

Definition answer (msg : option string) (called : option string)
    (res args : option string) : response :=
  {| status := 200; r_success := true; r_error := None;
     r_message := msg; r_reason := None; r_action := None;
     session_reset := false; blocked := false; off_topic := false;
     retry := false; travel_query := true; violations := None;
     warnings := None; r_category := None; function_called := called;
     function_result := res; function_args := args;
     technical_error := None |}.

Definition service_unavailable : response :=
  {| status := 500; r_success := false;
     r_error := Some "Travel planning service temporarily unavailable. Please try again.";
     r_message := None; r_reason := None; r_action := None;
     session_reset := false; blocked := false; off_topic := false;
     retry := true; travel_query := false; violations := None;
     warnings := None; r_category := None; function_called := None;
     function_result := None; function_args := None;
     technical_error := None |}.

Definition extend (s : session) (new : list message) : session :=
  {| messages := messages s ++ new; created_at := created_at s;
     message_count := message_count s;
     off_topic_warnings := off_topic_warnings s;
     security_violations := security_violations s |}.

(** The part of a turn that talks to the model; [sessions] already holds
    [s], the session of the turn, under [session_id].  An exception leaves
    the store as it is at the point where it is raised. *)
Definition converse_turn (sessions : store) (session_id : string)
    (s : session) (user_message : string) (e : env)
  : store * (exn + response) :=
  let user := text_message "user" user_message in
  let context :=
    text_message "system" system_prompt :: last10 (messages s) ++ [user] in
  match converse e context with
  | None => (sessions, inr service_unavailable)
  | Some NoChoice => (sessions, inl IndexError)
  | Some (Choice text (Some (function_name, arguments))) =>
      match json_args e arguments with
      | None => (sessions, inr (error_response 500 "Invalid function call from AI"))
      | Some shown_args =>
          if Seq.mem function_name function_names then
            match invoke e function_name arguments with
            | None => (sessions, inl TypeError)
            | Some shown_result =>
                let function_call_message :=
                  {| role := "assistant"; content := None; m_name := None;
                     m_function_call := Some (function_name, shown_args) |} in
                let function_result_message :=
                  {| role := "function"; content := Some shown_result;
                     m_name := Some function_name;
                     m_function_call := None |} in
                let context :=
                  context ++ [function_call_message; function_result_message] in
                match converse e context with
                | Some NoChoice => (sessions, inl IndexError)
                | Some (Choice final_message _) =>
                    let s :=
                      extend s
                        [ user; function_call_message; function_result_message;
                          {| role := "assistant"; content := final_message;
                             m_name := None; m_function_call := None |} ] in
                    (<[session_id := s]> sessions,
                     inr (answer final_message (Some function_name)
                            (Some shown_result) (Some shown_args)))
                | None =>
                    (* no travel function returns a "message" key: the
                       default of [function_result.get] is what is said *)
                    let fallback_msg :=
                      "I found travel information for you! "
                        +:+ "Here are the details for your travel query." in
                    let s :=
                      extend s [user; text_message "assistant" fallback_msg] in
                    (<[session_id := s]> sessions,
                     inr (answer (Some fallback_msg) (Some function_name)
                            (Some shown_result) (Some shown_args)))
                end
            end
          else
            (sessions,
             inr (error_response 400
                    ("Unknown travel function: " +:+ function_name)))
      end
  | Some (Choice regular_response None) =>
      let s :=
        extend s
          [ user;
            {| role := "assistant"; content := regular_response;
               m_name := None; m_function_call := None |} ] in
      (<[session_id := s]> sessions,
       inr (answer regular_response None None None))
  end.

(** The body of [chat] inside its [try]. *)
Definition chat_body (sessions : store) (req : option body) (e : env)
  : store * (exn + response) :=
  match req with
  | None => (sessions, inl AttributeError)
  | Some data =>
    match default (PStr "") (b_message data) with
    | PStr raw =>
      let user_message :=
        PyStr.to_string (PyStr.strip (PyStr.of_string raw)) in
      let session_id := default "default"%string (b_session_id data) in
      if String.eqb user_message "" then
        (sessions, inr (error_response 400 "No message provided"))
      else
        let s := default (fresh (now e)) (sessions !! session_id) in
        let s :=
          {| messages := messages s; created_at := created_at s;
             message_count := message_count s + 1;
             off_topic_warnings := off_topic_warnings s;
             security_violations := security_violations s |} in
        let sessions := <[session_id := s]> sessions in
        if (50 <? message_count s)%Z then (sessions, inr rate_limited)
        else
          let validation_result :=
            validate_content (PStr user_message) session_id (pick e) in
          if negb (is_safe validation_result) then
            let s :=
              {| messages := messages s; created_at := created_at s;
                 message_count := message_count s;
                 off_topic_warnings := off_topic_warnings s;
                 security_violations := security_violations s + 1 |} in
            if (2 <=? security_violations s)%Z then
              (<[session_id := fresh (now e)]> sessions, inr fresh_start)
            else
              (<[session_id := s]> sessions,
               inr (block_message (security_violations s)))
          else if negb (is_travel validation_result) then
            let s :=
              {| messages := messages s; created_at := created_at s;
                 message_count := message_count s;
                 off_topic_warnings := off_topic_warnings s + 1;
                 security_violations := security_violations s |} in
            (<[session_id := s]> sessions,
             inr (off_topic_message (off_topic_warnings s) validation_result))
          else converse_turn sessions session_id s user_message e
    | _ => (sessions, inl AttributeError)
    end
  end.

(** [chat]: the answer of the body, or the answer of the [except] clause
    when the body raises. *)
Definition chat (sessions : store) (req : option body) (e : env)
  : store * response :=
  match chat_body sessions req e with
  | (sessions', inr r) => (sessions', r)
  | (sessions', inl x) => (sessions', unavailable x)
  end.

Definition reset_done : response :=
  {| status := 200; r_success := true; r_error := None;
     r_message := Some "Chat reset! Ready to help you plan your next adventure. Where would you like to travel?";
     r_reason := None; r_action := None;
     session_reset := true; blocked := false; off_topic := false;
     retry := false; travel_query := false; violations := None;
     warnings := None; r_category := None; function_called := None;
     function_result := None; function_args := None;
     technical_error := None |}.

(** [reset_chat] *)
Definition reset_chat (sessions : store) (req : option body)
  : store * response :=
  match req with
  | None =>
      (sessions,
       error_response 500 "Failed to reset chat. Please refresh the page.")
  | Some data =>
      let session_id := default "default"%string (b_session_id data) in
      (delete session_id sessions, reset_done)
  end.

(** The answer of [session_status]. *)
Record status_report : Type := {
  session_active : bool;
  st_message_count : option Z;
  st_off_topic_warnings : option Z;
  st_security_violations : option Z;
  st_created_at : option Z
}.

Definition session_status (sessions : store) (session_id : string)
  : status_report :=
  match sessions !! session_id with
  | Some s =>
      {| session_active := true;
         st_message_count := Some (message_count s);
         st_off_topic_warnings := Some (off_topic_warnings s);
         st_security_violations := Some (security_violations s);
         st_created_at := Some (created_at s) |}
  | None =>
      {| session_active := false; st_message_count := None;
         st_off_topic_warnings := None; st_security_violations := None;
         st_created_at := None |}
  end.

End Chat.

(** * Properties *)

(** ** Notions the statements use *)

Import PyStr Re Validator.

(** The action that goes with the two flags of a validation result. *)
Definition expected_action (safe travel : bool) : action :=
  if negb safe then block else if travel then allow else redirect.

(** The character before the head of what follows [pre], [prev] being the
    character before [pre]. *)
Definition prev_after (prev : option ascii) (pre : chars) : option ascii :=
  fold_left (fun _ c => Some c) pre prev.

(** [kw] occurs in [text] as a whole word, in any case: it is neither
    preceded nor followed by a word character. *)
Definition whole_word (kw text : chars) : Prop :=
  exists pre mid post,
    text = pre ++ mid ++ post
    /\ lower mid = lower kw
    /\ opt_word (prev_after None pre) = false
    /\ opt_word (hd_error post) = false.

(** A character of the ASCII range, on which the character classes of
    the embedding are those of Python. *)
Definition is_ascii_char (c : ascii) : bool := (code c <? 128)%N.

Definition opt_ascii (c : option ascii) : bool :=
  match c with Some c => is_ascii_char c | None => true end.

(** The text is made of ASCII characters. *)
Definition ascii_text (text : chars) : bool := forallb is_ascii_char text.

(** [kw] occurs in [text] as a whole word between ASCII characters: the
    character before the occurrence and the character after it, where
    there is one, are ASCII characters that are not word characters. *)
Definition plain_word (kw text : chars) : Prop :=
  exists pre mid post,
    text = pre ++ mid ++ post
    /\ lower mid = lower kw
    /\ opt_word (prev_after None pre) = false
    /\ opt_word (hd_error post) = false
    /\ opt_ascii (prev_after None pre) = true
    /\ opt_ascii (hd_error post) = true.

(** A keyword that starts and ends with a word character. *)
Definition word_edged (w : chars) : bool :=
  opt_word (hd_error w) && opt_word (hd_error (rev w)).

(** The city of the request is the city of no row of the dataset, the
    two compared the way the query functions compare them. *)
Definition city_absent {A} (city_of : A -> string) (rows : list A)
    (city : string) : Prop :=
  forall row, In row rows ->
    str_lower (city_of row) <> str_lower (normalize_city city).

(** The error of [search_hotels] for a city without rows. *)
Definition unknown_city_error (hotels_df : list Planner.hotel)
    (city : string) : error_payload :=
  let available := Seq.sorted (Seq.unique (List.map Planner.h_city hotels_df)) in
  {| error := "No hotels found in " +:+ city;
     available_cities := Some available;
     available_categories := None;
     err_suggestion :=
       Some ("Try one of these cities: "
               +:+ Seq.join ", " (firstn 5 available)) |}.

(** The error of [search_hotels] when the filters leave no row. *)
Definition no_match_error (city : string) : error_payload :=
  {| error := "No hotels found matching your criteria in " +:+ city;
     available_cities := None;
     available_categories := None;
     err_suggestion :=
       Some "Try adjusting your budget or category preferences" |}.

(** The order of the entries of ["hotels"]. *)
Definition hotel_order (x y : Planner.hotel_entry) : Prop :=
  Planner.by_rating_then Planner.he_rating Planner.he_price_per_night x y
  = true.

(** The identifiers of the attractions of a day, and of all days. *)
Definition day_ids (d : Planner.day_plan) : list string :=
  List.map Planner.attraction_id (Planner.attraction_details d).

Definition all_ids (days : list Planner.day_plan) : list string :=
  List.concat (List.map day_ids days).

(** No identifier belongs to two days of different rank. *)
Definition no_repeat_across_days (days : list Planner.day_plan) : Prop :=
  forall i j d1 d2 id,
    i <> j ->
    nth_error days i = Some d1 ->
    nth_error days j = Some d2 ->
    In id (day_ids d1) -> ~ In id (day_ids d2).

(** What holds of the state of a day while it is filled, [used0] being
    the identifiers used before the day. *)
Definition day_inv (used0 : gset string) (st : Planner.day_state) : Prop :=
  let ids := List.map Planner.attraction_id (Planner.day_attractions st) in
  List.NoDup ids
  /\ (forall id, In id ids -> id ∉ used0)
  /\ (forall id, id ∈ Planner.used_attractions st
                 <-> id ∈ used0 \/ In id ids)
  /\ Planner.day_cost st
     = (50 + Num.sum_Z (List.map Planner.entry_fee
                          (Planner.day_attractions st)))%Z.

(** The error of [create_itinerary] when the attractions are too few. *)
Definition insufficient_error (duration_days : pyval) (city : string)
  : error_payload :=
  {| error := "Insufficient attraction data for "
                +:+ py_str duration_days +:+ " days in " +:+ city;
     available_cities := None;
     available_categories := None;
     err_suggestion :=
       Some "Try a shorter duration or a different destination" |}.

(** The message of a request as the chat endpoint reads it. *)
Definition clean (raw : string) : string :=
  PyStr.to_string (PyStr.strip (PyStr.of_string raw)).

(** A request that carries a message and a session key. *)
Definition request (raw session_id : string) : option Chat.body :=
  Some {| Chat.b_message := Some (PStr raw);
          Chat.b_session_id := Some session_id |}.

(** The session key of a request. *)
Definition key_of (req : option Chat.body) : option string :=
  option_map (fun data => default "default"%string (Chat.b_session_id data))
    req.


(** A message that reaches the validator and that it finds unsafe. *)
Definition unsafe_message (raw session_id : string) (e : Chat.env) : Prop :=
  clean raw <> ""%string
  /\ is_safe (validate_content (PStr (clean raw)) session_id (Chat.pick e))
     = false.

(** The session a turn works on: the stored one, or a new one. *)
Definition session_of (sessions : Chat.store) (session_id : string)
    (e : Chat.env) : Chat.session :=
  default (Chat.fresh (Chat.now e)) (sessions !! session_id).

(** [session['message_count'] += 1] *)
Definition counted (s : Chat.session) : Chat.session :=
  {| Chat.messages := Chat.messages s;
     Chat.created_at := Chat.created_at s;
     Chat.message_count := Chat.message_count s + 1;
     Chat.off_topic_warnings := Chat.off_topic_warnings s;
     Chat.security_violations := Chat.security_violations s |}.

(** [session['security_violations'] += 1] *)
Definition violated (s : Chat.session) : Chat.session :=
  {| Chat.messages := Chat.messages s;
     Chat.created_at := Chat.created_at s;
     Chat.message_count := Chat.message_count s;
     Chat.off_topic_warnings := Chat.off_topic_warnings s;
     Chat.security_violations := Chat.security_violations s + 1 |}.

(** No stored session has two security violations or more. *)
Definition violations_below_two (sessions : Chat.store) : Prop :=
  forall session_id s,
    sessions !! session_id = Some s -> (Chat.security_violations s < 2)%Z.

(** What a store goes through: turns of the chat endpoint and resets. *)
Inductive event : Type :=
| Turn (req : option Chat.body) (e : Chat.env)
| Reset (req : option Chat.body).

Definition apply_event (sessions : Chat.store) (ev : event) : Chat.store :=
  match ev with
  | Turn req e => (Chat.chat sessions req e).1
  | Reset req => (Chat.reset_chat sessions req).1
  end.

(** The store after a sequence of events, empty when the server starts. *)
Definition store_after (events : list event) : Chat.store :=
  fold_left apply_event events ∅.

(** The five shares of a budget, added. *)
Definition share_sum (bd : Planner.breakdown) : Q :=
  (Planner.sh_percentage (Planner.bb_accommodation bd)
   + Planner.sh_percentage (Planner.bb_attractions bd)
   + Planner.sh_percentage (Planner.bb_meals bd)
   + Planner.sh_percentage (Planner.bb_transportation bd)
   + Planner.sh_percentage (Planner.bb_miscellaneous bd))%Q.

(** The datasets hold no negative price and no negative entry fee. *)
Definition nonnegative_data (hotels_df : list Planner.hotel)
    (attractions_df : list Planner.attraction) : Prop :=
  (forall h, In h hotels_df -> (0 <= Planner.price_per_night h)%Z)
  /\ (forall a, In a attractions_df -> (0 <= Planner.entry_fee a)%Z).

(** The multipliers of [city_multipliers] as the floats of the source, in
    the order of the table, the default 1.0 last. *)
Definition float_multipliers : list float :=
  [1.3; 1.4; 1.2; 1.5; 1.1; 0.9; 1.0; 0.6; 1.1; 0.5; 1.0]%float.

Definition float_of_Z (z : Z) : float := PrimFloat.of_uint63 (Uint63.of_Z z).

(** [int(base * multiplier)] computed on floats is the integer [p]. *)
Definition float_product_truncates_to (base : Z) (multiplier : float) (p : Z)
  : bool :=
  let product := (float_of_Z base * multiplier)%float in
  PrimFloat.leb (float_of_Z p) product
  && PrimFloat.ltb product (float_of_Z (p + 1)).

(** *** Data for the examples *)

Definition sample_hotel (id name city category : string) (price : Z)
    (rating : Q) (available : bool) : Planner.hotel :=
  {| Planner.hotel_id := id; Planner.h_name := name; Planner.h_city := city;
     Planner.h_country := "France"; Planner.h_category := category;
     Planner.price_per_night := price; Planner.h_rating := rating;
     Planner.amenities := "WiFi,Pool"; Planner.address := "1 Rue de Rivoli";
     Planner.availability := available |}.

Definition sample_hotels : list Planner.hotel :=
  [ sample_hotel "H1" "Grand Palace" "Paris" "luxury" 450 (48 # 10) true;
    sample_hotel "H2" "Petit Lit" "Paris" "budget" 120 (40 # 10) true;
    sample_hotel "H3" "Rive Gauche" "Paris" "mid-range" 200 (48 # 10) true ].

Definition sample_attraction (id name category : string) (fee : Z)
    (rating : Q) : Planner.attraction :=
  {| Planner.attraction_id := id; Planner.a_name := name;
     Planner.a_city := "Paris"; Planner.a_country := "France";
     Planner.a_category := category; Planner.entry_fee := fee;
     Planner.duration_hours := 2; Planner.a_rating := rating;
     Planner.description := "A place to see";
     Planner.opening_hours := "09:00-18:00" |}.

Definition sample_attractions : list Planner.attraction :=
  [ sample_attraction "A1" "Louvre" "Museum" 17 (47 # 10);
    sample_attraction "A2" "Eiffel Tower" "Landmark" 26 (46 # 10);
    sample_attraction "A3" "Notre-Dame" "Religious" 0 (47 # 10);
    sample_attraction "A4" "Orsay" "Museum" 14 (46 # 10);
    sample_attraction "A5" "Montmartre" "Cultural" 0 (45 # 10) ].

Definition sample_day (d : Z) (a : Planner.attraction) : Planner.day_plan :=
  {| Planner.day := d; Planner.dp_title := "Highlights";
     Planner.activities := [Planner.a_name a];
     Planner.attraction_details := [a];
     Planner.meals := []; Planner.estimated_cost := 120;
     Planner.total_duration := 2;
     Planner.transportation := "Metro" |}.

(** A template that sends both of its days to the same attraction. *)
Definition sample_templates : Planner.template_store :=
  {[ "Paris"%string :=
       {[ "2_days"%string :=
            [ sample_day 1 (sample_attraction "A1" "Louvre" "Museum" 17
                              (47 # 10));
              sample_day 2 (sample_attraction "A1" "Louvre" "Museum" 17
                              (47 # 10)) ] ]} ]}.

(** Collaborators for the examples: the model gives [reply], the arguments
    of a call are JSON, and the call raises when [raises] is set. *)
Definition sample_env (reply : option Chat.model_reply) (raises : bool)
  : Chat.env :=
  {| Chat.now := 0; Chat.pick := 0;
     Chat.converse := fun _ => reply;
     Chat.json_args := fun arguments => Some arguments;
     Chat.invoke := fun _ _ => if raises then None else Some "{}"%string |}.

(** A session with fifty messages and one security violation. *)
Definition sample_session : Chat.session :=
  {| Chat.messages := [Chat.text_message "user" "Hotels in Paris?"];
     Chat.created_at := 0; Chat.message_count := 50;
     Chat.off_topic_warnings := 0; Chat.security_violations := 1 |}.


(** A hotels dataset whose one row has a negative price. *)
Definition refund_hotels : list Planner.hotel :=
  [ sample_hotel "H9" "Cashback Inn" "Paris" "mid-range" (-1000) (40 # 10)
      true ].

(** ** Characters *)

Lemma is_word_lower_char (c : ascii) : is_word (lower_char c) = is_word c.
Proof. destruct c as [[] [] [] [] [] [] [] []]; reflexivity. Qed.

Lemma space_not_word (c : ascii) : is_word c = true -> is_space c = false.
Proof. destruct c as [[] [] [] [] [] [] [] []]; simpl; intros H; try reflexivity; discriminate H. Qed.

Lemma lower_char_idem (c : ascii) : lower_char (lower_char c) = lower_char c.
Proof. destruct c as [[] [] [] [] [] [] [] []]; reflexivity. Qed.

Lemma lower_idem (s : chars) : lower (lower s) = lower s.
Proof.
  unfold lower. rewrite List.map_map. apply List.map_ext, lower_char_idem.
Qed.

Lemma lower_app (a b : chars) : lower (a ++ b) = lower a ++ lower b.
Proof. apply List.map_app. Qed.

Lemma opt_word_lower_hd (s : chars) :
  opt_word (hd_error (lower s)) = opt_word (hd_error s).
Proof. destruct s as [|c s]; simpl; [reflexivity | apply is_word_lower_char]. Qed.

Lemma prev_after_app (prev : option ascii) (a b : chars) :
  prev_after prev (a ++ b) = prev_after (prev_after prev a) b.
Proof. unfold prev_after. apply fold_left_app. Qed.

Lemma prev_after_last (prev : option ascii) (a : chars) (c : ascii) :
  prev_after prev (a ++ [c]) = Some c.
Proof. rewrite prev_after_app. reflexivity. Qed.

Lemma prev_after_lower (prev : option ascii) (s : chars) :
  opt_word (prev_after (option_map lower_char prev) (lower s))
  = opt_word (prev_after prev s).
Proof.
  revert prev. induction s as [|c s IH]; intros prev; simpl.
  - destruct prev; simpl; [apply is_word_lower_char | reflexivity].
  - apply (IH (Some c)).
Qed.

(** ** Stripping keeps an inner word and its edges *)

Lemma lstrip_app (pre x : chars) (c : ascii) :
  is_space c = false -> lstrip (pre ++ c :: x) = lstrip pre ++ c :: x.
Proof.
  intros Hc. induction pre as [|p pre IH]; simpl.
  - rewrite Hc. reflexivity.
  - destruct (is_space p); [exact IH | reflexivity].
Qed.

Lemma lstrip_prev (pre : chars) :
  opt_word (prev_after None pre) = false ->
  opt_word (prev_after None (lstrip pre)) = false.
Proof.
  induction pre as [|p pre IH]; simpl; intros H; [reflexivity|].
  destruct (is_space p) eqn:Hp; [|exact H].
  apply IH. destruct pre as [|q pre]; [reflexivity|]. exact H.
Qed.

Lemma lstrip_suffix (s : chars) : exists sp, s = sp ++ lstrip s.
Proof.
  induction s as [|c s [sp IH]]; [exists []; reflexivity|]. simpl.
  destruct (is_space c); [|exists []; reflexivity].
  exists (c :: sp). simpl. f_equal. exact IH.
Qed.

Lemma rstrip_head (post : chars) :
  opt_word (hd_error post) = false ->
  opt_word (hd_error (rstrip post)) = false.
Proof.
  intros H. unfold rstrip.
  destruct (lstrip_suffix (rev post)) as [sp Hsp].
  assert (E : post = rev (lstrip (rev post)) ++ rev sp).
  { rewrite <- rev_app_distr, <- Hsp, rev_involutive. reflexivity. }
  destruct (rev (lstrip (rev post))) as [|c r]; [reflexivity|].
  rewrite E in H. exact H.
Qed.

Lemma strip_inner (pre mid post : chars) :
  word_edged mid = true ->
  strip (pre ++ mid ++ post) = lstrip pre ++ mid ++ rstrip post.
Proof.
  unfold word_edged. intros H. apply andb_prop in H as [Hh Hl].
  destruct mid as [|m mid]; [discriminate Hh|]. simpl in Hh.
  unfold strip. simpl app.
  rewrite (lstrip_app pre (mid ++ post) m (space_not_word m Hh)).
  unfold rstrip at 1.
  destruct (rev (m :: mid)) as [|l rmid] eqn:Hrev.
  { apply (f_equal (@length _)) in Hrev. rewrite length_rev in Hrev. discriminate. }
  simpl in Hl.
  change (lstrip pre ++ m :: mid ++ post) with (lstrip pre ++ (m :: mid) ++ post).
  rewrite !rev_app_distr, Hrev. simpl app.
  rewrite <- app_assoc. simpl app.
  rewrite (lstrip_app (rev post) (rmid ++ rev (lstrip pre)) l (space_not_word l Hl)).
  rewrite rev_app_distr.
  change (l :: rmid ++ rev (lstrip pre)) with ((l :: rmid) ++ rev (lstrip pre)).
  rewrite rev_app_distr, rev_involutive, <- Hrev, rev_involutive.
  rewrite <- app_assoc. reflexivity.
Qed.

(** ** The matcher on a whole-word occurrence *)

Lemma lit_match_same (w x : chars) (prev : option ascii) (rest : chars) :
  lower w = lower x ->
  lit_match w prev (x ++ rest) = Some (prev_after prev x, rest).
Proof.
  revert x prev. induction w as [|p w IH]; intros [|c x] prev H;
    try discriminate H; [reflexivity|].
  simpl in H. injection H as Hc Hw. simpl.
  unfold char_eq_nocase. rewrite Hc, Ascii.eqb_refl. apply IH, Hw.
Qed.

Lemma alts_hit (ws : list string) (kw : string) (prev p : option ascii)
    (s s' : chars) (k : cont) :
  In kw ws ->
  lit_match (of_string kw) prev s = Some (p, s') ->
  k p s' <> None ->
  run (alts ws) prev s k <> None.
Proof.
  intros Hin Hlit Hk. induction ws as [|w ws IH]; [destruct Hin|].
  simpl. destruct Hin as [-> | Hin].
  - rewrite Hlit. destruct (k p s'); [discriminate | contradiction].
  - destruct (lit_match (of_string w) prev s) as [[q t]|];
      [destruct (k q t); [discriminate|] |]; apply IH, Hin.
Qed.

Lemma lower_rev (s : chars) : lower (rev s) = rev (lower s).
Proof. apply List.map_rev. Qed.

Lemma word_edged_lower (w x : chars) :
  lower w = lower x -> word_edged w = word_edged x.
Proof.
  intros H. unfold word_edged.
  rewrite <- (opt_word_lower_hd w), <- (opt_word_lower_hd x).
  rewrite <- (opt_word_lower_hd (rev w)), <- (opt_word_lower_hd (rev x)).
  rewrite !lower_rev, H. reflexivity.
Qed.

Lemma word_edged_prev (x : chars) (prev : option ascii) :
  word_edged x = true -> opt_word (prev_after prev x) = true.
Proof.
  unfold word_edged. intros H. apply andb_prop in H as [_ Hl].
  destruct (rev x) as [|l r] eqn:Hrev; [discriminate Hl|].
  assert (E : x = rev r ++ [l]).
  { rewrite <- (rev_involutive x), Hrev. reflexivity. }
  rewrite E, prev_after_last. exact Hl.
Qed.

Lemma word_pattern_hit (ws : list string) (kw : string) (x : chars)
    (prev : option ascii) (rest : chars) :
  In kw ws ->
  lower (of_string kw) = lower x ->
  word_edged x = true ->
  opt_word prev = false ->
  opt_word (hd_error rest) = false ->
  match_at (word_pattern ws) prev (x ++ rest) <> None.
Proof.
  intros Hin Hlow Hedge Hprev Hrest.
  unfold match_at, word_pattern. simpl.
  assert (Hb : boundary prev (hd_error (x ++ rest)) = true).
  { unfold boundary. rewrite Hprev.
    unfold word_edged in Hedge. apply andb_prop in Hedge as [Hh _].
    destruct x; [discriminate Hh|]. simpl in *. rewrite Hh. reflexivity. }
  rewrite Hb.
  eapply alts_hit; [exact Hin | apply lit_match_same, Hlow |].
  unfold boundary. rewrite (word_edged_prev x prev Hedge), Hrest. discriminate.
Qed.

Lemma scan_finds (r : regex) (pre rest : chars) (prev : option ascii) :
  match_at r (prev_after prev pre) rest <> None ->
  scan r O prev (pre ++ rest) <> [].
Proof.
  revert prev. induction pre as [|c pre IH]; intros prev H; simpl in *.
  - destruct rest as [|c rest]; simpl;
      destruct (match_at r prev _); try discriminate; contradiction.
  - destruct (match_at r prev (c :: pre ++ rest)); [discriminate|].
    apply IH, H.
Qed.

(** A whole-word occurrence of one of [ws] in [text] is found in the
    text as the validator cleans it. *)
Lemma findall_whole_word (ws : list string) (kw : string) (text : chars) :
  In kw ws ->
  word_edged (of_string kw) = true ->
  whole_word (of_string kw) text ->
  findall (word_pattern ws) (lower (strip text)) <> [].
Proof.
  intros Hin Hedge (pre & mid & post & -> & Hlow & Hpre & Hpost).
  assert (Hmid : word_edged mid = true).
  { rewrite (word_edged_lower mid (of_string kw) Hlow). exact Hedge. }
  rewrite (strip_inner pre mid post Hmid), !lower_app.
  apply scan_finds.
  apply (word_pattern_hit ws kw); try assumption.
  - rewrite lower_idem. symmetry. exact Hlow.
  - rewrite <- (word_edged_lower mid (lower mid)); [exact Hmid|].
    symmetry. apply lower_idem.
  - rewrite (prev_after_lower None). apply lstrip_prev, Hpre.
  - rewrite opt_word_lower_hd. apply rstrip_head, Hpost.
Qed.

Lemma high_threat_words_edged (kw : string) :
  In kw high_threat_words -> word_edged (of_string kw) = true.
Proof.
  intros H.
  assert (A : forallb (fun w => word_edged (of_string w)) high_threat_words
              = true) by reflexivity.
  rewrite forallb_forall in A. apply A, H.
Qed.

Lemma whole_word_nonempty (kw : string) (text : string) :
  word_edged (of_string kw) = true ->
  whole_word (of_string kw) (of_string text) -> String.eqb text "" = false.
Proof.
  intros Hedge (pre & mid & post & Ht & Hlow & _).
  destruct text; [|reflexivity]. exfalso.
  rewrite <- (word_edged_lower mid (of_string kw) Hlow) in Hedge.
  destruct pre, mid; try discriminate Ht. discriminate Hedge.
Qed.

(** ** The outcome of a validation *)

(** C1: whatever it is given, [validate_content] returns the action that
    goes with its two flags: [block] when the content is not safe,
    [redirect] when it is safe and not about travel, [allow] when it is
    safe and about travel; a result has one action. *)
Theorem validate_content_action (text : pyval) (user_id : string) (pick : nat) :
  v_action (validate_content text user_id pick)
  = expected_action (is_safe (validate_content text user_id pick))
                    (is_travel (validate_content text user_id pick)).
Proof.
  destruct text as [| b | z | s | t sh]; try reflexivity.
  unfold validate_content.
  destruct (String.eqb s ""); [reflexivity|].
  unfold validate_text.
  destruct (negb (sr_is_safe _)); [reflexivity|].
  destruct (PrimFloat.ltb _ _); reflexivity.
Qed.

Lemma plain_word_whole (kw text : chars) :
  plain_word kw text -> whole_word kw text.
Proof.
  intros (pre & mid & post & Ht & Hlow & Hpre & Hpost & _ & _).
  exists pre, mid, post. repeat split; assumption.
Qed.

(** C2: a text in which a high-threat keyword occurs as a whole word,
    in any case, is refused as unsafe with severity critical, whatever
    else it holds: the threat scan comes first and the travel score is
    not computed.  The occurrence is one between ASCII characters (or at
    an end of the text), where the word boundary of [re] is the one of
    the embedding; the rest of the text is free. *)
Theorem high_threat_is_critical (text kw user_id : string) (pick : nat) :
  In kw high_threat_words ->
  plain_word (of_string kw) (of_string text) ->
  let v := validate_content (PStr text) user_id pick in
  is_safe v = false
  /\ severity v = Some "critical"%string
  /\ category v = Some "high_threat"%string
  /\ v_action v = block
  /\ travel_score v = None.
Proof.
  intros Hin Hplain.
  pose proof (plain_word_whole _ _ Hplain) as Hocc.
  pose proof (high_threat_words_edged kw Hin) as Hedge.
  pose proof (findall_whole_word high_threat_words kw (of_string text)
                Hin Hedge Hocc) as Hfound.
  cbv zeta. unfold validate_content.
  rewrite (whole_word_nonempty kw text Hedge Hocc).
  unfold validate_text, _check_security_threats.
  change threat_patterns with
    (("high_threat"%string, word_pattern high_threat_words)
       :: compile (tl threat_words)).
  cbn [check_threats_in].
  destruct (findall (word_pattern high_threat_words)
              (lower (strip (of_string text)))) as [|m ms];
    [contradiction|].
  cbn. repeat split; reflexivity.
Qed.

Lemma high_threat_is_critical_witness :
  In "bomb"%string high_threat_words
  /\ plain_word (of_string "bomb")
       (of_string "Cheap hotel in Paris, BOMB the budget trip")
  /\ severity (validate_content
                 (PStr "Cheap hotel in Paris, BOMB the budget trip") "u" 0)
     = Some "critical"%string.
Proof.
  assert (Hin : In "bomb"%string high_threat_words) by (left; reflexivity).
  assert (Hocc : plain_word (of_string "bomb")
                   (of_string "Cheap hotel in Paris, BOMB the budget trip")).
  { exists (of_string "Cheap hotel in Paris, "), (of_string "BOMB"),
      (of_string " the budget trip").
    repeat split; reflexivity. }
  split; [exact Hin | split; [exact Hocc|]].
  exact (proj1 (proj2 (high_threat_is_critical
           "Cheap hotel in Paris, BOMB the budget trip" "bomb" "u" 0
           Hin Hocc))).
Defined.

(** ** Sorting and the sequences of the datasets *)

Section SortFacts.
Context {A : Type} (le : A -> A -> bool).
Hypothesis le_total : forall x y, le x y = false -> le y x = true.

Lemma In_insert (x y : A) (l : list A) :
  In y (Seq.insert le x l) <-> y = x \/ In y l.
Proof.
  induction l as [|z l IH]; simpl.
  - intuition.
  - destruct (le x z); simpl; [intuition | rewrite IH; intuition].
Qed.

Lemma In_sort (y : A) (l : list A) : In y (Seq.sort le l) <-> In y l.
Proof.
  induction l as [|x l IH]; simpl; [reflexivity|].
  change (Seq.sort le (x :: l)) with (Seq.insert le x (Seq.sort le l)).
  rewrite In_insert, IH. intuition.
Qed.

Lemma length_insert_sorted (x : A) (l : list A) :
  length (Seq.insert le x l) = S (length l).
Proof.
  induction l as [|z l IH]; simpl; [reflexivity|].
  destruct (le x z); simpl; [reflexivity | rewrite IH; reflexivity].
Qed.

Lemma length_sort (l : list A) : length (Seq.sort le l) = length l.
Proof.
  induction l as [|x l IH]; [reflexivity|].
  change (Seq.sort le (x :: l)) with (Seq.insert le x (Seq.sort le l)).
  rewrite length_insert_sorted, IH. reflexivity.
Qed.

Lemma insert_Sorted (x : A) (l : list A) :
  Sorted (fun a b => le a b = true) l ->
  Sorted (fun a b => le a b = true) (Seq.insert le x l).
Proof.
  induction 1 as [|z l Hs IH Hhd]; simpl.
  - repeat constructor.
  - destruct (le x z) eqn:E.
    + constructor; [constructor; assumption | constructor; exact E].
    + constructor; [exact IH|].
      destruct l as [|w l]; simpl.
      * constructor. apply le_total, E.
      * destruct (le x w); constructor;
          [apply le_total, E | inversion Hhd; assumption].
Qed.

Lemma sort_Sorted (l : list A) :
  Sorted (fun a b => le a b = true) (Seq.sort le l).
Proof.
  induction l as [|x l IH]; [constructor|].
  apply insert_Sorted, IH.
Qed.

End SortFacts.

Lemma Sorted_firstn {A} (R : A -> A -> Prop) (n : nat) (l : list A) :
  Sorted R l -> Sorted R (firstn n l).
Proof.
  revert l. induction n as [|n IH]; intros l H; [constructor|].
  destruct l as [|x l]; [constructor|]. simpl.
  inversion H as [|? ? Hs Hhd]; subst.
  constructor; [apply IH, Hs|].
  destruct l as [|y l], n as [|n]; simpl; try constructor.
  inversion Hhd; subst. assumption.
Qed.

Lemma In_firstn {A} (n : nat) (l : list A) (x : A) :
  In x (firstn n l) -> In x l.
Proof.
  revert l. induction n as [|n IH]; intros [|y l]; simpl; try tauto.
  intros [->|H]; [left; reflexivity | right; apply IH, H].
Qed.

Lemma Sorted_map {A B} (R : A -> A -> Prop) (S : B -> B -> Prop)
    (f : A -> B) (l : list A) :
  (forall x y, R x y -> S (f x) (f y)) ->
  Sorted R l -> Sorted S (List.map f l).
Proof.
  intros HRS. induction 1 as [|x l Hs IH Hhd]; simpl; [constructor|].
  constructor; [exact IH|].
  destruct Hhd; simpl; constructor. apply HRS. assumption.
Qed.

Lemma In_unique (x : string) (l : list string) :
  In x (Seq.unique l) <-> In x l.
Proof.
  induction l as [|y l IH]; simpl; [reflexivity|].
  rewrite filter_In, IH.
  destruct (String.eqb_spec y x) as [->|Hne]; simpl; intuition congruence.
Qed.

Lemma In_sorted_unique (x : string) (l : list string) :
  In x (Seq.sorted (Seq.unique l)) <-> In x l.
Proof. unfold Seq.sorted. rewrite In_sort. apply In_unique. Qed.

Lemma filter_nil_iff {A} (f : A -> bool) (l : list A) :
  List.filter f l = [] <-> (forall x, In x l -> f x = false).
Proof.
  induction l as [|y l IH]; simpl.
  - split; [intros _ x [] | reflexivity].
  - destruct (f y) eqn:E.
    + split; [discriminate|]. intros H.
      specialize (H y (or_introl eq_refl)). congruence.
    + rewrite IH. split.
      * intros H x [->|Hx]; [exact E | apply H, Hx].
      * intros H x Hx. apply H. right. exact Hx.
Qed.

Lemma by_rating_then_total {A} (rating : A -> Q) (key : A -> Z) (x y : A) :
  Planner.by_rating_then rating key x y = false ->
  Planner.by_rating_then rating key y x = true.
Proof.
  unfold Planner.by_rating_then, Num.Qltb. intros H.
  apply orb_false_elim in H as [H1 H2].
  apply negb_false_iff in H1. apply Qle_bool_iff in H1.
  destruct (Qle_bool (rating y) (rating x)) eqn:E; [|reflexivity].
  apply Qle_bool_iff in E.
  assert (Heq : (rating x == rating y)%Q) by (apply Qle_antisym; assumption).
  simpl.
  assert (Hb : Qeq_bool (rating x) (rating y) = true)
    by (apply Qeq_bool_iff, Heq).
  rewrite Hb in H2. simpl in H2.
  assert (Hb' : Qeq_bool (rating y) (rating x) = true)
    by (apply Qeq_bool_iff; symmetry; exact Heq).
  rewrite Hb'. simpl. apply Z.leb_le. apply Z.leb_gt in H2. lia.
Qed.

(** ** [search_hotels] *)

Section SearchHotels.
Import Planner.

Lemma search_hotels_success (hotels_df : list hotel)
    (city budget_max category check_availability : pyval)
    (p : hotels_payload) :
  search_hotels hotels_df city budget_max category check_availability
  = Success p ->
  exists c r1 r2,
    as_str city = Some c
    /\ filter_budget budget_max
         (List.filter (in_city h_city (normalize_city c)) hotels_df)
       = Success r1
    /\ filter_category category r1 = Success r2
    /\ filter_available check_availability r2 <> []
    /\ hotels p
       = List.map hotel_entry_of
           (firstn 8 (Seq.sort (by_rating_then h_rating price_per_night)
                        (filter_available check_availability r2))).
Proof.
  unfold search_hotels. intros H.
  destruct (as_str city) as [c|]; [|discriminate H].
  destruct (String.eqb c ""); [discriminate H|].
  destruct hotels_df as [|h0 df] eqn:Edf; [discriminate H|].
  rewrite <- Edf in *. clear Edf.
  destruct (List.filter _ hotels_df) as [|r rows] eqn:E0; [discriminate H|].
  destruct (filter_budget budget_max (r :: rows)) as [r1|e] eqn:E1;
    [|discriminate H].
  cbn [bind] in H.
  destruct (filter_category category r1) as [r2|e] eqn:E2; [|discriminate H].
  cbn [bind] in H.
  destruct (filter_available check_availability r2) as [|x xs] eqn:E3;
    [discriminate H|].
  injection H as <-. exists c, r1, r2. cbn [hotels].
  split; [reflexivity|]. split; [rewrite E0; exact E1|]. split; [exact E2|].
  split; [rewrite E3; discriminate | rewrite E3; reflexivity].
Qed.

Lemma filter_category_subset (category : pyval) (rows r : list hotel) :
  filter_category category rows = Success r ->
  forall h, In h r -> In h rows.
Proof.
  unfold filter_category.
  destruct (truthy category); [|intros H; injection H as <-; auto].
  destruct (as_str category) as [c|]; [|discriminate].
  destruct (Seq.mem _ _); [|discriminate].
  intros H; injection H as <-. intros h Hh. apply filter_In in Hh. tauto.
Qed.

Lemma filter_available_subset (check : pyval) (rows : list hotel) :
  forall h, In h (filter_available check rows) -> In h rows.
Proof.
  unfold filter_available. destruct (truthy check); [|auto].
  intros h Hh. apply filter_In in Hh. tauto.
Qed.

(** A budget that is a non-zero integer: the search succeeds only if the
    budget lies within 0 and 5000, and then no hotel of the answer costs
    more, the answer is ordered by rating and then by price, and it has
    eight entries at most. *)
Lemma search_hotels_budget_respected (hotels_df : list hotel)
    (city budget_max category check_availability : pyval) (b : Z)
    (p : hotels_payload) :
  as_int budget_max = Some b -> b <> 0%Z ->
  search_hotels hotels_df city budget_max category check_availability
  = Success p ->
  (0 <= b <= 5000)%Z
  /\ Forall (fun h => (he_price_per_night h <= b)%Z) (hotels p)
  /\ Sorted hotel_order (hotels p)
  /\ (length (hotels p) <= 8)%nat.
Proof.
  intros Hb Hnz H.
  apply search_hotels_success in H as (c & r1 & r2 & _ & H1 & H2 & _ & Hp).
  unfold filter_budget in H1.
  assert (Ht : truthy budget_max = true).
  { destruct budget_max as [| [] | z | |]; try discriminate Hb;
      injection Hb as <-; simpl; [reflexivity | contradiction |].
    apply negb_true_iff, Z.eqb_neq. exact Hnz. }
  rewrite Ht, Hb in H1.
  destruct ((b <? 0)%Z || (5000 <? b)%Z) eqn:Er; [discriminate H1|].
  injection H1 as <-.
  apply orb_false_elim in Er as [Er1 Er2].
  apply Z.ltb_ge in Er1, Er2.
  split; [lia|]. rewrite Hp. split; [|split].
  - apply List.Forall_forall. intros e He.
    apply in_map_iff in He as (h & <- & Hh). cbn [hotel_entry_of he_price_per_night].
    apply In_firstn in Hh. apply In_sort in Hh.
    apply filter_available_subset in Hh.
    apply (filter_category_subset _ _ _ H2) in Hh.
    apply filter_In in Hh as [_ Hh]. apply Z.leb_le. exact Hh.
  - apply (Sorted_map (fun x y => by_rating_then h_rating price_per_night x y
                                  = true)); [intros x y Hxy; exact Hxy|].
    apply Sorted_firstn, sort_Sorted. apply by_rating_then_total.
  - rewrite length_map, length_firstn. lia.
Qed.

(** A budget that counts as true and is no integer is refused. *)
Lemma search_hotels_budget_rejected (hotels_df : list hotel)
    (city budget_max category check_availability : pyval) :
  truthy budget_max = true -> as_int budget_max = None ->
  is_success
    (search_hotels hotels_df city budget_max category check_availability)
  = false.
Proof.
  intros Ht Hi.
  destruct (search_hotels _ _ _ _ _) as [p|e] eqn:H; [|reflexivity].
  apply search_hotels_success in H as (c & r1 & r2 & _ & H1 & _).
  unfold filter_budget in H1. rewrite Ht, Hi in H1. discriminate H1.
Qed.

(** C4, at a budget of zero: [if budget_max:] takes the zero for an absent
    budget, the price filter is not applied, and the answer holds hotels
    that cost more than the budget. *)
Theorem search_hotels_zero_budget_unfiltered :
  exists p,
    search_hotels sample_hotels (PStr "Paris") (PInt 0) PNone (PBool true)
    = Success p
    /\ List.map he_price_per_night (hotels p) = [200; 450; 120]%Z
    /\ ~ Forall (fun h => (he_price_per_night h <= 0)%Z) (hotels p).
Proof.
  eexists. split; [vm_compute; reflexivity|]. split; [reflexivity|].
  intros H. inversion H as [|? ? Hle _]. simpl in Hle. lia.
Qed.

(** C7, as stated, fails for the empty city name: it is the city of no
    row, and the error it gets names no city. *)
Lemma empty_city_name_gets_no_city_list :
  city_absent h_city sample_hotels ""
  /\ forall e,
       search_hotels sample_hotels (PStr "") PNone PNone (PBool true)
       = Error e ->
       available_cities e = None.
Proof.
  split.
  - intros row Hrow.
    repeat (destruct Hrow as [<- | Hrow]; [vm_compute; discriminate|]).
    destruct Hrow.
  - intros e [= <-]. reflexivity.
Qed.

(** C7, amended: on a dataset that is not empty, a city name that is not
    empty and is the city of no row gets the error that lists the cities
    of the dataset, each of them and no other name; no answer of
    [search_hotels] is a success without hotels; the error for a city
    whose hotels the filters remove all is another one, it names no city
    and suggests to adjust the filters. *)
Theorem search_hotels_unknown_city (hotels_df : list hotel) (city : string)
    (budget_max category check_availability : pyval) :
  hotels_df <> [] ->
  city <> ""%string ->
  city_absent h_city hotels_df city ->
  search_hotels hotels_df (PStr city) budget_max category check_availability
  = Error (unknown_city_error hotels_df (normalize_city city))
  /\ (forall x,
        In x (default [] (available_cities
                            (unknown_city_error hotels_df
                               (normalize_city city))))
        <-> exists h, In h hotels_df /\ h_city h = x)
  /\ (forall c b k a p,
        search_hotels hotels_df c b k a = Success p -> hotels p <> [])
  /\ (forall c b k a r1 r2,
        c <> ""%string ->
        List.filter (in_city h_city (normalize_city c)) hotels_df <> [] ->
        filter_budget b
          (List.filter (in_city h_city (normalize_city c)) hotels_df)
        = Success r1 ->
        filter_category k r1 = Success r2 ->
        filter_available a r2 = [] ->
        search_hotels hotels_df (PStr c) b k a
        = Error (no_match_error (normalize_city c)))
  /\ (forall c,
        unknown_city_error hotels_df (normalize_city city)
        <> no_match_error c).
Proof.
  intros Hdf Hcity Habs. repeat apply conj.
  - unfold search_hotels. cbn [as_str].
    destruct (String.eqb_spec city ""); [contradiction|].
    destruct hotels_df as [|h0 df] eqn:Edf; [contradiction|].
    rewrite <- Edf in *.
    assert (E : List.filter (in_city h_city (normalize_city city)) hotels_df
                = []).
    { apply filter_nil_iff. intros row Hrow. unfold in_city.
      apply String.eqb_neq.
      intros Heq. apply (Habs row Hrow).
      rewrite Heq. unfold str_lower, normalize_city.
      reflexivity. }
    rewrite E. reflexivity.
  - intros x. cbn. rewrite In_sorted_unique, in_map_iff.
    split; intros (h & H1 & H2); exists h; tauto.
  - intros c b k a p H.
    apply search_hotels_success in H as (_ & _ & r2 & _ & _ & _ & Hne & ->).
    destruct (filter_available a r2) as [|x xs] eqn:E; [contradiction|].
    intros Hnil. apply (f_equal (@length _)) in Hnil.
    rewrite length_map, length_firstn, length_sort in Hnil.
    simpl in Hnil. lia.
  - intros c b k a r1 r2 Hc Hrows H1 H2 H3.
    unfold search_hotels. cbn [as_str].
    destruct (String.eqb_spec c ""); [contradiction|].
    destruct hotels_df as [|h0 df] eqn:Edf; [contradiction|].
    rewrite <- Edf in *.
    destruct (List.filter (in_city h_city (normalize_city c)) hotels_df)
      as [|r rows] eqn:E0; [contradiction|].
    rewrite H1. cbn [bind]. rewrite H2. cbn [bind]. rewrite H3. reflexivity.
  - intros c H. apply (f_equal available_cities) in H. discriminate H.
Qed.

Lemma search_hotels_unknown_city_witness :
  search_hotels sample_hotels (PStr "rome") (PInt 300) PNone (PBool true)
  = Error (unknown_city_error sample_hotels "Rome")
  /\ available_cities (unknown_city_error sample_hotels "Rome")
     = Some ["Paris"%string].
Proof.
  assert (Hdf : sample_hotels <> []) by discriminate.
  assert (Hc : "rome"%string <> ""%string) by discriminate.
  assert (Ha : city_absent h_city sample_hotels "rome").
  { intros row Hrow.
    repeat (destruct Hrow as [<- | Hrow]; [vm_compute; discriminate|]).
    destruct Hrow. }
  split; [|reflexivity].
  exact (proj1 (search_hotels_unknown_city sample_hotels "rome" (PInt 300)
                  PNone (PBool true) Hdf Hc Ha)).
Defined.

End SearchHotels.

(** ** [create_itinerary] *)

Section Itinerary.
Import Planner.

Lemma sum_Z_app (l k : list Z) :
  Num.sum_Z (l ++ k) = (Num.sum_Z l + Num.sum_Z k)%Z.
Proof.
  induction l as [|x l IH]; simpl; [reflexivity|]. rewrite IH. lia.
Qed.

Lemma NoDup_app_disjoint {A} (l k : list A) :
  List.NoDup (l ++ k) -> forall x, In x l -> ~ In x k.
Proof.
  induction l as [|y l IH]; simpl; intros H x Hx; [destruct Hx|].
  apply List.NoDup_cons_iff in H as [Hy Hl].
  destruct Hx as [->|Hx]; [|apply IH; assumption].
  intros Hk. apply Hy, in_or_app. right. exact Hk.
Qed.

Lemma unused_head (used : gset string) (l rest : list attraction)
    (a : attraction) :
  unused used l = a :: rest -> attraction_id a ∉ used.
Proof.
  intros H.
  assert (Hin : In a (unused used l)) by (rewrite H; left; reflexivity).
  apply filter_In in Hin as [_ Hin].
  apply negb_true_iff, bool_decide_eq_false in Hin. exact Hin.
Qed.

Lemma day_inv_start (used0 : gset string) :
  day_inv used0 {| day_attractions := []; day_cost := 50;
                   used_attractions := used0 |}.
Proof.
  unfold day_inv. simpl. repeat apply conj.
  - constructor.
  - intros id [].
  - intros id. tauto.
  - reflexivity.
Qed.

Lemma select_inv (used0 : gset string) (st : day_state) (a : attraction) :
  day_inv used0 st ->
  attraction_id a ∉ used_attractions st ->
  day_inv used0 (select a st).
Proof.
  unfold day_inv. cbn zeta. intros (Hnd & Hnew & Hused & Hcost) Ha.
  unfold select. cbn [day_attractions day_cost used_attractions].
  rewrite !List.map_app. cbn [List.map].
  repeat apply conj.
  - apply List.NoDup_app; [exact Hnd | repeat constructor; intros [] |].
    intros id Hid [<-|[]]. apply Ha, Hused. right. exact Hid.
  - intros id Hid. apply in_app_or in Hid as [Hid | [<-|[]]].
    + apply Hnew, Hid.
    + intros H. apply Ha, Hused. left. exact H.
  - intros id. rewrite elem_of_union, elem_of_singleton, Hused, in_app_iff.
    simpl. intuition.
  - rewrite sum_Z_app, Hcost. simpl. lia.
Qed.

Lemma diverse_pass_inv (used0 : gset string) (per_day : nat)
    (groups : list (string * list attraction)) (st : day_state) :
  day_inv used0 st -> day_inv used0 (diverse_pass per_day groups st).
Proof.
  unfold diverse_pass. revert st.
  induction groups as [|g groups IH]; intros st Hst; [exact Hst|].
  simpl. apply IH.
  destruct (unused (used_attractions st) (snd g)) as [|a rest] eqn:E;
    [exact Hst|].
  destruct (_ <? _)%nat; [|exact Hst].
  apply select_inv; [exact Hst | apply (unused_head _ _ _ _ E)].
Qed.

Lemma fill_inv (used0 : gset string) (slots : nat) (all : list attraction)
    (st : day_state) :
  day_inv used0 st -> day_inv used0 (fill slots all st).
Proof.
  revert st. induction slots as [|slots IH]; intros st Hst; [exact Hst|].
  simpl.
  destruct (unused (used_attractions st) all) as [|a rest] eqn:E;
    [exact Hst|].
  apply IH, select_inv; [exact Hst | apply (unused_head _ _ _ _ E)].
Qed.

(** A day takes attractions that are new, each once, and costs 50 plus
    their fees. *)
Lemma plan_day_spec (city : string) (per_day : nat) (all : list attraction)
    (groups : list (string * list attraction)) (used : gset string)
    (d : nat) :
  let plan := fst (plan_day city per_day all groups used d) in
  let used' := snd (plan_day city per_day all groups used d) in
  List.NoDup (day_ids plan)
  /\ (forall id, In id (day_ids plan) -> id ∉ used)
  /\ (forall id, id ∈ used' <-> id ∈ used \/ In id (day_ids plan))
  /\ estimated_cost plan
     = (50 + Num.sum_Z (List.map entry_fee (attraction_details plan)))%Z.
Proof.
  cbv zeta. unfold plan_day. cbn [fst snd day_ids attraction_details estimated_cost].
  apply fill_inv, diverse_pass_inv, day_inv_start.
Qed.

Lemma all_ids_app (l k : list day_plan) : all_ids (l ++ k) = all_ids l ++ all_ids k.
Proof. unfold all_ids. rewrite List.map_app. apply List.concat_app. Qed.

Lemma plan_days_from (city : string) (per_day : nat) (all : list attraction)
    (groups : list (string * list attraction)) (ds : list nat)
    (acc : list day_plan * gset string) :
  List.NoDup (all_ids (fst acc)) ->
  (forall id, In id (all_ids (fst acc)) -> id ∈ snd acc) ->
  let res :=
    fold_left
      (fun acc d =>
         let '(plan, used) := plan_day city per_day all groups (snd acc) d in
         (fst acc ++ [plan], used))
      ds acc in
  List.NoDup (all_ids (fst res))
  /\ (forall id, In id (all_ids (fst res)) -> id ∈ snd res).
Proof.
  revert acc. induction ds as [|d ds IH]; intros acc Hnd Hsub; cbv zeta.
  - split; assumption.
  - cbn [fold_left].
    pose proof (plan_day_spec city per_day all groups (snd acc) d) as Hd.
    cbv zeta in Hd.
    destruct (plan_day city per_day all groups (snd acc) d) as [plan used'].
    cbn [fst snd] in Hd. destruct Hd as (Hp & Hnew & Hused & _).
    apply IH; cbn [fst snd]; rewrite all_ids_app.
    + apply List.NoDup_app; [exact Hnd | |].
      * unfold all_ids. simpl. rewrite app_nil_r. exact Hp.
      * intros id Hid Hid'. unfold all_ids in Hid'. simpl in Hid'.
        rewrite app_nil_r in Hid'. apply (Hnew id Hid'), Hsub, Hid.
    + intros id Hid. apply Hused. apply in_app_or in Hid as [Hid|Hid].
      * left. apply Hsub, Hid.
      * right. unfold all_ids in Hid. simpl in Hid.
        rewrite app_nil_r in Hid. exact Hid.
Qed.

Lemma plan_days_NoDup (city : string) (per_day : nat) (all : list attraction)
    (groups : list (string * list attraction)) (n : nat) :
  List.NoDup (all_ids (fst (plan_days city per_day all groups n))).
Proof.
  unfold plan_days.
  apply (plan_days_from city per_day all groups (seq 1 n) ([], ∅)).
  - constructor.
  - intros id [].
Qed.

Lemma NoDup_no_repeat (days : list day_plan) :
  List.NoDup (all_ids days) -> no_repeat_across_days days.
Proof.
  unfold no_repeat_across_days.
  induction days as [|d days IH]; intros Hnd i j d1 d2 id Hij H1 H2 Hin1 Hin2.
  - destruct i; discriminate H1.
  - unfold all_ids in Hnd. simpl in Hnd.
    pose proof (NoDup_app_disjoint _ _ Hnd) as Hdis.
    apply List.NoDup_app_remove_l in Hnd.
    assert (Hrest : forall k dk, nth_error days k = Some dk ->
                      In id (day_ids dk) ->
                      In id (List.concat (List.map day_ids days))).
    { intros k dk Hk Hdk. apply List.in_concat. exists (day_ids dk).
      split; [|exact Hdk]. apply in_map, (List.nth_error_In _ _ Hk). }
    destruct i as [|i], j as [|j]; simpl in H1, H2.
    + contradiction.
    + injection H1 as <-. apply (Hdis id Hin1), (Hrest j d2 H2 Hin2).
    + injection H2 as <-. apply (Hdis id Hin2), (Hrest i d1 H1 Hin1).
    + apply (IH Hnd i j d1 d2 id); [lia | assumption..].
Qed.

Lemma get_attractions_at_most_12 (attractions_df : list attraction)
    (city category max_entry_fee : pyval) (ap : attractions_payload) :
  get_attractions attractions_df city category max_entry_fee = Success ap ->
  (length (attractions ap) <= 12)%nat.
Proof.
  unfold get_attractions. intros H.
  destruct (as_str city) as [c|]; [|discriminate H].
  destruct (String.eqb c ""); [discriminate H|].
  destruct attractions_df as [|a0 df] eqn:Edf; [discriminate H|].
  rewrite <- Edf in *. clear Edf.
  destruct (List.filter _ attractions_df) as [|r rows]; [discriminate H|].
  destruct (filter_attraction_category _ _ _) as [r1|e]; [|discriminate H].
  cbn [bind] in H.
  destruct (filter_entry_fee _ _) as [r2|e]; [|discriminate H].
  cbn [bind] in H.
  destruct r2 as [|x xs]; [discriminate H|].
  injection H as <-. cbn [attractions]. rewrite length_firstn. lia.
Qed.

(** C5, as stated, fails for a curated itinerary: the template is returned
    as it is stored, and a template may send two days to one attraction. *)
Lemma curated_itinerary_may_repeat :
  exists p,
    create_itinerary sample_attractions sample_templates (PStr "Paris")
      (PInt 2) PNone = Success p
    /\ ~ no_repeat_across_days (itinerary p).
Proof.
  eexists. split; [vm_compute; reflexivity|].
  intros H.
  apply (H 0%nat 1%nat _ _ "A1"%string ltac:(discriminate) eq_refl eq_refl);
    left; reflexivity.
Qed.

(** C5, amended: the total cost of an itinerary, curated or generated, is
    the sum of the estimated costs of its days; in a generated itinerary
    no attraction identifier comes twice, neither in two days nor in one;
    a curated itinerary is the stored template, unchanged. *)
Theorem create_itinerary_cost_and_no_repeat (attractions_df : list attraction)
    (itinerary_templates : template_store)
    (city duration_days interests : pyval) (p : itinerary_payload) :
  create_itinerary attractions_df itinerary_templates city duration_days
    interests = Success p ->
  total_estimated_cost p = Num.sum_Z (List.map estimated_cost (itinerary p))
  /\ (itinerary_type p = "custom_generated"%string
      \/ itinerary_type p = "curated_template"%string)
  /\ (itinerary_type p = "custom_generated"%string ->
      List.NoDup (all_ids (itinerary p))
      /\ no_repeat_across_days (itinerary p))
  /\ (itinerary_type p = "curated_template"%string ->
      exists c t,
        as_str city = Some c
        /\ itinerary_templates !! normalize_city c = Some t
        /\ t !! (py_str duration_days +:+ "_days") = Some (itinerary p)).
Proof.
  unfold create_itinerary. intros H.
  destruct (as_str city) as [c|]; [|discriminate H].
  destruct (String.eqb c ""); [discriminate H|].
  destruct (as_int duration_days) as [n|]; [|discriminate H].
  destruct (_ || _); [discriminate H|].
  destruct (itinerary_templates !! normalize_city c) as [t|] eqn:Et;
    cbn [mbind option_bind] in H.
  - destruct (t !! (py_str duration_days +:+ "_days")) as [tpl|] eqn:Ek.
    + injection H as <-. cbn.
      split; [reflexivity|]. split; [right; reflexivity|].
      split; [discriminate|]. intros _. exists c, t. auto.
    + destruct (get_attractions _ _ _ _) as [ap|e]; [|discriminate H].
      cbn [bind] in H. destruct (_ <? _)%Z; [discriminate H|].
      destruct (plan_days _ _ _ _ _) as [plans used] eqn:Ep.
      injection H as <-. cbn.
      split; [reflexivity|]. split; [left; reflexivity|].
      split; [|discriminate]. intros _.
      assert (Hnd : List.NoDup (all_ids plans)).
      { change plans with (fst (plans, used)). rewrite <- Ep.
        apply plan_days_NoDup. }
      split; [exact Hnd | apply NoDup_no_repeat, Hnd].
  - destruct (get_attractions _ _ _ _) as [ap|e]; [|discriminate H].
    cbn [bind] in H. destruct (_ <? _)%Z; [discriminate H|].
    destruct (plan_days _ _ _ _ _) as [plans used] eqn:Ep.
    injection H as <-. cbn.
    split; [reflexivity|]. split; [left; reflexivity|].
    split; [|discriminate]. intros _.
    assert (Hnd : List.NoDup (all_ids plans)).
    { change plans with (fst (plans, used)). rewrite <- Ep.
      apply plan_days_NoDup. }
    split; [exact Hnd | apply NoDup_no_repeat, Hnd].
Qed.

Lemma create_itinerary_cost_and_no_repeat_witness :
  exists p,
    create_itinerary sample_attractions ∅ (PStr "paris") (PInt 2) PNone
    = Success p
    /\ List.map day_ids (itinerary p)
       = [["A3"; "A1"]; ["A4"; "A2"]]%string
    /\ total_estimated_cost p = 157%Z
    /\ total_estimated_cost p
       = Num.sum_Z (List.map estimated_cost (itinerary p)).
Proof.
  eexists. split; [vm_compute; reflexivity|].
  split; [reflexivity|]. split; [reflexivity|].
  refine (proj1 (create_itinerary_cost_and_no_repeat sample_attractions ∅
                   (PStr "paris") (PInt 2) PNone _ _)).
  vm_compute. reflexivity.
Defined.

(** C10, as stated, fails for a city without attraction data: the error
    is the one of [get_attractions], not the one about too few
    attractions. *)
Lemma week_without_data_is_not_insufficient :
  (sample_templates !! normalize_city "Atlantis"
     ≫= (fun t => t !! (py_str (PInt 7) +:+ "_days"))) = None
  /\ (7 <= 7)%Z
  /\ exists e,
       create_itinerary sample_attractions sample_templates (PStr "Atlantis")
         (PInt 7) PNone = Error e
       /\ error e = "No attractions found in Atlantis"%string
       /\ e <> insufficient_error (PInt 7) "Atlantis".
Proof.
  split; [vm_compute; reflexivity|]. split; [lia|].
  eexists. split; [vm_compute; reflexivity|].
  split; [reflexivity | discriminate].
Qed.

(** C10, amended: with no curated template for the duration, an itinerary
    of seven days or more is never produced, and the error is settled by
    the first guard that fails: the one about the city for an empty
    name, the one about the duration above fourteen days, then the error
    of [get_attractions] for the normalised city, passed on unchanged,
    and, when the city has attraction data, the error about too few
    attractions, since [get_attractions] returns twelve attractions at
    most. *)
Theorem create_itinerary_week_needs_template (attractions_df : list attraction)
    (itinerary_templates : template_store) (city : string) (n : Z)
    (interests : pyval) :
  (7 <= n)%Z ->
  (itinerary_templates !! normalize_city city
     ≫= (fun t => t !! (py_str (PInt n) +:+ "_days"))) = None ->
  is_success
    (create_itinerary attractions_df itinerary_templates (PStr city)
       (PInt n) interests) = false
  /\ (city = ""%string ->
      create_itinerary attractions_df itinerary_templates (PStr city)
        (PInt n) interests
      = Error (err "City parameter is required and must be a valid string"))
  /\ (city <> ""%string -> (14 < n)%Z ->
      create_itinerary attractions_df itinerary_templates (PStr city)
        (PInt n) interests
      = Error (err "Duration must be between 1 and 14 days"))
  /\ (forall e,
        city <> ""%string -> (n <= 14)%Z ->
        get_attractions attractions_df (PStr (normalize_city city)) PNone
          PNone = Error e ->
        create_itinerary attractions_df itinerary_templates (PStr city)
          (PInt n) interests
        = Error e)
  /\ forall ap,
       (n <= 14)%Z ->
       get_attractions attractions_df (PStr (normalize_city city)) PNone PNone
       = Success ap ->
       city <> ""%string
       /\ (length (attractions ap) <= 12)%nat
       /\ create_itinerary attractions_df itinerary_templates (PStr city)
            (PInt n) interests
          = Error (insufficient_error (PInt n) (normalize_city city)).
Proof.
  intros Hn Ht.
  assert (Hshort : forall ap,
            get_attractions attractions_df (PStr (normalize_city city))
              PNone PNone = Success ap ->
            (Z.of_nat (length (attractions ap)) <? n * 2)%Z = true).
  { intros ap Hap. apply get_attractions_at_most_12 in Hap.
    apply Z.ltb_lt. lia. }
  split; [|split; [|split; [|split]]].
  - unfold create_itinerary. cbn [as_str as_int].
    destruct (String.eqb city ""); [reflexivity|].
    destruct (_ || _); [reflexivity|].
    rewrite Ht.
    destruct (get_attractions _ _ _ _) as [ap|e] eqn:Hap; [|reflexivity].
    cbn [bind]. rewrite (Hshort ap eq_refl). reflexivity.
  - intros ->. reflexivity.
  - intros Hc Hbig. unfold create_itinerary. cbn [as_str as_int].
    apply String.eqb_neq in Hc. rewrite Hc.
    assert (Hr : ((n <? 1)%Z || (14 <? n)%Z) = true).
    { apply orb_true_iff. right. apply Z.ltb_lt. exact Hbig. }
    rewrite Hr. reflexivity.
  - intros e Hc Hle Hap. unfold create_itinerary. cbn [as_str as_int].
    apply String.eqb_neq in Hc. rewrite Hc.
    assert (Hr : ((n <? 1)%Z || (14 <? n)%Z) = false).
    { apply orb_false_intro; apply Z.ltb_ge; lia. }
    rewrite Hr, Ht, Hap. reflexivity.
  - intros ap Hle Hap.
    assert (Hc : city <> ""%string).
    { intros ->. vm_compute in Hap. destruct attractions_df; discriminate Hap. }
    split; [exact Hc|].
    split; [apply (get_attractions_at_most_12 _ _ _ _ _ Hap)|].
    unfold create_itinerary. cbn [as_str as_int].
    apply String.eqb_neq in Hc. rewrite Hc.
    assert (Hr : ((n <? 1)%Z || (14 <? n)%Z) = false).
    { apply orb_false_intro; apply Z.ltb_ge; lia. }
    rewrite Hr, Ht, Hap. cbn [bind]. rewrite (Hshort ap Hap). reflexivity.
Qed.

Lemma create_itinerary_week_needs_template_witness :
  create_itinerary sample_attractions sample_templates (PStr "paris")
    (PInt 7) PNone
  = Error (insufficient_error (PInt 7) "Paris").
Proof.
  assert (Hn : (7 <= 7)%Z) by lia.
  assert (Ht : (sample_templates !! normalize_city "paris"
                  ≫= (fun t => t !! (py_str (PInt 7) +:+ "_days"))) = None)
    by (vm_compute; reflexivity).
  destruct (create_itinerary_week_needs_template sample_attractions
              sample_templates "paris" 7 PNone Hn Ht) as (_ & _ & _ & _ & H).
  destruct (get_attractions sample_attractions (PStr (normalize_city "paris"))
              PNone PNone) as [ap|e] eqn:Hap.
  - assert (Hle : (7 <= 14)%Z) by lia.
    exact (proj2 (proj2 (H ap Hle eq_refl))).
  - vm_compute in Hap. discriminate Hap.
Defined.

End Itinerary.

(** ** Sessions *)

Section Sessions.
Import Chat.

Lemma below_two_insert (sessions : store) (session_id : string) (s : session) :
  violations_below_two sessions ->
  (security_violations s < 2)%Z ->
  violations_below_two (<[session_id := s]> sessions).
Proof.
  intros Hst Hs k s' Hk.
  destruct (decide (session_id = k)) as [->|Hne].
  - rewrite lookup_insert_eq in Hk. injection Hk as <-. exact Hs.
  - rewrite lookup_insert_ne in Hk by exact Hne. apply (Hst k s' Hk).
Qed.

Lemma below_two_session_of (sessions : store) (session_id : string) (e : env) :
  violations_below_two sessions ->
  (security_violations (session_of sessions session_id e) < 2)%Z.
Proof.
  intros Hst. unfold session_of.
  destruct (sessions !! session_id) as [s|] eqn:E; simpl.
  - apply (Hst session_id s E).
  - lia.
Qed.

Lemma converse_turn_below_two (sessions : store) (session_id : string)
    (s : session) (user_message : string) (e : env) :
  violations_below_two sessions ->
  (security_violations s < 2)%Z ->
  violations_below_two (converse_turn sessions session_id s user_message e).1.
Proof.
  intros Hst Hs. unfold converse_turn.
  destruct (converse e _) as [[|text [[name arguments]|]]|]; cbn [fst];
    try exact Hst.
  - destruct (json_args e arguments) as [shown|]; cbn [fst]; [|exact Hst].
    destruct (Seq.mem name function_names); cbn [fst]; [|exact Hst].
    destruct (invoke e name arguments) as [res|]; cbn [fst]; [|exact Hst].
    destruct (converse e _) as [[|final other]|]; cbn [fst];
      try exact Hst; apply below_two_insert; assumption.
  - apply below_two_insert; assumption.
Qed.

(** The store keeps every session below two violations through a turn. *)
Lemma chat_below_two (sessions : store) (req : option body) (e : env) :
  violations_below_two sessions ->
  violations_below_two (chat sessions req e).1.
Proof.
  intros Hst.
  assert (H : violations_below_two (chat_body sessions req e).1).
  { unfold chat_body.
    destruct req as [data|]; [|exact Hst].
    destruct (default (PStr "") (b_message data)) as [| | |raw|];
      try exact Hst.
    destruct (String.eqb _ ""); [exact Hst|].
    set (sid := default "default"%string (b_session_id data)).
    pose proof (below_two_session_of sessions sid e Hst) as Hs.
    fold (session_of sessions sid e).
    set (s := session_of sessions sid e) in *.
    cbn [message_count messages created_at off_topic_warnings
         security_violations].
    assert (H1 : violations_below_two (<[sid := counted s]> sessions))
      by (apply below_two_insert; assumption).
    fold (counted s).
    destruct (50 <? _)%Z; [exact H1|].
    destruct (negb (is_safe _)).
    - destruct (2 <=? _)%Z eqn:E; cbn [fst].
      + apply below_two_insert; [exact H1 | simpl; lia].
      + apply below_two_insert; [exact H1|].
        apply Z.leb_gt in E. exact E.
    - destruct (negb (is_travel _)).
      + apply below_two_insert; [exact H1 | exact Hs].
      + apply converse_turn_below_two; [exact H1 | exact Hs]. }
  unfold chat. destruct (chat_body sessions req e) as [st' [x|r]]; exact H.
Qed.

Lemma reset_chat_below_two (sessions : store) (req : option body) :
  violations_below_two sessions ->
  violations_below_two (reset_chat sessions req).1.
Proof.
  intros Hst. unfold reset_chat. destruct req as [data|]; [|exact Hst].
  intros k s Hk. cbn [fst] in Hk.
  apply lookup_delete_Some in Hk as [_ Hk]. apply (Hst k s Hk).
Qed.

Lemma store_after_below_two (events : list event) :
  violations_below_two (store_after events).
Proof.
  unfold store_after.
  assert (H : violations_below_two (∅ : store)).
  { intros k s Hk. rewrite lookup_empty in Hk. discriminate Hk. }
  revert H. generalize (∅ : store).
  induction events as [|ev events IH]; intros st Hst; [exact Hst|].
  simpl. apply IH. destruct ev as [req e | req]; simpl.
  - apply chat_below_two, Hst.
  - apply reset_chat_below_two, Hst.
Qed.

(** C3, as stated, fails for a session at its fifty messages: the turn is
    refused for the limit before the message is validated, and the
    session stays, with its history and its violation. *)
Lemma second_violation_at_limit_is_not_reset :
  unsafe_message "how to build a bomb" "s" (sample_env None false)
  /\ security_violations sample_session = 1%Z
  /\ (chat {[ "s"%string := sample_session ]}
        (request "how to build a bomb" "s") (sample_env None false)).2
     = rate_limited
  /\ (chat {[ "s"%string := sample_session ]}
        (request "how to build a bomb" "s") (sample_env None false)).1
       !! "s"%string
     = Some (counted sample_session).
Proof.
  split; [split; [discriminate | reflexivity]|].
  split; [reflexivity|]. split; vm_compute; reflexivity.
Qed.

(** C3, amended: in a turn that is not refused for the session limit, an
    unsafe message that is the second violation of the session (or a
    later one) resets the session, history empty and counters at zero,
    and is answered by the fresh start message with reason security; an
    unsafe message that is the first violation is answered by the block
    message and the session is kept, with its violation counted.  No
    turn and no reset leaves a session with two violations or more in a
    store that had none, so that no store reached from the empty one has
    such a session. *)
Theorem second_violation_resets (sessions : store) (raw session_id : string)
    (e : env) :
  unsafe_message raw session_id e ->
  (message_count (session_of sessions session_id e) < 50)%Z ->
  let s := session_of sessions session_id e in
  let turn := chat sessions (request raw session_id) e in
  ((1 <= security_violations s)%Z ->
     turn = (<[session_id := fresh (now e)]> sessions, fresh_start)
     /\ messages (fresh (now e)) = []
     /\ security_violations (fresh (now e)) = 0%Z
     /\ r_reason fresh_start = Some "security"%string)
  /\ ((security_violations s < 1)%Z ->
        turn = (<[session_id := violated (counted s)]> sessions,
                block_message (security_violations s + 1))
        /\ messages (violated (counted s)) = messages s)
  /\ (forall st req e',
        violations_below_two st ->
        violations_below_two (chat st req e').1
        /\ violations_below_two (reset_chat st req).1)
  /\ (forall events, violations_below_two (store_after events)).
Proof.
  intros [Hne Hunsafe] Hcount. cbv zeta.
  assert (Hturn :
    chat sessions (request raw session_id) e
    = if (2 <=? security_violations (session_of sessions session_id e) + 1)%Z
      then (<[session_id := fresh (now e)]> sessions, fresh_start)
      else (<[session_id := violated (counted (session_of sessions session_id e))]>
              sessions,
            block_message
              (security_violations (session_of sessions session_id e) + 1))).
  { unfold chat, chat_body, request.
    cbn [b_message b_session_id from_option id].
    fold (clean raw).
    change (default (fresh (now e)) (sessions !! session_id))
      with (session_of sessions session_id e).
    apply String.eqb_neq in Hne. rewrite Hne.
    cbn [message_count messages created_at off_topic_warnings
         security_violations].
    assert (Hlim : (50 <? message_count (session_of sessions session_id e) + 1)%Z
                   = false) by (apply Z.ltb_ge; lia).
    rewrite Hlim, Hunsafe. cbn [negb].
    destruct (2 <=? _)%Z; rewrite insert_insert_eq; reflexivity. }
  repeat apply conj.
  - intros Hv. rewrite Hturn.
    assert (E : (2 <=? security_violations (session_of sessions session_id e) + 1)%Z
                = true) by (apply Z.leb_le; lia).
    rewrite E. repeat split; reflexivity.
  - intros Hv. rewrite Hturn.
    assert (E : (2 <=? security_violations (session_of sessions session_id e) + 1)%Z
                = false) by (apply Z.leb_gt; lia).
    rewrite E. split; reflexivity.
  - intros st req e' Hst.
    split; [apply chat_below_two | apply reset_chat_below_two]; exact Hst.
  - apply store_after_below_two.
Qed.

Lemma second_violation_resets_witness :
  unsafe_message "how to build a bomb" "s" (sample_env None false)
  /\ chat {[ "s"%string := violated (counted (fresh 0)) ]}
       (request "how to build a bomb" "s") (sample_env None false)
     = (<["s"%string := fresh 0]>
          {[ "s"%string := violated (counted (fresh 0)) ]},
        fresh_start).
Proof.
  assert (Hu : unsafe_message "how to build a bomb" "s"
                 (sample_env None false))
    by (split; [discriminate | reflexivity]).
  split; [exact Hu|].
  assert (Hc : (message_count
                  (session_of {[ "s"%string := violated (counted (fresh 0)) ]}
                     "s" (sample_env None false)) < 50)%Z)
    by (vm_compute; reflexivity).
  assert (Hv : (1 <= security_violations
                  (session_of {[ "s"%string := violated (counted (fresh 0)) ]}
                     "s" (sample_env None false)))%Z)
    by (vm_compute; discriminate).
  exact (proj1 (proj1 (second_violation_resets
                         {[ "s"%string := violated (counted (fresh 0)) ]}
                         "how to build a bomb" "s" (sample_env None false)
                         Hu Hc) Hv)).
Defined.





(** C9, as stated, fails on the first point: after a reset the key has
    no record, neither a zeroed one nor any other, and the status of the
    session is inactive. *)
Lemma reset_chat_removes_the_key :
  (reset_chat {[ "s"%string := sample_session ]} (request "" "s")).1
    !! "s"%string = None
  /\ ~ (exists t,
          (reset_chat {[ "s"%string := sample_session ]} (request "" "s")).1
            !! "s"%string = Some (fresh t))
  /\ session_active
       (session_status
          (reset_chat {[ "s"%string := sample_session ]} (request "" "s")).1
          "s") = false.
Proof.
  split; [vm_compute; reflexivity|]. split; [|vm_compute; reflexivity].
  intros [t H]. vm_compute in H. discriminate H.
Qed.

(** C9, amended: [reset_chat] removes the record of the key from the
    store, so that the session is reported inactive (a zeroed record is
    made when the next message of the key arrives), leaves the other
    keys as they are, and acknowledges success; a second reset right
    after it changes nothing in the store and acknowledges success as
    well. *)
Theorem reset_chat_twice (sessions : store) (data : body) :
  let session_id := default "default"%string (b_session_id data) in
  let once := reset_chat sessions (Some data) in
  once.1 = delete session_id sessions
  /\ once.1 !! session_id = None
  /\ (forall k, k <> session_id -> once.1 !! k = sessions !! k)
  /\ session_active (session_status once.1 session_id) = false
  /\ once.2 = reset_done
  /\ r_success reset_done = true
  /\ reset_chat once.1 (Some data) = (once.1, reset_done)
  /\ (forall e, session_of once.1 session_id e = fresh (now e)).
Proof.
  cbv zeta. unfold reset_chat. cbn [fst snd].
  set (sid := default "default"%string (b_session_id data)).
  repeat apply conj; try reflexivity.
  - apply lookup_delete_eq.
  - intros k Hk. apply lookup_delete_ne. congruence.
  - unfold session_status. rewrite lookup_delete_eq. reflexivity.
  - f_equal. apply delete_id, lookup_delete_eq.
  - intros e. unfold session_of. rewrite lookup_delete_eq. reflexivity.
Qed.

End Sessions.

(** ** [get_travel_budget_estimate] *)

Section Budget.
Import Planner Num.
Local Open Scope Q_scope.

Lemma Qltb_true (x y : Q) : Qltb x y = true -> x < y.
Proof.
  unfold Qltb. intros H. apply negb_true_iff in H.
  apply Qnot_le_lt. intros Hle. apply Qle_bool_iff in Hle. congruence.
Qed.

Lemma Qltb_false (x y : Q) : Qltb x y = false -> y <= x.
Proof.
  unfold Qltb. intros H. apply negb_false_iff in H. apply Qle_bool_iff, H.
Qed.

(** Rounding to the nearest integer moves a number by a half at most. *)
Lemma round_half_even_error (x : Q) :
  - (1 # 2) <= inject_Z (round_half_even x) - x <= 1 # 2.
Proof.
  unfold round_half_even.
  pose proof (Qfloor_le x) as Hlo. pose proof (Qlt_floor x) as Hhi.
  rewrite inject_Z_plus in Hhi. change (inject_Z 1) with 1 in Hhi.
  destruct (Qltb (x - inject_Z (Qfloor x)) (1 # 2)) eqn:E1.
  - apply Qltb_true in E1. lra.
  - apply Qltb_false in E1.
    destruct (Qltb (1 # 2) (x - inject_Z (Qfloor x))) eqn:E2.
    + rewrite inject_Z_plus. change (inject_Z 1) with 1. lra.
    + apply Qltb_false in E2.
      destruct (Z.even (Qfloor x));
        [|rewrite inject_Z_plus; change (inject_Z 1) with 1]; lra.
Qed.

Lemma py_round_1_error (x : Q) : - (1 # 20) <= py_round x 1 - x <= 1 # 20.
Proof.
  unfold py_round. change (inject_Z (10 ^ Z.of_nat 1)) with 10.
  pose proof (round_half_even_error (x * 10)) as H.
  set (r := inject_Z (round_half_even (x * 10))) in *.
  unfold Qdiv. change (/ 10) with (1 # 10). lra.
Qed.

Lemma py_round_2_error (x : Q) : - (1 # 200) <= py_round x 2 - x <= 1 # 200.
Proof.
  unfold py_round. change (inject_Z (10 ^ Z.of_nat 2)) with 100.
  pose proof (round_half_even_error (x * 100)) as H.
  set (r := inject_Z (round_half_even (x * 100))) in *.
  unfold Qdiv. change (/ 100) with (1 # 100). lra.
Qed.

(** The exact shares of the five parts of a total add up to 100. *)
Lemma shares_sum (a t m r : Q) :
  let sub := a + t + m + r in
  let misc := sub * (15 # 100) in
  let total := sub + misc in
  ~ total == 0 ->
  a / total * 100 + t / total * 100 + m / total * 100 + r / total * 100
  + misc / total * 100 == 100.
Proof.
  cbv zeta. intros H. field. exact H.
Qed.

Lemma budget_arith (a t m r : Q) :
  0 <= a -> 0 <= t -> 20 <= m -> 20 <= r ->
  let total := a + t + m + r + (a + t + m + r) * (15 # 100) in
  Qabs (percent a total + percent t total + percent m total
        + percent r total + percent ((a + t + m + r) * (15 # 100)) total
        - 100) <= 1 # 4
  /\ py_round (total * (7 # 10)) 2 < py_round total 2
  /\ py_round total 2 < py_round (total * (15 # 10)) 2.
Proof.
  intros Ha Ht Hm Hr total.
  assert (Hpos : 46 <= total) by (unfold total; lra).
  assert (Hnz : ~ total == 0) by (intros E; rewrite E in Hpos; lra).
  split; [|split].
  - pose proof (shares_sum a t m r Hnz) as Hsum. cbv zeta in Hsum.
    fold total in Hsum. unfold percent.
    pose proof (py_round_1_error (a / total * 100)).
    pose proof (py_round_1_error (t / total * 100)).
    pose proof (py_round_1_error (m / total * 100)).
    pose proof (py_round_1_error (r / total * 100)).
    pose proof (py_round_1_error ((a + t + m + r) * (15 # 100) / total * 100)).
    apply Qabs_Qle_condition.
    set (p1 := a / total * 100) in *. set (p2 := t / total * 100) in *.
    set (p3 := m / total * 100) in *. set (p4 := r / total * 100) in *.
    set (p5 := (a + t + m + r) * (15 # 100) / total * 100) in *.
    split; lra.
  - pose proof (py_round_2_error (total * (7 # 10))).
    pose proof (py_round_2_error total). lra.
  - pose proof (py_round_2_error (total * (15 # 10))).
    pose proof (py_round_2_error total). lra.
Qed.

Lemma int_of_nonneg (x : Q) : 0 <= x -> (0 <= int_of x)%Z.
Proof.
  intros H. unfold int_of.
  assert (E : Qle_bool 0 x = true) by (apply Qle_bool_iff, H).
  rewrite E. change 0%Z with (Qfloor 0). apply Qfloor_resp_le, H.
Qed.

Lemma sum_Z_nonneg (l : list Z) :
  (forall z, In z l -> (0 <= z)%Z) -> (0 <= sum_Z l)%Z.
Proof.
  induction l as [|x l IH]; simpl; intros H; [lia|].
  pose proof (H x (or_introl eq_refl)).
  assert (0 <= sum_Z l)%Z by (apply IH; intros z Hz; apply H; right; exact Hz).
  lia.
Qed.

Lemma mean_Z_nonneg (l : list Z) :
  (forall z, In z l -> (0 <= z)%Z) -> 0 <= mean_Z l.
Proof.
  intros H. unfold mean_Z, len_Q, Qdiv.
  apply Qmult_le_0_compat.
  - rewrite <- (Zle_Qle 0). apply sum_Z_nonneg, H.
  - apply Qinv_le_0_compat. rewrite <- (Zle_Qle 0). lia.
Qed.

Lemma lookup_default_prop {A} (P : A -> Prop) (table : list (string * A))
    (key : string) (d : A) :
  (forall kv, In kv table -> P (snd kv)) -> P d ->
  P (lookup_default table key d).
Proof.
  intros Ht Hd. unfold lookup_default.
  destruct (List.find _ table) as [kv|] eqn:E; [|exact Hd].
  apply Ht. apply (List.find_some _ _ E).
Qed.

Lemma fallback_hotel_price_nonneg (city category : string) :
  (0 <= fallback_hotel_price city category)%Z.
Proof.
  unfold fallback_hotel_price. apply int_of_nonneg.
  apply Qmult_le_0_compat.
  - rewrite <- (Zle_Qle 0).
    apply (lookup_default_prop (fun z => (0 <= z)%Z)); [|lia].
    intros kv Hkv. simpl in Hkv.
    repeat (destruct Hkv as [<-|Hkv]; [simpl; lia|]). destruct Hkv.
  - apply (lookup_default_prop (fun q => 0 <= q)); [|lra].
    intros kv Hkv. simpl in Hkv.
    repeat (destruct Hkv as [<-|Hkv]; [simpl; lra|]). destruct Hkv.
Qed.

(** The fallback price of a hotel night is the same whether the product
    of the base price and the multiplier is taken on floats, as the source
    does, or exactly. *)
Lemma fallback_price_agrees_with_floats :
  forallb
    (fun base =>
       forallb
         (fun qf =>
            float_product_truncates_to base (snd qf)
              (int_of (inject_Z base * fst qf)))
         (combine (List.map snd city_multipliers ++ [1]) float_multipliers))
    (List.map snd base_prices)
  = true.
Proof. vm_compute. reflexivity. Qed.

Lemma Success_inj {A} (a b : A) : Success a = Success b -> a = b.
Proof. intros H. injection H as H. exact H. Qed.

Lemma filter_budget_subset (budget_max : pyval) (rows r : list hotel) :
  filter_budget budget_max rows = Success r ->
  forall h, In h r -> In h rows.
Proof.
  unfold filter_budget.
  destruct (truthy budget_max); [|intros H; injection H as <-; auto].
  destruct (as_int budget_max) as [b|]; [|discriminate].
  destruct (_ || _); [discriminate|].
  intros H; injection H as <-. intros h Hh. apply filter_In in Hh. tauto.
Qed.

Lemma search_hotels_average_price (hotels_df : list hotel)
    (city budget_max category check_availability : pyval)
    (p : hotels_payload) :
  search_hotels hotels_df city budget_max category check_availability
  = Success p ->
  exists results,
    (forall h, In h results -> In h hotels_df)
    /\ average_price (hp_statistics p)
       = int_of (mean_Z (List.map price_per_night results)).
Proof.
  unfold search_hotels. intros H.
  destruct (as_str city) as [c|]; [|discriminate H].
  destruct (String.eqb c ""); [discriminate H|].
  destruct hotels_df as [|h0 df] eqn:Edf; [discriminate H|].
  rewrite <- Edf in *. clear Edf.
  destruct (List.filter _ hotels_df) as [|r rows] eqn:E0; [discriminate H|].
  destruct (filter_budget budget_max (r :: rows)) as [r1|e] eqn:E1;
    [|discriminate H].
  cbn [bind] in H.
  destruct (filter_category category r1) as [r2|e] eqn:E2; [|discriminate H].
  cbn [bind] in H.
  destruct (filter_available check_availability r2) as [|x xs] eqn:E3;
    [discriminate H|].
  rewrite <- E3 in H. injection H as <-. cbn [hp_statistics average_price].
  eexists. split; [|reflexivity].
  intros h Hh. apply In_firstn, In_sort in Hh.
  apply filter_available_subset in Hh.
  apply (filter_category_subset _ _ _ E2) in Hh.
  apply (filter_budget_subset _ _ _ E1) in Hh.
  rewrite <- E0 in Hh. apply filter_In in Hh. tauto.
Qed.

Lemma get_attractions_subset (attractions_df : list attraction)
    (city category max_entry_fee : pyval) (ap : attractions_payload) :
  get_attractions attractions_df city category max_entry_fee = Success ap ->
  forall a, In a (attractions ap) -> In a attractions_df.
Proof.
  unfold get_attractions. intros H.
  destruct (as_str city) as [c|]; [|discriminate H].
  destruct (String.eqb c ""); [discriminate H|].
  destruct attractions_df as [|a0 df] eqn:Edf; [discriminate H|].
  rewrite <- Edf in *. clear Edf.
  destruct (List.filter _ attractions_df) as [|r rows] eqn:E0;
    [discriminate H|].
  destruct (filter_attraction_category _ _ _) as [r1|e] eqn:E1;
    [|discriminate H].
  cbn [bind] in H.
  destruct (filter_entry_fee _ _) as [r2|e] eqn:E2; [|discriminate H].
  cbn [bind] in H.
  destruct r2 as [|x xs] eqn:E3; [discriminate H|].
  rewrite <- E3 in H, E2. injection H as <-. cbn [attractions].
  intros a Ha. apply In_firstn, In_sort in Ha.
  assert (H1 : In a r1).
  { revert E2. unfold filter_entry_fee.
    destruct max_entry_fee as [| b | z | s | t sh]; cbn [as_int];
      try discriminate; try (intros E; injection E as <-; exact Ha).
    - destruct (_ <? 0)%Z; [discriminate|].
      intros E; injection E as <-. apply filter_In in Ha. tauto.
    - destruct (_ <? 0)%Z; [discriminate|].
      intros E; injection E as <-. apply filter_In in Ha. tauto. }
  assert (H0 : In a (r :: rows)).
  { revert E1. unfold filter_attraction_category.
    destruct (truthy category); [|intros E; injection E as <-; exact H1].
    destruct (as_str category) as [k|]; [|discriminate].
    destruct (Seq.mem _ _); [|discriminate].
    intros E; apply Success_inj in E; subst r1.
    apply filter_In in H1. tauto. }
  rewrite <- E0 in H0. apply filter_In in H0. tauto.
Qed.

Lemma average_hotel_price_nonneg (hotels_df : list hotel)
    (city category : string) :
  (forall h, In h hotels_df -> (0 <= price_per_night h)%Z) ->
  (0 <= average_hotel_price hotels_df city category)%Z.
Proof.
  intros Hdata. unfold average_hotel_price.
  destruct (search_hotels _ _ _ _ _) as [p|e] eqn:E;
    [|apply fallback_hotel_price_nonneg].
  destruct (hotels p); [apply fallback_hotel_price_nonneg|].
  apply search_hotels_average_price in E as (results & Hsub & ->).
  apply int_of_nonneg, mean_Z_nonneg.
  intros z Hz. apply in_map_iff in Hz as (h' & <- & Hh).
  apply Hdata, Hsub, Hh.
Qed.

Lemma average_attraction_cost_nonneg (attractions_df : list attraction)
    (city : string) (days : Z) :
  (forall a, In a attractions_df -> (0 <= entry_fee a)%Z) ->
  0 <= average_attraction_cost attractions_df city days.
Proof.
  intros Hdata. unfold average_attraction_cost.
  destruct (get_attractions _ _ _ _) as [ap|e] eqn:E; [|lra].
  destruct (attractions ap) as [|a l] eqn:El; [lra|].
  apply mean_Z_nonneg.
  intros z Hz. apply in_map_iff in Hz as (x & <- & Hx).
  apply In_firstn in Hx. rewrite <- El in Hx.
  apply Hdata, (get_attractions_subset _ _ _ _ _ E), Hx.
Qed.

(** C6, as stated, fails on a dataset with a negative price: the
    estimate succeeds with a negative total, and the comparison by
    category is in the reverse order, luxury below mid-range below
    budget. *)
Lemma negative_price_reverses_comparisons :
  ~ nonnegative_data refund_hotels sample_attractions
  /\ exists p,
       get_travel_budget_estimate refund_hotels sample_attractions
         (PStr "Paris") (PInt 3) (PStr "mid-range") = Success p
       /\ bb_total (budget_breakdown p) < 0
       /\ cc_luxury (category_comparisons p)
          < cc_mid_range (category_comparisons p)
       /\ cc_mid_range (category_comparisons p)
          < cc_budget (category_comparisons p).
Proof.
  split.
  - intros [Hh _].
    specialize (Hh (sample_hotel "H9" "Cashback Inn" "Paris" "mid-range"
                      (-1000) (40 # 10) true) (or_introl eq_refl)).
    simpl in Hh. lia.
  - eexists. split; [vm_compute; reflexivity|].
    repeat split; vm_compute; reflexivity.
Qed.

(** C6, amended: over datasets that hold no negative price and no
    negative entry fee, in every budget estimate the five shares add up
    to 100 to within the rounding of each share to one decimal, a
    quarter of a point in all, and the comparison by category is
    ordered, luxury above mid-range above budget: they are the total
    times 1.5, 1 and 0.7, the total being positive. *)
Theorem budget_shares_and_comparisons (hotels_df : list hotel)
    (attractions_df : list attraction)
    (city duration_days accommodation_category : pyval)
    (p : budget_payload) :
  nonnegative_data hotels_df attractions_df ->
  get_travel_budget_estimate hotels_df attractions_df city duration_days
    accommodation_category = Success p ->
  Qabs (share_sum (budget_breakdown p) - 100) <= 1 # 4
  /\ cc_budget (category_comparisons p) < cc_mid_range (category_comparisons p)
  /\ cc_mid_range (category_comparisons p) < cc_luxury (category_comparisons p).
Proof.
  intros [Hh Ha]. unfold get_travel_budget_estimate. intros H.
  destruct (as_str city) as [c|]; [|discriminate H].
  destruct (String.eqb c ""); [discriminate H|].
  destruct (as_int duration_days) as [n|]; [|discriminate H].
  destruct (_ || _) eqn:En; [discriminate H|].
  destruct (as_str accommodation_category) as [cat|]; [|discriminate H].
  destruct (negb _) eqn:Ecat; [discriminate H|].
  apply orb_false_elim in En as [En _]. apply Z.ltb_ge in En.
  pose proof (average_hotel_price_nonneg hotels_df (normalize_city c) cat Hh)
    as Hprice.
  pose proof (average_attraction_cost_nonneg attractions_df (normalize_city c)
                n Ha) as Hfee.
  assert (Hmeal : (20 <= lookup_default meal_costs (normalize_city c) 50)%Z).
  { apply (lookup_default_prop (fun z => (20 <= z)%Z)); [|lia].
    intros kv Hkv. simpl in Hkv.
    repeat (destruct Hkv as [<-|Hkv]; [simpl; lia|]). destruct Hkv. }
  set (hp := average_hotel_price hotels_df (normalize_city c) cat) in *.
  set (ac := average_attraction_cost attractions_df (normalize_city c) n) in *.
  set (md := lookup_default meal_costs (normalize_city c) 50%Z) in *.
  set (td := if Seq.mem (normalize_city c) ["New York"; "London"; "Paris"]%string
             then 30%Z else 20%Z) in *.
  assert (Htd : (20 <= td)%Z).
  { unfold td. destruct (Seq.mem (normalize_city c) _); lia. }
  assert (HA : 0 <= inject_Z (hp * n)) by (rewrite <- (Zle_Qle 0); nia).
  assert (HT : 0 <= ac * inject_Z n * (5 # 2)).
  { apply Qmult_le_0_compat; [|lra].
    apply Qmult_le_0_compat; [exact Hfee|]. rewrite <- (Zle_Qle 0). lia. }
  assert (HM : 20 <= inject_Z (md * n)) by (rewrite <- (Zle_Qle 20); nia).
  assert (HR : 20 <= inject_Z (td * n)) by (rewrite <- (Zle_Qle 20); nia).
  pose proof (budget_arith _ _ _ _ HA HT HM HR) as Harith.
  clearbody hp ac md td.
  cbv zeta in H, Harith.
  destruct (Qeq_bool _ 0); [discriminate H|].
  injection H as <-.
  exact Harith.
Qed.

Lemma budget_shares_and_comparisons_witness :
  nonnegative_data sample_hotels sample_attractions
  /\ exists p,
       get_travel_budget_estimate sample_hotels sample_attractions
         (PStr "paris") (PInt 3) (PStr "mid-range") = Success p
       /\ Qabs (share_sum (budget_breakdown p) - 100) <= 1 # 4
       /\ cc_budget (category_comparisons p)
          < cc_mid_range (category_comparisons p).
Proof.
  assert (Hdata : nonnegative_data sample_hotels sample_attractions).
  { split; intros x Hx; simpl in Hx;
      repeat (destruct Hx as [<-|Hx]; [simpl; lia|]); destruct Hx. }
  split; [exact Hdata|].
  destruct (get_travel_budget_estimate sample_hotels sample_attractions
              (PStr "paris") (PInt 3) (PStr "mid-range")) as [p|e] eqn:E.
  - exists p. split; [reflexivity|].
    pose proof (budget_shares_and_comparisons sample_hotels sample_attractions
                  (PStr "paris") (PInt 3) (PStr "mid-range") p Hdata E)
      as (H1 & H2 & _).
    split; assumption.
  - vm_compute in E. discriminate E.
Defined.

End Budget.

(** * Further properties *)

(** ** The validator: what is blocked and what is not *)

(** The keywords of all threat categories. *)
Definition threat_keywords : list string :=
  List.concat (List.map snd threat_words).

(** The text holds a keyword of [ws] as a whole word. *)
Definition holds_word_of (ws : list string) (text : chars) : Prop :=
  exists kw, In kw ws /\ whole_word (of_string kw) text.

Section Blocking.

Lemma prev_after_cons (prev : option ascii) (c : ascii) (s : chars) :
  prev_after prev (c :: s) = prev_after (Some c) s.
Proof. reflexivity. Qed.

Lemma prev_after_nonempty (p q : option ascii) (c : ascii) (s : chars) :
  prev_after p (c :: s) = prev_after q (c :: s).
Proof. reflexivity. Qed.

Lemma scan_found (r : regex) (s : chars) (skip : nat) (prev : option ascii) :
  scan r skip prev s <> [] ->
  exists pre rest,
    s = pre ++ rest /\ match_at r (prev_after prev pre) rest <> None.
Proof.
  revert skip prev. induction s as [|c s IH]; intros skip prev H.
  - destruct skip; simpl in H; [|contradiction].
    exists [], []. split; [reflexivity|]. simpl.
    destruct (match_at r prev []); [discriminate | contradiction].
  - destruct skip as [|n]; simpl in H.
    + destruct (match_at r prev (c :: s)) eqn:E.
      * exists [], (c :: s). split; [reflexivity|]. simpl. rewrite E.
        discriminate.
      * apply IH in H as (pre & rest & -> & Hm).
        exists (c :: pre), rest. split; [reflexivity | exact Hm].
    + apply IH in H as (pre & rest & -> & Hm).
      exists (c :: pre), rest. split; [reflexivity | exact Hm].
Qed.

Lemma lit_match_read (w : chars) (prev p : option ascii) (s s' : chars) :
  lit_match w prev s = Some (p, s') ->
  exists mid,
    s = mid ++ s' /\ lower mid = lower w /\ p = prev_after prev mid.
Proof.
  revert prev s. induction w as [|a w IH]; intros prev s H; simpl in H.
  - injection H as <- <-. exists []. repeat split.
  - destruct s as [|c s]; [discriminate H|].
    destruct (char_eq_nocase a c) eqn:E; [|discriminate H].
    apply IH in H as (mid & -> & Hl & ->).
    exists (c :: mid). split; [reflexivity|]. split; [|reflexivity].
    simpl. rewrite Hl. f_equal.
    unfold char_eq_nocase in E. apply Ascii.eqb_eq in E. symmetry. exact E.
Qed.

Lemma alts_read (ws : list string) (prev : option ascii) (s : chars)
    (k : cont) (rest : chars) :
  run (alts ws) prev s k = Some rest ->
  exists kw p s',
    In kw ws /\ lit_match (of_string kw) prev s = Some (p, s')
    /\ k p s' = Some rest.
Proof.
  induction ws as [|w ws IH]; simpl; [discriminate|].
  destruct (lit_match (of_string w) prev s) as [[p s']|] eqn:E.
  - destruct (k p s') as [r|] eqn:Ek.
    + intros [= <-]. exists w, p, s'. auto.
    + intros H. apply IH in H as (kw & q & t & Hin & Hl & Hk).
      exists kw, q, t. auto.
  - intros H. apply IH in H as (kw & q & t & Hin & Hl & Hk).
    exists kw, q, t. auto.
Qed.

(** A match of a word pattern is a keyword between two boundaries. *)
Lemma word_pattern_read (ws : list string) (prev : option ascii)
    (s rest : chars) :
  match_at (word_pattern ws) prev s = Some rest ->
  exists kw mid,
    In kw ws /\ s = mid ++ rest /\ lower mid = lower (of_string kw)
    /\ boundary prev (hd_error s) = true
    /\ boundary (prev_after prev mid) (hd_error rest) = true.
Proof.
  unfold match_at, word_pattern. simpl.
  destruct (boundary prev (hd_error s)) eqn:Hb; [|discriminate].
  intros H. apply alts_read in H as (kw & p & s' & Hin & Hl & Hk).
  apply lit_match_read in Hl as (mid & -> & Hlow & ->).
  destruct (boundary (prev_after prev mid) (hd_error s')) eqn:Hb';
    [|discriminate Hk].
  injection Hk as <-. exists kw, mid. auto.
Qed.

Lemma findall_word (ws : list string) (text : chars) :
  (forall kw, In kw ws -> word_edged (of_string kw) = true) ->
  findall (word_pattern ws) text <> [] ->
  holds_word_of ws text.
Proof.
  intros Hedge H. apply scan_found in H as (pre & s & -> & Hm).
  destruct (match_at (word_pattern ws) (prev_after None pre) s)
    as [rest|] eqn:E; [clear Hm | contradiction].
  apply word_pattern_read in E as (kw & mid & Hin & -> & Hlow & Hb1 & Hb2).
  exists kw. split; [exact Hin|]. exists pre, mid, rest.
  split; [reflexivity|]. split; [exact Hlow|].
  assert (Hmid : word_edged mid = true).
  { rewrite (word_edged_lower mid (of_string kw) (eq_sym (eq_sym Hlow))).
    apply Hedge, Hin. }
  pose proof (word_edged_prev mid (prev_after None pre) Hmid) as Hlast.
  unfold word_edged in Hmid. apply andb_prop in Hmid as [Hh _].
  destruct mid as [|m mid]; [discriminate Hh|]. simpl in Hh, Hb1.
  unfold boundary in Hb1, Hb2. simpl in Hb1. rewrite Hh in Hb1.
  rewrite Hlast in Hb2.
  split.
  - destruct (opt_word (prev_after None pre)); [discriminate Hb1 | reflexivity].
  - destruct (opt_word (hd_error rest)); [discriminate Hb2 | reflexivity].
Qed.

(** An occurrence in the lowered text is one in the text. *)
Lemma whole_word_of_lower (kw text : chars) :
  whole_word kw (lower text) -> whole_word kw text.
Proof.
  intros (pre & mid & post & Ht & Hlow & Hpre & Hpost).
  unfold lower in Ht.
  apply List.map_eq_app in Ht as (pre0 & rest0 & -> & Hp0 & Hr0).
  apply List.map_eq_app in Hr0 as (mid0 & post0 & -> & Hm0 & Hq0).
  exists pre0, mid0, post0. split; [reflexivity|].
  fold (lower pre0) in Hp0. fold (lower mid0) in Hm0. fold (lower post0) in Hq0.
  split; [|split].
  - rewrite <- Hlow, <- Hm0. symmetry. apply lower_idem.
  - rewrite <- (prev_after_lower None pre0). simpl. rewrite Hp0. exact Hpre.
  - rewrite <- opt_word_lower_hd, Hq0. exact Hpost.
Qed.

Lemma lstrip_split (s : chars) :
  exists sp, s = sp ++ lstrip s /\ forallb is_space sp = true.
Proof.
  induction s as [|c s (sp & IH & Hsp)]; [exists []; split; reflexivity|].
  simpl. destruct (is_space c) eqn:E; [|exists []; split; reflexivity].
  exists (c :: sp). simpl. rewrite E, Hsp. split; [f_equal; exact IH | reflexivity].
Qed.

Lemma strip_split (s : chars) :
  exists sp1 sp2,
    s = sp1 ++ strip s ++ sp2
    /\ forallb is_space sp1 = true /\ forallb is_space sp2 = true.
Proof.
  destruct (lstrip_split s) as (sp1 & H1 & Hs1).
  destruct (lstrip_split (rev (lstrip s))) as (sp2 & H2 & Hs2).
  exists sp1, (rev sp2). unfold strip, rstrip.
  split; [|split; [exact Hs1|]].
  - rewrite <- rev_app_distr, <- H2, rev_involutive. exact H1.
  - rewrite forallb_forall in *. intros c Hc. apply Hs2.
    apply in_rev. exact Hc.
Qed.

Lemma spaces_prev (sp : chars) :
  forallb is_space sp = true -> opt_word (prev_after None sp) = false.
Proof.
  intros H. destruct (rev sp) as [|l r] eqn:E.
  - assert (sp = []) by (rewrite <- (rev_involutive sp), E; reflexivity).
    subst sp. reflexivity.
  - assert (Hsp : sp = rev r ++ [l])
      by (rewrite <- (rev_involutive sp), E; reflexivity).
    rewrite Hsp, prev_after_last. simpl.
    rewrite forallb_forall in H.
    assert (Hl : is_space l = true).
    { apply H. rewrite Hsp. apply in_or_app. right. left. reflexivity. }
    destruct (is_word l) eqn:Hw; [|reflexivity].
    apply space_not_word in Hw. congruence.
Qed.

Lemma spaces_head (sp : chars) :
  forallb is_space sp = true -> opt_word (hd_error sp) = false.
Proof.
  destruct sp as [|c sp]; [reflexivity|]. simpl. intros H.
  apply andb_prop in H as [Hc _].
  destruct (is_word c) eqn:Hw; [|reflexivity].
  apply space_not_word in Hw. congruence.
Qed.

(** An occurrence in the stripped text is one in the text. *)
Lemma whole_word_of_strip (kw text : chars) :
  whole_word kw (strip text) -> whole_word kw text.
Proof.
  intros (pre & mid & post & Ht & Hlow & Hpre & Hpost).
  destruct (strip_split text) as (sp1 & sp2 & Hs & H1 & H2).
  exists (sp1 ++ pre), mid, (post ++ sp2).
  split; [|split; [exact Hlow | split]].
  - rewrite Hs at 1. rewrite Ht. rewrite <- !app_assoc. reflexivity.
  - rewrite prev_after_app. destruct pre as [|c pre].
    + apply spaces_prev, H1.
    + rewrite (prev_after_nonempty _ None). exact Hpre.
  - destruct post as [|c post]; [apply spaces_head, H2 | exact Hpost].
Qed.

Lemma threat_keywords_edged (kw : string) :
  In kw threat_keywords -> word_edged (of_string kw) = true.
Proof.
  intros H.
  assert (A : forallb (fun w => word_edged (of_string w)) threat_keywords
              = true) by reflexivity.
  rewrite forallb_forall in A. apply A, H.
Qed.

(** The scan of the categories stops at the first one of which the
    cleaned text holds a keyword. *)
Lemma check_threats_first (lx : lexicon) (text : chars) :
  (forall c ws kw, In (c, ws) lx -> In kw ws ->
     word_edged (of_string kw) = true) ->
  let r := check_threats_in (compile lx) (lower (strip text)) in
  (sr_is_safe r = true
   /\ forall c ws, In (c, ws) lx -> ~ holds_word_of ws text)
  \/ (exists before c ws after,
        lx = before ++ (c, ws) :: after
        /\ (forall c' ws', In (c', ws') before -> ~ holds_word_of ws' text)
        /\ holds_word_of ws text
        /\ sr_is_safe r = false
        /\ sr_category r = Some c
        /\ sr_severity r
           = Some (if String.eqb c "high_threat"
                   then "critical" else "moderate")%string).
Proof.
  induction lx as [|[c ws] lx IH]; intros Hedge; cbv zeta.
  - left. split; [reflexivity|]. intros c ws [].
  - simpl.
    destruct (findall (word_pattern ws) (lower (strip text)))
      as [|m ms] eqn:E.
    + assert (Hno : ~ holds_word_of ws text).
      { intros (kw & Hin & Hocc).
        apply (findall_whole_word ws kw text Hin) in Hocc;
          [contradiction|].
        apply (Hedge c ws kw); [left; reflexivity | exact Hin]. }
      destruct IH as [[Hs Hall] | (before & c' & ws' & after & -> & Hb & Hh & Hr)].
      * intros c0 ws0 kw H0 Hk. apply (Hedge c0 ws0 kw); [right|]; assumption.
      * left. split; [exact Hs|].
        intros c0 ws0 [[= <- <-] | H0]; [exact Hno | apply (Hall c0 ws0 H0)].
      * right. exists ((c, ws) :: before), c', ws', after.
        split; [reflexivity|]. split; [|exact (conj Hh Hr)].
        intros c0 ws0 [[= <- <-] | H0]; [exact Hno | apply (Hb c0 ws0 H0)].
    + right. exists [], c, ws, lx.
      split; [reflexivity|]. split; [intros ? ? []|].
      split; [|repeat split].
      assert (Hf : findall (word_pattern ws) (lower (strip text)) <> [])
        by (rewrite E; discriminate).
      apply findall_word in Hf;
        [|intros kw Hk; apply (Hedge c ws kw); [left; reflexivity | exact Hk]].
      destruct Hf as (kw & Hin & Hocc). exists kw. split; [exact Hin|].
      apply whole_word_of_strip, whole_word_of_lower, Hocc.
Qed.

End Blocking.

Section Verdicts.

Lemma threat_words_edged (c : string) (ws : list string) (kw : string) :
  In (c, ws) threat_words -> In kw ws -> word_edged (of_string kw) = true.
Proof.
  intros Hc Hk. apply threat_keywords_edged. unfold threat_keywords.
  apply List.in_concat. exists ws. split; [|exact Hk].
  apply (in_map snd _ _ Hc).
Qed.

Lemma validate_text_is_safe (text user_id : string) (pick : nat) :
  is_safe (validate_text text user_id pick)
  = sr_is_safe (check_threats_in threat_patterns
                  (lower (strip (of_string text)))).
Proof.
  unfold validate_text, _check_security_threats.
  destruct (sr_is_safe _); simpl; [|reflexivity].
  destruct (PrimFloat.ltb _ _); reflexivity.
Qed.

Lemma string_nonempty (text : string) :
  text <> ""%string -> String.eqb text "" = false.
Proof. intros H. apply String.eqb_neq. exact H. Qed.

(** X1: a message of ASCII characters that is not empty is refused as
    unsafe exactly when it holds a threat keyword as a whole word, in any
    case: a keyword inside a longer word does not block, and a keyword
    between two non-word characters always does. *)
Theorem blocked_iff_threat_word (text user_id : string) (pick : nat) :
  text <> ""%string ->
  ascii_text (of_string text) = true ->
  is_safe (validate_content (PStr text) user_id pick) = false
  <-> holds_word_of threat_keywords (of_string text).
Proof.
  intros Hne _. unfold validate_content.
  rewrite (string_nonempty text Hne), validate_text_is_safe.
  pose proof (check_threats_first threat_words (of_string text)
                threat_words_edged) as H.
  cbv zeta in H. fold threat_patterns in H.
  split.
  - intros Hunsafe.
    destruct H as [[Hs _] | (before & c & ws & after & E & _ & Hh & _)];
      [congruence|].
    destruct Hh as (kw & Hin & Hocc). exists kw. split; [|exact Hocc].
    unfold threat_keywords. apply List.in_concat. exists ws.
    split; [|exact Hin].
    apply (in_map snd threat_words (c, ws)). rewrite E.
    apply in_or_app. right. left. reflexivity.
  - intros (kw & Hin & Hocc).
    destruct H as [[_ Hall] | (_ & _ & _ & _ & _ & _ & _ & Hu & _)];
      [|exact Hu].
    exfalso. unfold threat_keywords in Hin.
    apply List.in_concat in Hin as (ws & Hws & Hk).
    apply in_map_iff in Hws as ([c ws'] & <- & Hc).
    apply (Hall c ws' Hc). exists kw. split; assumption.
Qed.

Lemma blocked_iff_threat_word_witness :
  "a skillful guide to the gunpowder museum"%string <> ""%string
  /\ ascii_text (of_string "a skillful guide to the gunpowder museum") = true
  /\ is_safe (validate_content
                (PStr "a skillful guide to the gunpowder museum") "u" 0)
     = true
  /\ ~ holds_word_of threat_keywords
         (of_string "a skillful guide to the gunpowder museum").
Proof.
  assert (Hne : "a skillful guide to the gunpowder museum"%string
                <> ""%string) by discriminate.
  split; [exact Hne|].
  assert (Ha : ascii_text
                 (of_string "a skillful guide to the gunpowder museum")
               = true) by reflexivity.
  split; [exact Ha|].
  assert (Hs : is_safe (validate_content
                          (PStr "a skillful guide to the gunpowder museum")
                          "u" 0) = true) by (vm_compute; reflexivity).
  split; [exact Hs|].
  intros Hh.
  apply (proj2 (blocked_iff_threat_word
                  "a skillful guide to the gunpowder museum" "u" 0 Hne Ha))
    in Hh.
  rewrite Hs in Hh. discriminate Hh.
Defined.

(** X2: the category of a refused message of ASCII characters is the
    first threat category, in the order high_threat, inappropriate,
    travel_illegal, of which the message holds a keyword as a whole word;
    the severity is critical for high_threat and moderate for the two
    others. *)
Theorem threat_category_is_first (text user_id : string) (pick : nat) :
  text <> ""%string ->
  ascii_text (of_string text) = true ->
  is_safe (validate_content (PStr text) user_id pick) = false ->
  exists before c ws after,
    threat_words = before ++ (c, ws) :: after
    /\ (forall c' ws', In (c', ws') before ->
          ~ holds_word_of ws' (of_string text))
    /\ holds_word_of ws (of_string text)
    /\ category (validate_content (PStr text) user_id pick) = Some c
    /\ severity (validate_content (PStr text) user_id pick)
       = Some (if String.eqb c "high_threat"
               then "critical" else "moderate")%string
    /\ v_action (validate_content (PStr text) user_id pick) = block.
Proof.
  intros Hne _. unfold validate_content.
  rewrite (string_nonempty text Hne), validate_text_is_safe.
  pose proof (check_threats_first threat_words (of_string text)
                threat_words_edged) as H.
  cbv zeta in H. fold threat_patterns in H.
  intros Hunsafe.
  destruct H as [[Hs _] | (before & c & ws & after & E & Hb & Hh & Hu & Hc & Hv)];
    [congruence|].
  exists before, c, ws, after.
  split; [exact E|]. split; [exact Hb|]. split; [exact Hh|].
  unfold validate_text, _check_security_threats.
  rewrite Hu. cbn [negb category severity v_action].
  rewrite Hc, Hv. repeat split; reflexivity.
Qed.

Lemma threat_category_is_first_witness :
  "cheap DRUG trafficking tour"%string <> ""%string
  /\ category (validate_content (PStr "cheap DRUG trafficking tour") "u" 0)
     = Some "inappropriate"%string
  /\ severity (validate_content (PStr "cheap DRUG trafficking tour") "u" 0)
     = Some "moderate"%string.
Proof.
  assert (Hne : "cheap DRUG trafficking tour"%string <> ""%string)
    by discriminate.
  assert (Hu : is_safe (validate_content (PStr "cheap DRUG trafficking tour")
                          "u" 0) = false) by (vm_compute; reflexivity).
  split; [exact Hne|].
  assert (Ha : ascii_text (of_string "cheap DRUG trafficking tour") = true)
    by reflexivity.
  destruct (threat_category_is_first "cheap DRUG trafficking tour" "u" 0
              Hne Ha Hu) as (before & c & ws & after & _ & _ & _ & Hc & Hv & _).
  split; vm_compute; reflexivity.
Defined.

Lemma lstrip_spaces (s : chars) :
  forallb is_space s = true -> lstrip s = [].
Proof.
  induction s as [|c s IH]; [reflexivity|]. simpl. intros H.
  apply andb_prop in H as [Hc Hs]. rewrite Hc. apply IH, Hs.
Qed.

(** X3: a message made of whitespace only is not refused as invalid
    input: it is safe, scores 0 and is redirected as a topic of no known
    category, like any other off-topic message. *)
Theorem whitespace_message_is_redirected (text user_id : string)
    (pick : nat) :
  text <> ""%string ->
  forallb is_space (of_string text) = true ->
  let v := validate_content (PStr text) user_id pick in
  is_safe v = true /\ is_travel v = false /\ v_action v = redirect
  /\ category v = Some "other_non_travel"%string
  /\ travel_score v = Some 0%float.
Proof.
  intros Hne Hsp. cbv zeta. unfold validate_content.
  rewrite (string_nonempty text Hne). unfold validate_text.
  assert (E : lower (strip (of_string text)) = []).
  { unfold strip. rewrite (lstrip_spaces _ Hsp). reflexivity. }
  rewrite E. vm_compute. repeat split; reflexivity.
Qed.

Lemma whitespace_message_is_redirected_witness :
  v_action (validate_content (PStr "   ") "u" 0) = redirect.
Proof.
  assert (Hne : "   "%string <> ""%string) by discriminate.
  assert (Hsp : forallb is_space (of_string "   ") = true) by reflexivity.
  exact (proj1 (proj2 (proj2 (whitespace_message_is_redirected "   " "u" 0
                                Hne Hsp)))).
Defined.

Lemma py_min_one (x : float) : PrimFloat.ltb 1 (py_min x 1) = false.
Proof.
  unfold py_min. destruct (PrimFloat.ltb 1 x) eqn:E; [reflexivity | exact E].
Qed.

(** X4: the travel relevance score of a text is never above 1, however
    many keywords and phrases the text holds. *)
Theorem travel_relevance_at_most_one (text : chars) :
  PrimFloat.ltb 1 (_calculate_travel_relevance text) = false.
Proof.
  unfold _calculate_travel_relevance.
  destruct (split text); [reflexivity | apply py_min_one].
Qed.

End Verdicts.

(** ** The hotel and attraction searches: filters, order, statistics *)

(** The order of the entries of ["attractions"]. *)
Definition attraction_order (x y : Planner.attraction) : Prop :=
  Planner.by_rating_then Planner.a_rating Planner.entry_fee x y = true.

(** The city of a row is the city of the request, case apart. *)
Definition of_city {A} (city_of : A -> string) (city : string) (row : A)
  : Prop :=
  str_lower (city_of row) = str_lower (normalize_city city).

Section Searches.
Import Planner Num.

Lemma get_attractions_success (attractions_df : list attraction)
    (city category max_entry_fee : pyval) (ap : attractions_payload) :
  get_attractions attractions_df city category max_entry_fee = Success ap ->
  exists c r1 r2,
    as_str city = Some c
    /\ c <> ""%string
    /\ filter_attraction_category attractions_df category
         (List.filter (in_city a_city (normalize_city c)) attractions_df)
       = Success r1
    /\ filter_entry_fee max_entry_fee r1 = Success r2
    /\ r2 <> []
    /\ attractions ap
       = firstn 12 (Seq.sort (by_rating_then a_rating entry_fee) r2)
    /\ attractions_found ap = length (attractions ap)
    /\ ap_city ap = normalize_city c.
Proof.
  unfold get_attractions. intros H.
  destruct (as_str city) as [c|]; [|discriminate H].
  destruct (String.eqb_spec c ""); [discriminate H|].
  destruct attractions_df as [|a0 df] eqn:Edf; [discriminate H|].
  rewrite <- Edf in *. clear Edf.
  destruct (List.filter _ attractions_df) as [|r rows] eqn:E0;
    [discriminate H|].
  destruct (filter_attraction_category _ _ _) as [r1|e] eqn:E1;
    [|discriminate H].
  cbn [bind] in H.
  destruct (filter_entry_fee _ _) as [r2|e] eqn:E2; [|discriminate H].
  cbn [bind] in H.
  destruct r2 as [|x xs] eqn:E3; [discriminate H|].
  rewrite <- E3 in H, E2. apply Success_inj in H. subst ap.
  exists c, r1, r2. cbn [attractions attractions_found ap_city].
  split; [reflexivity|]. split; [assumption|].
  split; [rewrite E0; exact E1|]. split; [exact E2|].
  split; [rewrite E3; discriminate|].
  split; [reflexivity|]. split; reflexivity.
Qed.

Lemma filter_entry_fee_read (max_entry_fee : pyval)
    (rows r : list attraction) :
  max_entry_fee <> PNone ->
  filter_entry_fee max_entry_fee rows = Success r ->
  exists m,
    as_int max_entry_fee = Some m /\ (0 <= m)%Z
    /\ r = List.filter (fun a => (entry_fee a <=? m)%Z) rows.
Proof.
  unfold filter_entry_fee. intros Hn.
  destruct max_entry_fee as [| b | z | s | t sh]; cbn [as_int];
    try contradiction; try discriminate.
  - destruct (_ <? 0)%Z eqn:E; [discriminate|].
    intros H. apply Success_inj in H. apply Z.ltb_ge in E.
    eexists. repeat split; [exact E | symmetry; exact H].
  - destruct (_ <? 0)%Z eqn:E; [discriminate|].
    intros H. apply Success_inj in H. apply Z.ltb_ge in E.
    eexists. repeat split; [exact E | symmetry; exact H].
Qed.

(** X5: when a maximum entry fee is given, [get_attractions] succeeds only
    if it is an integer that is not negative, and then no attraction of
    the answer costs more (a maximum of 0 gives the free attractions
    only); the answer is never empty, is ordered by rating and then by
    fee, and has twelve entries at most. *)
Theorem get_attractions_fee_respected (attractions_df : list attraction)
    (city category max_entry_fee : pyval) (ap : attractions_payload) :
  max_entry_fee <> PNone ->
  get_attractions attractions_df city category max_entry_fee = Success ap ->
  exists m,
    as_int max_entry_fee = Some m /\ (0 <= m)%Z
    /\ Forall (fun a => (entry_fee a <= m)%Z) (attractions ap)
    /\ Sorted attraction_order (attractions ap)
    /\ (1 <= length (attractions ap) <= 12)%nat.
Proof.
  intros Hn H.
  apply get_attractions_success
    in H as (c & r1 & r2 & _ & _ & _ & H2 & Hne & Hp & _).
  apply (filter_entry_fee_read _ _ _ Hn) in H2 as (m & Hm & Hpos & Hr).
  exists m. split; [exact Hm|]. split; [exact Hpos|]. rewrite Hp.
  split; [|split].
  - apply List.Forall_forall. intros a Ha.
    apply In_firstn, In_sort in Ha. rewrite Hr in Ha.
    apply filter_In in Ha as [_ Ha]. apply Z.leb_le. exact Ha.
  - apply Sorted_firstn, sort_Sorted. apply by_rating_then_total.
  - rewrite length_firstn, length_sort.
    destruct r2 as [|x xs]; [contradiction|]. cbn [length].
    destruct (Nat.min_spec 12 (S (length xs))) as [[? ->]|[? ->]]; lia.
Qed.

Lemma get_attractions_fee_respected_witness :
  exists ap,
    get_attractions sample_attractions (PStr "paris") PNone (PInt 0)
    = Success ap
    /\ List.map attraction_id (attractions ap) = ["A3"; "A5"]%string
    /\ Forall (fun a => (entry_fee a <= 0)%Z) (attractions ap).
Proof.
  assert (Hn : PInt 0 <> PNone) by discriminate.
  destruct (get_attractions sample_attractions (PStr "paris") PNone (PInt 0))
    as [ap|e] eqn:E.
  - exists ap. split; [reflexivity|].
    destruct (get_attractions_fee_respected sample_attractions (PStr "paris")
                PNone (PInt 0) ap Hn E) as (m & Hm & _ & Hall & _).
    injection Hm as <-.
    split; [|exact Hall].
    vm_compute in E. injection E as <-. reflexivity.
  - vm_compute in E. discriminate E.
Defined.

(** X6: when a category is given, every attraction of the answer has that
    category, letter for letter, and the category is one of the dataset;
    every attraction is a row of the dataset, of the city of the
    request. *)
Theorem get_attractions_category_respected
    (attractions_df : list attraction)
    (city category max_entry_fee : pyval) (ap : attractions_payload) :
  truthy category = true ->
  get_attractions attractions_df city category max_entry_fee = Success ap ->
  exists c k,
    as_str city = Some c /\ category = PStr k
    /\ (exists row, In row attractions_df /\ a_category row = k)
    /\ Forall (fun a => a_category a = k /\ In a attractions_df
                        /\ of_city a_city c a)
         (attractions ap).
Proof.
  intros Ht H.
  pose proof (get_attractions_subset _ _ _ _ _ H) as Hsub.
  apply get_attractions_success
    in H as (c & r1 & r2 & Hc & _ & H1 & H2 & _ & Hp & _).
  unfold filter_attraction_category in H1. rewrite Ht in H1.
  destruct category as [| b | z | k | t sh]; cbn [as_str] in H1;
    try discriminate H1.
  destruct (Seq.mem k _) eqn:Hmem; [|discriminate H1].
  apply Success_inj in H1.
  exists c, k. split; [exact Hc|]. split; [reflexivity|]. split.
  - unfold Seq.mem in Hmem. apply existsb_exists in Hmem as (x & Hx & Hk).
    apply String.eqb_eq in Hk. subst x.
    apply In_sorted_unique, in_map_iff in Hx as (row & Hrow & Hin).
    exists row. auto.
  - apply List.Forall_forall. intros a Ha. pose proof (Hsub a Ha) as Hdf.
    rewrite Hp in Ha. apply In_firstn, In_sort in Ha.
    assert (Hr1 : In a r1).
    { revert H2. unfold filter_entry_fee.
      destruct max_entry_fee as [| b | z | s | t sh]; cbn [as_int];
        try discriminate;
        try (intros E; apply Success_inj in E; subst r2; exact Ha);
        (destruct (_ <? 0)%Z; [discriminate|]);
        intros E; apply Success_inj in E; subst r2;
        apply filter_In in Ha; tauto. }
    rewrite <- H1 in Hr1. apply filter_In in Hr1 as [Hcity Hk].
    apply filter_In in Hcity as [_ Hcity].
    split; [apply String.eqb_eq, Hk|]. split; [exact Hdf|].
    unfold of_city. unfold in_city in Hcity. apply String.eqb_eq in Hcity.
    rewrite Hcity. unfold normalize_city, str_lower.
    reflexivity.
Qed.

Lemma get_attractions_category_respected_witness :
  exists ap,
    get_attractions sample_attractions (PStr "paris") (PStr "Museum") PNone
    = Success ap
    /\ Forall (fun a => a_category a = "Museum"%string) (attractions ap).
Proof.
  assert (Ht : truthy (PStr "Museum") = true) by reflexivity.
  destruct (get_attractions sample_attractions (PStr "paris") (PStr "Museum")
              PNone) as [ap|e] eqn:E.
  - exists ap. split; [reflexivity|].
    destruct (get_attractions_category_respected sample_attractions
                (PStr "paris") (PStr "Museum") PNone ap Ht E)
      as (c & k & _ & Hk & _ & Hall).
    injection Hk as <-.
    apply List.Forall_forall. intros a Ha.
    rewrite List.Forall_forall in Hall. apply (Hall a Ha).
  - vm_compute in E. discriminate E.
Defined.

Lemma filter_category_read (category : pyval) (rows r : list hotel) :
  truthy category = true ->
  filter_category category rows = Success r ->
  exists k,
    category = PStr k /\ In (str_lower k) valid_categories
    /\ r = List.filter
             (fun h => String.eqb (str_lower (h_category h)) (str_lower k))
             rows.
Proof.
  unfold filter_category. intros Ht. rewrite Ht.
  destruct category as [| b | z | k | t sh]; cbn [as_str]; try discriminate.
  destruct (Seq.mem _ _) eqn:Hm; [|discriminate].
  intros H. apply Success_inj in H. exists k.
  split; [reflexivity|]. split; [|symmetry; exact H].
  unfold Seq.mem in Hm. apply existsb_exists in Hm as (x & Hx & Hk).
  apply String.eqb_eq in Hk. subst x. exact Hx.
Qed.

(** X7: every hotel of an answer of [search_hotels] is a row of the
    dataset, of the city of the request whatever the case of the letters;
    when a category is given it is one of luxury, mid-range and budget
    and every hotel has it, case apart; when availability is checked
    every hotel is available. *)
Theorem search_hotels_filters_respected (hotels_df : list hotel)
    (city budget_max category check_availability : pyval)
    (p : hotels_payload) :
  search_hotels hotels_df city budget_max category check_availability
  = Success p ->
  exists c,
    as_str city = Some c
    /\ Forall
         (fun e =>
            exists h,
              In h hotels_df /\ e = hotel_entry_of h
              /\ of_city h_city c h
              /\ (truthy category = true ->
                  exists k,
                    category = PStr k /\ In (str_lower k) valid_categories
                    /\ str_lower (h_category h) = str_lower k)
              /\ (truthy check_availability = true ->
                  availability h = true))
         (hotels p).
Proof.
  intros H.
  apply search_hotels_success in H as (c & r1 & r2 & Hc & H1 & H2 & _ & Hp).
  exists c. split; [exact Hc|]. rewrite Hp.
  apply List.Forall_forall. intros e He.
  apply in_map_iff in He as (h & <- & Hh).
  apply In_firstn, In_sort in Hh.
  exists h.
  assert (Hr2 : In h r2) by (apply (filter_available_subset _ _ _ Hh)).
  assert (Hr1 : In h r1) by (apply (filter_category_subset _ _ _ H2 _ Hr2)).
  pose proof (filter_budget_subset _ _ _ H1 _ Hr1) as Hcity.
  apply filter_In in Hcity as [Hdf Hcity].
  split; [exact Hdf|]. split; [reflexivity|]. split; [|split].
  - unfold of_city. unfold in_city in Hcity. apply String.eqb_eq in Hcity.
    rewrite Hcity. reflexivity.
  - intros Ht.
    destruct (filter_category_read _ _ _ Ht H2) as (k & Hk & Hv & Hr).
    exists k. split; [exact Hk|]. split; [exact Hv|].
    rewrite Hr in Hr2. apply filter_In in Hr2 as [_ Hr2].
    apply String.eqb_eq, Hr2.
  - intros Ht. unfold filter_available in Hh. rewrite Ht in Hh.
    apply filter_In in Hh. tauto.
Qed.

Lemma min_Z_spec (x : Z) (l : list Z) :
  In (min_Z (x :: l)) (x :: l)
  /\ forall z, In z (x :: l) -> (min_Z (x :: l) <= z)%Z.
Proof.
  unfold min_Z. revert x. induction l as [|y l IH]; intros x; simpl.
  - split; [left; reflexivity|]. intros z [<-|[]]. lia.
  - destruct (IH (Z.min x y)) as [Hin Hle]. split.
    + destruct Hin as [Hin|Hin]; [|right; right; exact Hin].
      rewrite <- Hin. destruct (Z.min_spec x y) as [[_ ->]|[_ ->]]; auto.
    + intros z [<-|[<-|Hz]].
      * specialize (Hle (Z.min x y) (or_introl eq_refl)).
        pose proof (Z.le_min_l x y). lia.
      * specialize (Hle (Z.min x y) (or_introl eq_refl)).
        pose proof (Z.le_min_r x y). lia.
      * apply Hle. right. exact Hz.
Qed.

Lemma max_Z_spec (x : Z) (l : list Z) :
  In (max_Z (x :: l)) (x :: l)
  /\ forall z, In z (x :: l) -> (z <= max_Z (x :: l))%Z.
Proof.
  unfold max_Z. revert x. induction l as [|y l IH]; intros x; simpl.
  - split; [left; reflexivity|]. intros z [<-|[]]. lia.
  - destruct (IH (Z.max x y)) as [Hin Hle]. split.
    + destruct Hin as [Hin|Hin]; [|right; right; exact Hin].
      rewrite <- Hin. destruct (Z.max_spec x y) as [[_ ->]|[_ ->]]; auto.
    + intros z [<-|[<-|Hz]].
      * specialize (Hle (Z.max x y) (or_introl eq_refl)).
        pose proof (Z.le_max_l x y). lia.
      * specialize (Hle (Z.max x y) (or_introl eq_refl)).
        pose proof (Z.le_max_r x y). lia.
      * apply Hle. right. exact Hz.
Qed.

Lemma sum_Z_bounds (lo hi : Z) (l : list Z) :
  (forall z, In z l -> (lo <= z <= hi)%Z) ->
  (lo * Z.of_nat (length l) <= sum_Z l <= hi * Z.of_nat (length l))%Z.
Proof.
  induction l as [|x l IH]; intros H; [simpl; lia|].
  pose proof (H x (or_introl eq_refl)).
  assert (Hl : (lo * Z.of_nat (length l) <= sum_Z l
                <= hi * Z.of_nat (length l))%Z)
    by (apply IH; intros z Hz; apply H; right; exact Hz).
  cbn [length sum_Z fold_right]. fold (sum_Z l). lia.
Qed.

Lemma int_of_between (lo hi : Z) (x : Q) :
  (inject_Z lo <= x <= inject_Z hi)%Q -> (lo <= int_of x <= hi)%Z.
Proof.
  intros [Hlo Hhi]. unfold int_of. destruct (Qle_bool 0 x).
  - split.
    + rewrite <- (Qfloor_Z lo). apply Qfloor_resp_le, Hlo.
    + rewrite Zle_Qle. apply (Qle_trans _ x); [apply Qfloor_le | exact Hhi].
  - split.
    + rewrite Zle_Qle. apply (Qle_trans _ x); [exact Hlo | apply Qle_ceiling].
    + rewrite <- (Qceiling_Z hi). apply Qceiling_resp_le, Hhi.
Qed.

Lemma mean_Z_between (lo hi : Z) (l : list Z) :
  l <> [] ->
  (forall z, In z l -> (lo <= z <= hi)%Z) ->
  (inject_Z lo <= mean_Z l <= inject_Z hi)%Q.
Proof.
  intros Hne H. pose proof (sum_Z_bounds lo hi l H) as [Hlo Hhi].
  unfold mean_Z, len_Q.
  assert (Hlen : (0 < inject_Z (Z.of_nat (length l)))%Q).
  { rewrite <- (Zlt_Qlt 0). destruct l; [contradiction|]. simpl. lia. }
  split.
  - apply Qle_shift_div_l; [exact Hlen|].
    rewrite <- inject_Z_mult. rewrite <- Zle_Qle. exact Hlo.
  - apply Qle_shift_div_r; [exact Hlen|].
    rewrite <- inject_Z_mult. rewrite <- Zle_Qle. exact Hhi.
Qed.

(** X8: the statistics of an answer of [search_hotels] are those of the
    hotels it lists: their number, which is between one and eight, and
    the lowest and the highest of their prices; when the prices fit in
    32 bits, where the mean of the floats is the mean of the prices, the
    average price lies between the two. *)
Theorem search_hotels_statistics (hotels_df : list hotel)
    (city budget_max category check_availability : pyval)
    (p : hotels_payload) :
  search_hotels hotels_df city budget_max category check_availability
  = Success p ->
  let prices := List.map he_price_per_night (hotels p) in
  let st := hp_statistics p in
  hotels_found p = length (hotels p)
  /\ (1 <= length (hotels p) <= 8)%nat
  /\ In (price_min st) prices /\ In (price_max st) prices
  /\ (forall z, In z prices -> (price_min st <= z <= price_max st)%Z)
  /\ ((forall z, In z prices -> (- 2 ^ 31 <= z <= 2 ^ 31)%Z) ->
      (price_min st <= average_price st <= price_max st)%Z).
Proof.
  unfold search_hotels. intros H.
  destruct (as_str city) as [c|]; [|discriminate H].
  destruct (String.eqb c ""); [discriminate H|].
  destruct hotels_df as [|h0 df] eqn:Edf; [discriminate H|].
  rewrite <- Edf in *. clear Edf.
  destruct (List.filter _ hotels_df) as [|r rows] eqn:E0; [discriminate H|].
  destruct (filter_budget budget_max (r :: rows)) as [r1|e] eqn:E1;
    [|discriminate H].
  cbn [bind] in H.
  destruct (filter_category category r1) as [r2|e] eqn:E2; [|discriminate H].
  cbn [bind] in H.
  destruct (filter_available check_availability r2) as [|x xs] eqn:E3;
    [discriminate H|].
  rewrite <- E3 in H. apply Success_inj in H. subst p.
  cbv zeta.
  cbn [hotels hp_statistics hotels_found price_min price_max average_price].
  set (results := firstn 8 (Seq.sort (by_rating_then h_rating price_per_night)
                              (filter_available check_availability r2))).
  assert (Hlen : (1 <= length results <= 8)%nat).
  { unfold results. rewrite length_firstn, length_sort, E3. cbn [length].
    destruct (Nat.min_spec 8 (S (length xs))) as [[? ->]|[? ->]]; lia. }
  assert (Hmap : List.map he_price_per_night (List.map hotel_entry_of results)
                 = List.map price_per_night results).
  { rewrite List.map_map. reflexivity. }
  rewrite Hmap, !length_map.
  destruct (List.map price_per_night results) as [|z zs] eqn:Ez.
  { apply (f_equal (@length _)) in Ez. rewrite length_map in Ez.
    simpl in Ez. lia. }
  destruct (min_Z_spec z zs) as [Hmin Hminle].
  destruct (max_Z_spec z zs) as [Hmax Hmaxle].
  split; [reflexivity|]. split; [exact Hlen|].
  split; [exact Hmin|]. split; [exact Hmax|].
  split; [intros y Hy; split; [apply Hminle | apply Hmaxle]; exact Hy|].
  intros _. apply int_of_between, mean_Z_between; [discriminate|].
  intros y Hy. split; [apply Hminle | apply Hmaxle]; exact Hy.
Qed.

Lemma search_hotels_filters_respected_witness :
  exists p,
    search_hotels sample_hotels (PStr " PARIS ") PNone (PStr "Luxury")
      (PBool true) = Success p
    /\ List.map he_name (hotels p) = ["Grand Palace"%string].
Proof.
  destruct (search_hotels sample_hotels (PStr " PARIS ") PNone (PStr "Luxury")
              (PBool true)) as [p|e] eqn:E.
  - exists p. split; [reflexivity|].
    destruct (search_hotels_filters_respected _ _ _ _ _ _ E) as (c & _ & _).
    vm_compute in E. injection E as <-. reflexivity.
  - vm_compute in E. discriminate E.
Defined.

Lemma search_hotels_statistics_witness :
  exists p,
    search_hotels sample_hotels (PStr "Paris") PNone PNone (PBool true)
    = Success p
    /\ (price_min (hp_statistics p) <= average_price (hp_statistics p)
        <= price_max (hp_statistics p))%Z
    /\ (price_min (hp_statistics p), average_price (hp_statistics p),
        price_max (hp_statistics p)) = (120, 256, 450)%Z.
Proof.
  destruct (search_hotels sample_hotels (PStr "Paris") PNone PNone
              (PBool true)) as [p|e] eqn:E.
  - pose proof (proj2 (proj2 (proj2 (proj2 (proj2
                  (search_hotels_statistics _ _ _ _ _ _ E)))))) as Havg.
    vm_compute in E. injection E as <-.
    eexists. split; [reflexivity|].
    split; [|reflexivity].
    apply Havg. intros z Hz. simpl in Hz.
    repeat (destruct Hz as [<-|Hz]; [lia|]). destruct Hz.
  - vm_compute in E. discriminate E.
Defined.

Lemma is_alpha_lower_char (c : ascii) : is_alpha (lower_char c) = is_alpha c.
Proof. destruct c as [[] [] [] [] [] [] [] []]; reflexivity. Qed.

Lemma upper_lower_char (c : ascii) : upper_char (lower_char c) = upper_char c.
Proof. destruct c as [[] [] [] [] [] [] [] []]; reflexivity. Qed.

Lemma lower_char_not_alpha (c : ascii) :
  is_alpha c = false -> lower_char c = c.
Proof.
  destruct c as [[] [] [] [] [] [] [] []]; simpl; intros H;
    try reflexivity; discriminate H.
Qed.

Lemma title_aux_lower (b : bool) (s : chars) :
  title_aux b (lower s) = title_aux b s.
Proof.
  revert b. induction s as [|c s IH]; intros b; [reflexivity|].
  simpl. rewrite is_alpha_lower_char, lower_char_idem, upper_lower_char, !IH.
  destruct (is_alpha c) eqn:E; [reflexivity|].
  rewrite (lower_char_not_alpha c E). reflexivity.
Qed.

Lemma normalize_city_same (c1 c2 : string) :
  lower (strip (of_string c1)) = lower (strip (of_string c2)) ->
  normalize_city c1 = normalize_city c2.
Proof.
  intros H. unfold normalize_city, title. f_equal.
  rewrite <- (title_aux_lower false (strip (of_string c1))), H.
  apply title_aux_lower.
Qed.

(** X9: two city names that differ only by the case of their letters and
    by the whitespace around them get the same answer from
    [search_hotels] and from [get_attractions], whatever the other
    arguments. *)
Theorem city_name_case_and_blanks (hotels_df : list hotel)
    (attractions_df : list attraction) (c1 c2 : string)
    (budget_max category check_availability max_entry_fee : pyval) :
  c1 <> ""%string -> c2 <> ""%string ->
  lower (strip (of_string c1)) = lower (strip (of_string c2)) ->
  search_hotels hotels_df (PStr c1) budget_max category check_availability
  = search_hotels hotels_df (PStr c2) budget_max category check_availability
  /\ get_attractions attractions_df (PStr c1) category max_entry_fee
     = get_attractions attractions_df (PStr c2) category max_entry_fee.
Proof.
  intros H1 H2 H. apply normalize_city_same in H.
  unfold search_hotels, get_attractions. cbn [as_str].
  rewrite (string_nonempty c1 H1), (string_nonempty c2 H2), H.
  split; reflexivity.
Qed.

Lemma city_name_case_and_blanks_witness :
  search_hotels sample_hotels (PStr "  pArIs") (PInt 300) PNone (PBool true)
  = search_hotels sample_hotels (PStr "PARIS ") (PInt 300) PNone (PBool true).
Proof.
  assert (H1 : "  pArIs"%string <> ""%string) by discriminate.
  assert (H2 : "PARIS "%string <> ""%string) by discriminate.
  assert (H : lower (strip (of_string "  pArIs"))
              = lower (strip (of_string "PARIS "))) by reflexivity.
  exact (proj1 (city_name_case_and_blanks sample_hotels sample_attractions
                  "  pArIs" "PARIS " (PInt 300) PNone (PBool true) PNone
                  H1 H2 H)).
Defined.

End Searches.

(** ** Generated itineraries: days, costs, and how full the days are *)

(** What holds of every day of a generated itinerary over the attractions
    [all]: its attractions are among [all], its activities are their
    names, its cost is 50 plus their entry fees, and its duration is the
    sum of theirs. *)
Definition day_well_formed (all : list Planner.attraction)
    (d : Planner.day_plan) : Prop :=
  (forall a, In a (Planner.attraction_details d) -> In a all)
  /\ Planner.activities d
     = List.map Planner.a_name (Planner.attraction_details d)
  /\ Planner.estimated_cost d
     = (50 + Num.sum_Z (List.map Planner.entry_fee
                          (Planner.attraction_details d)))%Z
  /\ Planner.total_duration d
     = Num.sum_Q (List.map Planner.duration_hours
                    (Planner.attraction_details d)).

(** The count kept while a day is filled: the attractions chosen are among
    [all] and each of them is one more identifier in use. *)
Definition day_count (all : list Planner.attraction) (used0 : gset string)
    (st : Planner.day_state) : Prop :=
  (forall a, In a (Planner.day_attractions st) -> In a all)
  /\ size (Planner.used_attractions st)
     = (size used0 + length (Planner.day_attractions st))%nat.

Section GeneratedDays.
Import Planner Num.

Lemma unused_head_in (used : gset string) (l rest : list attraction)
    (a : attraction) :
  unused used l = a :: rest -> In a l.
Proof.
  intros H.
  assert (Hin : In a (unused used l)) by (rewrite H; left; reflexivity).
  apply filter_In in Hin. tauto.
Qed.

Lemma select_count (all : list attraction) (used0 : gset string)
    (st : day_state) (a : attraction) :
  day_count all used0 st ->
  In a all ->
  attraction_id a ∉ used_attractions st ->
  day_count all used0 (select a st).
Proof.
  intros [Hsub Hsize] Ha Hnew. unfold day_count, select.
  cbn [day_attractions used_attractions]. split.
  - intros x Hx. apply in_app_or in Hx as [Hx | [<-|[]]];
      [apply Hsub, Hx | exact Ha].
  - rewrite size_union by set_solver.
    rewrite size_singleton, Hsize, length_app. simpl. lia.
Qed.

Lemma diverse_pass_count (all : list attraction) (used0 : gset string)
    (per_day : nat) (groups : list (string * list attraction))
    (st : day_state) :
  (forall g a, In g groups -> In a (snd g) -> In a all) ->
  day_count all used0 st ->
  (length (day_attractions st) <= per_day)%nat ->
  day_count all used0 (diverse_pass per_day groups st)
  /\ (length (day_attractions (diverse_pass per_day groups st))
      <= per_day)%nat.
Proof.
  unfold diverse_pass. revert st.
  induction groups as [|g groups IH]; intros st Hg Hst Hlen;
    [split; assumption|].
  simpl. apply IH.
  - intros g' a Hg' Ha. apply (Hg g' a); [right|]; assumption.
  - destruct (unused (used_attractions st) (snd g)) as [|a rest] eqn:E;
      [exact Hst|].
    destruct (_ <? _)%nat; [|exact Hst].
    apply select_count; [exact Hst | | apply (unused_head _ _ _ _ E)].
    apply (Hg g a); [left; reflexivity | apply (unused_head_in _ _ _ _ E)].
  - destruct (unused (used_attractions st) (snd g)) as [|a rest] eqn:E;
      [exact Hlen|].
    destruct (_ <? _)%nat eqn:El; [|exact Hlen].
    apply Nat.ltb_lt in El. unfold select. cbn [day_attractions].
    rewrite length_app. simpl. lia.
Qed.

(** Identifiers that are all in use are no more than the set in use. *)
Lemma covered_size (all : list attraction) (used : gset string) :
  List.NoDup (List.map attraction_id all) ->
  unused used all = [] ->
  (length all <= size used)%nat.
Proof.
  intros Hnd Hnone.
  assert (Hsub : (list_to_set (List.map attraction_id all) : gset string)
                 ⊆ used).
  { intros id Hid. apply elem_of_list_to_set, list_elem_of_In in Hid.
    apply in_map_iff in Hid as (a & <- & Ha).
    unfold unused in Hnone.
    pose proof (proj1 (filter_nil_iff _ _) Hnone a Ha) as Hf.
    apply negb_false_iff, bool_decide_eq_true in Hf. exact Hf. }
  apply subseteq_size in Hsub.
  rewrite size_list_to_set in Hsub by (apply NoDup_ListNoDup, Hnd).
  rewrite length_map in Hsub. exact Hsub.
Qed.

Lemma fill_count (all : list attraction) (used0 : gset string)
    (slots : nat) (st : day_state) :
  List.NoDup (List.map attraction_id all) ->
  day_count all used0 st ->
  (size used0 + (length (day_attractions st) + slots) <= length all)%nat ->
  day_count all used0 (fill slots all st)
  /\ length (day_attractions (fill slots all st))
     = (length (day_attractions st) + slots)%nat.
Proof.
  intros Hnd. revert st.
  induction slots as [|slots IH]; intros st Hst Hroom; simpl.
  - split; [exact Hst | lia].
  - destruct (unused (used_attractions st) all) as [|a rest] eqn:E.
    + exfalso. apply (covered_size all _ Hnd) in E.
      destruct Hst as [_ Hsize]. rewrite Hsize in E. lia.
    + assert (Hsel : day_count all used0 (select a st)).
      { apply select_count;
          [exact Hst | apply (unused_head_in _ _ _ _ E)
           | apply (unused_head _ _ _ _ E)]. }
      assert (Hl : length (day_attractions (select a st))
                   = S (length (day_attractions st))).
      { unfold select. cbn [day_attractions]. rewrite length_app.
        simpl. lia. }
      destruct (IH (select a st) Hsel) as [Hc Hlen]; [rewrite Hl; lia|].
      split; [exact Hc | rewrite Hlen, Hl; lia].
Qed.

Lemma add_to_category_sub (all : list attraction) (a : attraction)
    (groups : list (string * list attraction)) :
  In a all ->
  (forall g x, In g groups -> In x (snd g) -> In x all) ->
  forall g x, In g (add_to_category a groups) -> In x (snd g) -> In x all.
Proof.
  intros Ha. induction groups as [|[c l] groups IH]; intros Hg g x Hin Hx.
  - simpl in Hin. destruct Hin as [<-|[]]. simpl in Hx.
    destruct Hx as [<-|[]]. exact Ha.
  - simpl in Hin. destruct (String.eqb c (a_category a)).
    + destruct Hin as [<-|Hin].
      * simpl in Hx. apply in_app_or in Hx as [Hx|[<-|[]]]; [|exact Ha].
        apply (Hg (c, l) x); [left; reflexivity | exact Hx].
      * apply (Hg g x); [right|]; assumption.
    + destruct Hin as [<-|Hin].
      * apply (Hg (c, l) x); [left; reflexivity | exact Hx].
      * apply IH with (g := g); try assumption.
        intros g' x' Hg' Hx'. apply (Hg g' x'); [right|]; assumption.
Qed.

Lemma categorize_sub (all : list attraction) :
  forall g x, In g (categorize all) -> In x (snd g) -> In x all.
Proof.
  unfold categorize.
  assert (H : forall l groups,
            (forall a, In a l -> In a all) ->
            (forall g x, In g groups -> In x (snd g) -> In x all) ->
            forall g x,
              In g (fold_left (fun groups a => add_to_category a groups)
                      l groups) ->
              In x (snd g) -> In x all).
  { induction l as [|a l IH]; intros groups Hl Hg; [exact Hg|].
    simpl. apply IH.
    - intros b Hb. apply Hl. right. exact Hb.
    - apply add_to_category_sub; [apply Hl; left; reflexivity | exact Hg]. }
  apply (H all []); [auto | intros g x []].
Qed.

Lemma fill_keeps_count (all : list attraction) (used0 : gset string)
    (slots : nat) (st : day_state) :
  day_count all used0 st -> day_count all used0 (fill slots all st).
Proof.
  revert st. induction slots as [|slots IH]; intros st Hst; [exact Hst|].
  simpl.
  destruct (unused (used_attractions st) all) as [|a rest] eqn:E;
    [exact Hst|].
  apply IH, select_count;
    [exact Hst | apply (unused_head_in _ _ _ _ E)
     | apply (unused_head _ _ _ _ E)].
Qed.

Lemma day_count_start (all : list attraction) (used0 : gset string) :
  day_count all used0 {| day_attractions := []; day_cost := 50;
                         used_attractions := used0 |}.
Proof. split; [intros a [] | simpl; lia]. Qed.

(** A day as [plan_day] makes it. *)
Lemma plan_day_well_formed (city : string) (per_day : nat)
    (all : list attraction) (groups : list (string * list attraction))
    (used : gset string) (d : nat) :
  (forall g a, In g groups -> In a (snd g) -> In a all) ->
  let plan := fst (plan_day city per_day all groups used d) in
  let used' := snd (plan_day city per_day all groups used d) in
  day_well_formed all plan
  /\ day plan = Z.of_nat d
  /\ size used' = (size used + length (attraction_details plan))%nat
  /\ (length (attraction_details plan) <= per_day)%nat.
Proof.
  intros Hg. cbv zeta.
  pose proof (plan_day_spec city per_day all groups used d) as Hspec.
  cbv zeta in Hspec. destruct Hspec as (_ & _ & _ & Hcost).
  unfold plan_day in *.
  cbn [fst snd attraction_details estimated_cost] in *.
  destruct (diverse_pass_count all used per_day groups _ Hg
              (day_count_start all used) (Nat.le_0_l per_day))
    as [Hc1 Hl1].
  pose proof (fill_keeps_count all used
                (per_day - length (day_attractions
                                     (diverse_pass per_day groups
                                        {| day_attractions := [];
                                           day_cost := 50;
                                           used_attractions := used |})))
                _ Hc1) as [Hsub Hsize].
  split; [|split; [reflexivity | split; [exact Hsize|]]].
  - unfold day_well_formed.
    cbn [attraction_details activities estimated_cost total_duration].
    split; [exact Hsub|]. split; [reflexivity|].
    split; [exact Hcost | reflexivity].
  - clear Hcost Hsub Hsize Hc1. revert Hl1.
    generalize (diverse_pass per_day groups
                  {| day_attractions := []; day_cost := 50;
                     used_attractions := used |}).
    intros st Hl.
    remember (per_day - length (day_attractions st))%nat as slots eqn:Es.
    assert (Hb : (length (day_attractions st) + slots <= per_day)%nat)
      by lia.
    clear Es Hl. revert st Hb.
    induction slots as [|slots IH]; intros st Hb; simpl; [lia|].
    destruct (unused (used_attractions st) all) as [|a rest]; [lia|].
    apply IH. unfold select. cbn [day_attractions]. rewrite length_app.
    simpl. lia.
Qed.

(** A day that finds room among attractions of distinct identifiers takes
    as many attractions as a day may hold. *)
Lemma plan_day_full (city : string) (per_day : nat)
    (all : list attraction) (groups : list (string * list attraction))
    (used : gset string) (d : nat) :
  List.NoDup (List.map attraction_id all) ->
  (forall g a, In g groups -> In a (snd g) -> In a all) ->
  (size used + per_day <= length all)%nat ->
  length (attraction_details (fst (plan_day city per_day all groups used d)))
  = per_day.
Proof.
  intros Hnd Hg Hroom. unfold plan_day. cbn [fst attraction_details].
  destruct (diverse_pass_count all used per_day groups _ Hg
              (day_count_start all used) (Nat.le_0_l per_day))
    as [Hc1 Hl1].
  destruct (fill_count all used
              (per_day - length (day_attractions
                                   (diverse_pass per_day groups
                                      {| day_attractions := [];
                                         day_cost := 50;
                                         used_attractions := used |})))
              _ Hnd Hc1) as [_ Hlen]; [lia|].
  rewrite Hlen. lia.
Qed.

Lemma plan_days_shape (city : string) (per_day : nat)
    (all : list attraction) (groups : list (string * list attraction))
    (ds : list nat) (acc : list day_plan * gset string) :
  (forall g a, In g groups -> In a (snd g) -> In a all) ->
  Forall (day_well_formed all) (fst acc) ->
  size (snd acc) = length (all_ids (fst acc)) ->
  let res :=
    fold_left
      (fun acc d =>
         let '(plan, used) := plan_day city per_day all groups (snd acc) d in
         (fst acc ++ [plan], used))
      ds acc in
  Forall (day_well_formed all) (fst res)
  /\ List.map day (fst res)
     = List.map day (fst acc) ++ List.map Z.of_nat ds
  /\ size (snd res) = length (all_ids (fst res)).
Proof.
  intros Hg. revert acc.
  induction ds as [|d ds IH]; intros acc Hwf Hsize; cbv zeta.
  - simpl. rewrite app_nil_r. auto.
  - cbn [fold_left].
    pose proof (plan_day_well_formed city per_day all groups (snd acc) d Hg)
      as Hd.
    cbv zeta in Hd.
    destruct (plan_day city per_day all groups (snd acc) d) as [plan used'].
    cbn [fst snd] in Hd. destruct Hd as (Hp & Hday & Hsz & _).
    specialize (IH (fst acc ++ [plan], used')). cbv zeta in IH.
    cbn [fst snd] in IH.
    destruct IH as (H1 & H2 & H3).
    + apply Forall_app. split; [exact Hwf|].
      constructor; [exact Hp | constructor].
    + rewrite all_ids_app, length_app, Hsz, Hsize. f_equal.
      unfold all_ids, day_ids. simpl. rewrite app_nil_r, length_map.
      reflexivity.
    + split; [exact H1|]. split; [|exact H3].
      rewrite H2, List.map_app. simpl. rewrite Hday, <- app_assoc.
      reflexivity.
Qed.

Lemma plan_days_full (city : string) (per_day : nat)
    (all : list attraction) (groups : list (string * list attraction))
    (ds : list nat) (acc : list day_plan * gset string) :
  List.NoDup (List.map attraction_id all) ->
  (forall g a, In g groups -> In a (snd g) -> In a all) ->
  (size (snd acc) + length ds * per_day <= length all)%nat ->
  Forall (fun d => length (attraction_details d) = per_day) (fst acc) ->
  Forall (fun d => length (attraction_details d) = per_day)
    (fst (fold_left
            (fun acc d =>
               let '(plan, used) :=
                 plan_day city per_day all groups (snd acc) d in
               (fst acc ++ [plan], used))
            ds acc)).
Proof.
  intros Hnd Hg. revert acc.
  induction ds as [|d ds IH]; intros acc Hroom Hfull; [exact Hfull|].
  cbn [fold_left]. cbn [length] in Hroom.
  pose proof (plan_day_full city per_day all groups (snd acc) d Hnd Hg)
    as Hlen.
  pose proof (plan_day_well_formed city per_day all groups (snd acc) d Hg)
    as Hd.
  cbv zeta in Hd.
  destruct (plan_day city per_day all groups (snd acc) d) as [plan used'].
  cbn [fst snd] in Hd, Hlen. destruct Hd as (_ & _ & Hsz & _).
  assert (Hl : length (attraction_details plan) = per_day)
    by (apply Hlen; lia).
  apply IH; cbn [fst snd].
  - rewrite Hsz, Hl. lia.
  - apply Forall_app. split; [exact Hfull|].
    constructor; [exact Hl | constructor].
Qed.

Lemma NoDup_map_filter {A B} (f : A -> B) (q : A -> bool) (l : list A) :
  List.NoDup (List.map f l) -> List.NoDup (List.map f (List.filter q l)).
Proof.
  induction l as [|x l IH]; simpl; intros H; [constructor|].
  apply List.NoDup_cons_iff in H as [Hx Hl].
  destruct (q x); simpl; [|apply IH, Hl].
  constructor; [|apply IH, Hl].
  intros Hin. apply Hx. apply in_map_iff in Hin as (y & Hy & Hin).
  apply in_map_iff. exists y. split; [exact Hy|].
  apply filter_In in Hin. tauto.
Qed.

Lemma NoDup_map_insert {A B} (f : A -> B) (le : A -> A -> bool) (x : A)
    (l : list A) :
  List.NoDup (List.map f (x :: l)) ->
  List.NoDup (List.map f (Seq.insert le x l)).
Proof.
  induction l as [|y l IH]; simpl; intros H; [exact H|].
  destruct (le x y); [exact H|]. simpl.
  apply List.NoDup_cons_iff in H as [Hx H].
  apply List.NoDup_cons_iff in H as [Hy Hl].
  constructor.
  - intros Hin. apply in_map_iff in Hin as (z & Hz & Hin).
    apply In_insert in Hin as [->|Hin].
    + apply Hx. left. symmetry. exact Hz.
    + apply Hy. rewrite <- Hz. apply in_map, Hin.
  - apply IH. simpl. constructor; [|exact Hl].
    intros Hin. apply Hx. right. exact Hin.
Qed.

Lemma NoDup_map_sort {A B} (f : A -> B) (le : A -> A -> bool) (l : list A) :
  List.NoDup (List.map f l) -> List.NoDup (List.map f (Seq.sort le l)).
Proof.
  induction l as [|x l IH]; intros H; [constructor|].
  change (Seq.sort le (x :: l)) with (Seq.insert le x (Seq.sort le l)).
  apply NoDup_map_insert. simpl in *.
  apply List.NoDup_cons_iff in H as [Hx Hl].
  constructor; [|apply IH, Hl].
  intros Hin. apply Hx. apply in_map_iff in Hin as (y & Hy & Hin).
  apply In_sort in Hin. rewrite <- Hy. apply in_map, Hin.
Qed.

Lemma NoDup_map_firstn {A B} (f : A -> B) (n : nat) (l : list A) :
  List.NoDup (List.map f l) -> List.NoDup (List.map f (firstn n l)).
Proof.
  intros H. rewrite <- (firstn_skipn n l), List.map_app in H.
  apply List.NoDup_app_remove_r in H. exact H.
Qed.

Lemma get_attractions_default (attractions_df : list attraction)
    (city : pyval) (ap : attractions_payload) :
  get_attractions attractions_df city PNone PNone = Success ap ->
  exists c,
    as_str city = Some c
    /\ attractions ap
       = firstn 12
           (Seq.sort (by_rating_then a_rating entry_fee)
              (List.filter (in_city a_city (normalize_city c))
                 attractions_df)).
Proof.
  intros H.
  apply get_attractions_success
    in H as (c & r1 & r2 & Hc & _ & H1 & H2 & _ & Hp & _).
  exists c. split; [exact Hc|].
  apply Success_inj in H1, H2. subst r1 r2. exact Hp.
Qed.

(** What a generated itinerary is made of. *)
Lemma create_itinerary_generated (attractions_df : list attraction)
    (itinerary_templates : template_store)
    (city duration_days interests : pyval) (p : itinerary_payload) :
  create_itinerary attractions_df itinerary_templates city duration_days
    interests = Success p ->
  itinerary_type p = "custom_generated"%string ->
  exists c n ap,
    as_str city = Some c /\ as_int duration_days = Some n
    /\ (1 <= n <= 14)%Z
    /\ get_attractions attractions_df (PStr (normalize_city c)) PNone PNone
       = Success ap
    /\ (2 * Z.to_nat n <= length (attractions ap))%nat
    /\ itinerary p
       = fst (plan_days (normalize_city c)
                (Nat.max 2 (length (attractions ap) / Z.to_nat n))
                (attractions ap) (categorize (attractions ap)) (Z.to_nat n))
    /\ attractions_included p
       = Some (size (snd (plan_days (normalize_city c)
                (Nat.max 2 (length (attractions ap) / Z.to_nat n))
                (attractions ap) (categorize (attractions ap))
                (Z.to_nat n)))).
Proof.
  unfold create_itinerary. intros H Hty.
  destruct (as_str city) as [c|]; [|discriminate H].
  destruct (String.eqb c ""); [discriminate H|].
  destruct (as_int duration_days) as [n|]; [|discriminate H].
  destruct (_ || _) eqn:En; [discriminate H|].
  apply orb_false_elim in En as [En1 En2]. apply Z.ltb_ge in En1, En2.
  destruct (itinerary_templates !! normalize_city c ≫= _) as [tpl|].
  { apply Success_inj in H. subst p. discriminate Hty. }
  destruct (get_attractions _ _ _ _) as [ap|e] eqn:Hap; [|discriminate H].
  cbn [bind] in H.
  destruct (_ <? _)%Z eqn:El; [discriminate H|]. apply Z.ltb_ge in El.
  destruct (plan_days _ _ _ _ _) as [plans used] eqn:Ep.
  apply Success_inj in H. subst p. cbn [itinerary attractions_included].
  exists c, n, ap. rewrite Ep. cbn [fst snd].
  repeat split; try reflexivity; try lia. exact Hap.
Qed.

(** X10: a generated itinerary has one day for each day of the duration,
    numbered from 1 in order; every day lists attractions that
    [get_attractions] returns for the city, names them as its activities,
    and costs 50 plus their entry fees; the number of attractions
    included is the number of attractions of all days. *)
Theorem generated_itinerary_shape (attractions_df : list attraction)
    (itinerary_templates : template_store)
    (city duration_days interests : pyval) (p : itinerary_payload) :
  create_itinerary attractions_df itinerary_templates city duration_days
    interests = Success p ->
  itinerary_type p = "custom_generated"%string ->
  exists c n ap,
    as_str city = Some c /\ as_int duration_days = Some n
    /\ (1 <= n <= 14)%Z
    /\ get_attractions attractions_df (PStr (normalize_city c)) PNone PNone
       = Success ap
    /\ List.map day (itinerary p)
       = List.map Z.of_nat (seq 1 (Z.to_nat n))
    /\ Forall (day_well_formed (attractions ap)) (itinerary p)
    /\ attractions_included p = Some (length (all_ids (itinerary p))).
Proof.
  intros H Hty.
  destruct (create_itinerary_generated _ _ _ _ _ _ H Hty)
    as (c & n & ap & Hc & Hn & Hr & Hap & _ & Hit & Hinc).
  exists c, n, ap.
  split; [exact Hc|]. split; [exact Hn|]. split; [exact Hr|].
  split; [exact Hap|].
  pose proof (plan_days_shape (normalize_city c)
                (Nat.max 2 (length (attractions ap) / Z.to_nat n))
                (attractions ap) (categorize (attractions ap))
                (seq 1 (Z.to_nat n)) ([], ∅)
                (categorize_sub (attractions ap))) as Hs.
  cbv zeta in Hs. cbn [fst snd] in Hs.
  destruct Hs as (H1 & H2 & H3); [constructor | reflexivity|].
  rewrite Hit, Hinc. unfold plan_days.
  split; [exact H2|]. split; [exact H1|]. f_equal. exact H3.
Qed.

Lemma generated_itinerary_shape_witness :
  exists p,
    create_itinerary sample_attractions ∅ (PStr "paris") (PInt 2) PNone
    = Success p
    /\ List.map day (itinerary p) = [1; 2]%Z
    /\ attractions_included p = Some 4%nat.
Proof.
  destruct (create_itinerary sample_attractions ∅ (PStr "paris") (PInt 2)
              PNone) as [p|e] eqn:E.
  - exists p. split; [reflexivity|].
    assert (Hty : itinerary_type p = "custom_generated"%string)
      by (vm_compute in E; injection E as <-; reflexivity).
    destruct (generated_itinerary_shape _ _ _ _ _ _ E Hty)
      as (c & n & ap & _ & Hn & _ & _ & Hd & _ & _).
    injection Hn as <-.
    split; [exact Hd|].
    vm_compute in E. injection E as <-. reflexivity.
  - vm_compute in E. discriminate E.
Defined.

(** X11: when the attractions of the dataset have distinct identifiers,
    every day of a generated itinerary holds the same number of
    attractions, two at least: no day is left short, and the attractions
    of the itinerary are that number times the days. *)
Theorem generated_days_are_full (attractions_df : list attraction)
    (itinerary_templates : template_store)
    (city duration_days interests : pyval) (p : itinerary_payload) :
  List.NoDup (List.map attraction_id attractions_df) ->
  create_itinerary attractions_df itinerary_templates city duration_days
    interests = Success p ->
  itinerary_type p = "custom_generated"%string ->
  exists k,
    (2 <= k)%nat
    /\ Forall (fun d => length (attraction_details d) = k) (itinerary p)
    /\ length (all_ids (itinerary p)) = (length (itinerary p) * k)%nat.
Proof.
  intros Hnd H Hty.
  destruct (create_itinerary_generated _ _ _ _ _ _ H Hty)
    as (c & n & ap & Hc & Hn & Hr & Hap & Hlen & Hit & _).
  set (all := attractions ap) in *.
  set (k := Nat.max 2 (length all / Z.to_nat n)) in *.
  assert (Hall : List.NoDup (List.map attraction_id all)).
  { unfold all.
    destruct (get_attractions_default _ _ _ Hap) as (c' & _ & ->).
    apply NoDup_map_firstn, NoDup_map_sort, NoDup_map_filter, Hnd. }
  assert (Hroom : (Z.to_nat n * k <= length all)%nat).
  { unfold k. destruct (Nat.max_spec 2 (length all / Z.to_nat n))
      as [[_ ->]|[_ ->]]; [|lia].
    apply Nat.Div0.mul_div_le. }
  exists k. split; [unfold k; lia|].
  assert (Hfull : Forall (fun d => length (attraction_details d) = k)
                    (itinerary p)).
  { rewrite Hit. unfold plan_days.
    apply plan_days_full; [exact Hall | apply categorize_sub | | constructor].
    cbn [snd]. rewrite size_empty, length_seq. lia. }
  split; [exact Hfull|].
  clear - Hfull. induction Hfull as [|d l Hd _ IH]; [reflexivity|].
  unfold all_ids in *. simpl. rewrite length_app, IH.
  unfold day_ids. rewrite length_map, Hd. lia.
Qed.

Lemma generated_days_are_full_witness :
  exists p,
    create_itinerary sample_attractions ∅ (PStr "paris") (PInt 2) PNone
    = Success p
    /\ Forall (fun d => length (attraction_details d) = 2%nat) (itinerary p).
Proof.
  assert (Hnd : List.NoDup (List.map attraction_id sample_attractions)).
  { simpl. repeat constructor; simpl; intuition discriminate. }
  destruct (create_itinerary sample_attractions ∅ (PStr "paris") (PInt 2)
              PNone) as [p|e] eqn:E.
  - exists p. split; [reflexivity|].
    assert (Hty : itinerary_type p = "custom_generated"%string)
      by (vm_compute in E; injection E as <-; reflexivity).
    destruct (generated_days_are_full _ _ _ _ _ _ Hnd E Hty)
      as (k & _ & Hall & _).
    vm_compute in E. injection E as <-.
    repeat constructor.
  - vm_compute in E. discriminate E.
Defined.

(** X12: a curated template comes first: when the store holds a template
    for the city and the duration, it is the itinerary that is returned,
    whatever the attractions dataset holds, even nothing, and whatever
    the interests. *)
Theorem curated_template_comes_first (attractions_df : list attraction)
    (itinerary_templates : template_store) (c : string) (n : Z)
    (interests : pyval) (t : gmap string (list day_plan))
    (template : list day_plan) :
  c <> ""%string ->
  (1 <= n <= 14)%Z ->
  itinerary_templates !! normalize_city c = Some t ->
  t !! (py_str (PInt n) +:+ "_days") = Some template ->
  exists p,
    create_itinerary attractions_df itinerary_templates (PStr c) (PInt n)
      interests = Success p
    /\ itinerary p = template
    /\ itinerary_type p = "curated_template"%string
    /\ create_itinerary [] itinerary_templates (PStr c) (PInt n) PNone
       = Success p.
Proof.
  intros Hc Hn Ht Hk. unfold create_itinerary. cbn [as_str as_int].
  rewrite (string_nonempty c Hc).
  assert (Hr : ((n <? 1)%Z || (14 <? n)%Z) = false)
    by (apply orb_false_intro; apply Z.ltb_ge; lia).
  rewrite Hr, Ht. cbn [mbind option_bind]. rewrite Hk.
  eexists. repeat split.
Qed.

Lemma curated_template_comes_first_witness :
  exists p,
    create_itinerary [] sample_templates (PStr " paris") (PInt 2) PNone
    = Success p
    /\ List.length (itinerary p) = 2%nat.
Proof.
  assert (Hc : " paris"%string <> ""%string) by discriminate.
  assert (Hn : (1 <= 2 <= 14)%Z) by lia.
  destruct (sample_templates !! normalize_city " paris") as [t|] eqn:Et;
    [|vm_compute in Et; discriminate Et].
  destruct (t !! (py_str (PInt 2) +:+ "_days")) as [tpl|] eqn:Ek.
  - destruct (curated_template_comes_first [] sample_templates " paris" 2
                PNone t tpl Hc Hn Et Ek) as (p & Hp & Hit & _).
    exists p. split; [exact Hp|].
    vm_compute in Hp. injection Hp as <-. reflexivity.
  - vm_compute in Et. injection Et as <-. vm_compute in Ek. discriminate Ek.
Defined.

End GeneratedDays.

(** ** City names are normalised once and for all *)

(** A text does not start with whitespace. *)
Definition no_lead (s : PyStr.chars) : bool :=
  match s with
  | [] => true
  | c :: _ => negb (PyStr.is_space c)
  end.

(** Two texts have whitespace at the same places. *)
Definition same_blanks (s t : PyStr.chars) : Prop :=
  Forall2 (fun a b => PyStr.is_space a = PyStr.is_space b) s t.

Section Normalising.
Import Planner Num.

Lemma no_lead_lstrip (s : chars) : no_lead (lstrip s) = true.
Proof.
  induction s as [|c s IH]; [reflexivity|]. simpl.
  destruct (is_space c) eqn:E; [exact IH|]. simpl. rewrite E. reflexivity.
Qed.

Lemma lstrip_no_lead (s : chars) : no_lead s = true -> lstrip s = s.
Proof.
  destruct s as [|c s]; [reflexivity|]. simpl.
  destruct (is_space c); [discriminate | reflexivity].
Qed.

Lemma lstrip_nil (s : chars) : lstrip s = [] -> forallb is_space s = true.
Proof.
  induction s as [|c s IH]; [reflexivity|]. simpl.
  destruct (is_space c); [exact IH | discriminate].
Qed.

Lemma no_lead_rstrip (s : chars) :
  no_lead s = true -> no_lead (rstrip s) = true.
Proof.
  destruct s as [|c s]; [reflexivity|]. simpl. intros Hc.
  unfold rstrip.
  destruct (lstrip_split (rev (c :: s))) as (sp & Hsp & _).
  destruct (rev (lstrip (rev (c :: s)))) as [|x l] eqn:E; [reflexivity|].
  assert (Hrev : c :: s = (x :: l) ++ rev sp).
  { rewrite <- E, <- rev_app_distr, <- Hsp, rev_involutive. reflexivity. }
  injection Hrev as -> _. exact Hc.
Qed.

Lemma strip_stripped (s : chars) :
  no_lead (strip s) = true /\ no_lead (rev (strip s)) = true.
Proof.
  unfold strip. split.
  - apply no_lead_rstrip, no_lead_lstrip.
  - unfold rstrip. rewrite rev_involutive. apply no_lead_lstrip.
Qed.

Lemma strip_fixed (s : chars) :
  no_lead s = true -> no_lead (rev s) = true -> strip s = s.
Proof.
  intros H1 H2. unfold strip, rstrip.
  rewrite (lstrip_no_lead s H1), (lstrip_no_lead (rev s) H2).
  apply rev_involutive.
Qed.

Lemma is_space_not_alpha (c : ascii) : is_alpha c = true -> is_space c = false.
Proof.
  destruct c as [[] [] [] [] [] [] [] []]; simpl; intros H;
    try reflexivity; discriminate H.
Qed.

Lemma is_alpha_upper_char (c : ascii) : is_alpha (upper_char c) = is_alpha c.
Proof. destruct c as [[] [] [] [] [] [] [] []]; reflexivity. Qed.

Lemma upper_char_idem (c : ascii) : upper_char (upper_char c) = upper_char c.
Proof. destruct c as [[] [] [] [] [] [] [] []]; reflexivity. Qed.

Lemma title_aux_blanks (b : bool) (s : chars) :
  same_blanks s (title_aux b s).
Proof.
  revert b. induction s as [|c s IH]; intros b; [constructor|].
  simpl. destruct (is_alpha c) eqn:E; constructor; try apply IH;
    try reflexivity.
  rewrite (is_space_not_alpha c E). symmetry. apply is_space_not_alpha.
  destruct b; [rewrite is_alpha_lower_char | rewrite is_alpha_upper_char];
    exact E.
Qed.

Lemma same_blanks_rev (s t : chars) :
  same_blanks s t -> same_blanks (rev s) (rev t).
Proof.
  unfold same_blanks. induction 1 as [|a b s t Hab _ IH]; [constructor|].
  simpl. apply Forall2_app; [exact IH|]. constructor; [exact Hab|constructor].
Qed.

Lemma same_blanks_no_lead (s t : chars) :
  same_blanks s t -> no_lead t = no_lead s.
Proof. destruct 1 as [|a b s t Hab _]; [reflexivity|]. simpl. now rewrite Hab. Qed.

Lemma title_aux_idem (b : bool) (s : chars) :
  title_aux b (title_aux b s) = title_aux b s.
Proof.
  revert b. induction s as [|c s IH]; intros b; [reflexivity|].
  simpl. destruct (is_alpha c) eqn:E; simpl.
  - destruct b.
    + rewrite is_alpha_lower_char, E, lower_char_idem, IH. reflexivity.
    + rewrite is_alpha_upper_char, E, upper_char_idem, IH. reflexivity.
  - rewrite E, IH. reflexivity.
Qed.

Lemma of_to_string (s : chars) : of_string (to_string s) = s.
Proof. apply list_ascii_of_string_of_list_ascii. Qed.

(** [strip().title()] leaves a normalised name as it is. *)
Lemma normalize_city_idempotent (c : string) :
  normalize_city (normalize_city c) = normalize_city c.
Proof.
  unfold normalize_city. rewrite of_to_string. f_equal.
  set (s := strip (of_string c)).
  destruct (strip_stripped (of_string c)) as [H1 H2]. fold s in H1, H2.
  pose proof (title_aux_blanks false s) as Hb. fold (title s) in Hb.
  rewrite strip_fixed.
  - apply title_aux_idem.
  - rewrite (same_blanks_no_lead _ _ Hb). exact H1.
  - rewrite (same_blanks_no_lead _ _ (same_blanks_rev _ _ Hb)). exact H2.
Qed.



(** A name of whitespace only is the exception: it is refused once
    normalised, and looked up as the empty city otherwise. *)
Lemma blank_city_is_looked_up :
  search_hotels sample_hotels (PStr " ") PNone PNone PNone
  <> search_hotels sample_hotels (PStr (normalize_city " ")) PNone PNone
       PNone.
Proof. vm_compute. discriminate. Qed.

End Normalising.

(** ** Budget estimates *)

(** The three arguments of a budget estimate that the function accepts:
    a city that is a string with a character, a number of days that is an
    integer from 1 to 30, a category that is one of the three names. *)
Definition estimate_arguments (city duration_days category : pyval)
  : Prop :=
  exists c n k,
    as_str city = Some c /\ c <> ""%string
    /\ as_int duration_days = Some n /\ (1 <= n <= 30)%Z
    /\ as_str category = Some k /\ In k Planner.valid_categories.

Section Estimates.
Import Planner Num.
Local Open Scope Q_scope.

Lemma mem_In (x : string) (l : list string) :
  Seq.mem x l = true <-> In x l.
Proof.
  unfold Seq.mem. rewrite existsb_exists. split.
  - intros (y & Hy & E). apply String.eqb_eq in E. subst y. exact Hy.
  - intros H. exists x. split; [exact H | apply String.eqb_refl].
Qed.

Lemma budget_total_positive (hotels_df : list hotel)
    (attractions_df : list attraction) (city category : string) (n : Z) :
  nonnegative_data hotels_df attractions_df ->
  (1 <= n)%Z ->
  46 <= inject_Z (average_hotel_price hotels_df city category * n)
        + average_attraction_cost attractions_df city n * inject_Z n
          * (5 # 2)
        + inject_Z (lookup_default meal_costs city 50%Z * n)
        + inject_Z ((if Seq.mem city ["New York"; "London"; "Paris"]%string
                     then 30%Z else 20%Z) * n)
        + (inject_Z (average_hotel_price hotels_df city category * n)
           + average_attraction_cost attractions_df city n * inject_Z n
             * (5 # 2)
           + inject_Z (lookup_default meal_costs city 50%Z * n)
           + inject_Z ((if Seq.mem city ["New York"; "London"; "Paris"]%string
                        then 30%Z else 20%Z) * n))
          * (15 # 100).
Proof.
  intros [Hh Ha] Hn.
  pose proof (average_hotel_price_nonneg hotels_df city category Hh) as Hprice.
  pose proof (average_attraction_cost_nonneg attractions_df city n Ha) as Hfee.
  assert (Hmeal : (20 <= lookup_default meal_costs city 50)%Z).
  { apply (lookup_default_prop (fun z => (20 <= z)%Z)); [|lia].
    intros kv Hkv. simpl in Hkv.
    repeat (destruct Hkv as [<-|Hkv]; [simpl; lia|]). destruct Hkv. }
  set (hp := average_hotel_price hotels_df city category) in *.
  set (ac := average_attraction_cost attractions_df city n) in *.
  set (md := lookup_default meal_costs city 50%Z) in *.
  set (td := if Seq.mem city ["New York"; "London"; "Paris"]%string
             then 30%Z else 20%Z) in *.
  assert (Htd : (20 <= td)%Z).
  { unfold td. destruct (Seq.mem city _); lia. }
  assert (HA : 0 <= inject_Z (hp * n)) by (rewrite <- (Zle_Qle 0); nia).
  assert (HT : 0 <= ac * inject_Z n * (5 # 2)).
  { apply Qmult_le_0_compat; [|lra].
    apply Qmult_le_0_compat; [exact Hfee|]. rewrite <- (Zle_Qle 0). lia. }
  assert (HM : 20 <= inject_Z (md * n)) by (rewrite <- (Zle_Qle 20); nia).
  assert (HR : 20 <= inject_Z (td * n)) by (rewrite <- (Zle_Qle 20); nia).
  clearbody hp ac md td. lra.
Qed.

(** X14: on datasets without negative prices or fees, a budget estimate
    is given exactly when the city is a string with a character, the
    number of days an integer from 1 to 30 and the category one of
    luxury, mid-range and budget, written that way: the city need not be
    one of the datasets, and the estimate is for the normalised city, the
    days and the category of the request, with a total of 46 a day at
    least before rounding. *)
Theorem budget_estimate_given_iff (hotels_df : list hotel)
    (attractions_df : list attraction)
    (city duration_days accommodation_category : pyval) :
  nonnegative_data hotels_df attractions_df ->
  (is_success (get_travel_budget_estimate hotels_df attractions_df city
                 duration_days accommodation_category) = true
   <-> estimate_arguments city duration_days accommodation_category)
  /\ (forall p,
        get_travel_budget_estimate hotels_df attractions_df city
          duration_days accommodation_category = Success p ->
        exists c k,
          as_str city = Some c /\ as_str accommodation_category = Some k
          /\ bp_city p = normalize_city c
          /\ bp_duration_days p = duration_days
          /\ bp_accommodation_category p = k
          /\ 46 - (1 # 200) <= bb_total (budget_breakdown p)).
Proof.
  intros Hdata. unfold get_travel_budget_estimate, estimate_arguments.
  destruct (as_str city) as [c|];
    [|split; [split; [discriminate|intros (?&?&?&?&_); discriminate]
             |discriminate]].
  destruct (String.eqb_spec c "") as [->|Hc];
    [split; [split; [discriminate|intros (?&?&?&E&?&_); injection E as <-;
                                   contradiction]
            |discriminate]|].
  destruct (as_int duration_days) as [n|];
    [|split; [split; [discriminate|intros (?&?&?&_&_&?&_); discriminate]
             |discriminate]].
  destruct (_ || _) eqn:En.
  { split; [split; [discriminate|]|discriminate].
    intros (?&n'&?&_&_&E&Hn&_). injection E as <-.
    apply orb_true_iff in En as [En|En]; apply Z.ltb_lt in En; lia. }
  apply orb_false_elim in En as [En1 En2]. apply Z.ltb_ge in En1, En2.
  destruct (as_str accommodation_category) as [k|];
    [|split; [split; [discriminate|intros (?&?&?&_&_&_&_&?&_); discriminate]
             |discriminate]].
  destruct (Seq.mem k valid_categories) eqn:Ek; cbn [negb].
  2:{ split; [split; [discriminate|]|discriminate].
      intros (?&?&k'&_&_&_&_&E&Hk). injection E as <-.
      apply mem_In in Hk. congruence. }
  pose proof (budget_total_positive hotels_df attractions_df
                (normalize_city c) k n Hdata En1) as Hpos.
  cbv zeta.
  match type of Hpos with 46 <= ?t => set (total := t) in * end.
  destruct (Qeq_bool total 0) eqn:Ez.
  { apply Qeq_bool_eq in Ez. rewrite Ez in Hpos. lra. }
  split.
  - split; [intros _|reflexivity].
    exists c, n, k. apply mem_In in Ek.
    repeat split; try assumption; try lia.
  - intros p Hp. apply Success_inj in Hp. subst p.
    exists c, k. cbn [bp_city bp_duration_days bp_accommodation_category
                      budget_breakdown bb_total].
    repeat split.
    pose proof (py_round_2_error total). lra.
Qed.

Lemma budget_estimate_given_iff_witness :
  is_success (get_travel_budget_estimate sample_hotels sample_attractions
                (PStr "atlantis") (PInt 30) (PStr "luxury")) = true.
Proof.
  assert (Hdata : nonnegative_data sample_hotels sample_attractions).
  { split; intros x Hx; simpl in Hx;
      repeat (destruct Hx as [<-|Hx]; [simpl; lia|]); destruct Hx. }
  apply (proj1 (budget_estimate_given_iff sample_hotels sample_attractions
                  (PStr "atlantis") (PInt 30) (PStr "luxury") Hdata)).
  exists "atlantis"%string, 30%Z, "luxury"%string.
  repeat split; try reflexivity; try discriminate; try lia.
  simpl. tauto.
Defined.

Lemma filter_absent {A} (city_of : A -> string) (rows : list A)
    (c : string) :
  city_absent city_of rows c ->
  List.filter (in_city city_of (normalize_city (normalize_city c))) rows = [].
Proof.
  intros Habs. apply filter_nil_iff. intros row Hrow. unfold in_city.
  apply String.eqb_neq. rewrite normalize_city_idempotent.
  apply (Habs row Hrow).
Qed.

Lemma average_hotel_price_absent (hotels_df : list hotel) (c k : string) :
  city_absent h_city hotels_df c ->
  average_hotel_price hotels_df (normalize_city c) k
  = fallback_hotel_price (normalize_city c) k.
Proof.
  intros Habs. unfold average_hotel_price, search_hotels. cbn [as_str].
  destruct (String.eqb (normalize_city c) ""); [reflexivity|].
  destruct hotels_df as [|h0 df] eqn:Edf; [reflexivity|].
  rewrite <- Edf in *. rewrite (filter_absent _ _ _ Habs).
  reflexivity.
Qed.

Lemma average_attraction_cost_absent (attractions_df : list attraction)
    (c : string) (n : Z) :
  city_absent a_city attractions_df c ->
  average_attraction_cost attractions_df (normalize_city c) n = 20.
Proof.
  intros Habs. unfold average_attraction_cost, get_attractions. cbn [as_str].
  destruct (String.eqb (normalize_city c) ""); [reflexivity|].
  destruct attractions_df as [|a0 df] eqn:Edf; [reflexivity|].
  rewrite <- Edf in *. rewrite (filter_absent _ _ _ Habs).
  reflexivity.
Qed.

(** X15: for a city that has no row in the hotels and in the attractions
    datasets, the budget estimate does not depend on the datasets: it is
    the estimate made without any data, from the base price of the
    category times the multiplier of the city, cut to an integer, and
    from 20 for an attraction. *)
Theorem budget_estimate_without_data (hotels_df : list hotel)
    (attractions_df : list attraction) (c : string)
    (duration_days accommodation_category : pyval) :
  city_absent h_city hotels_df c ->
  city_absent a_city attractions_df c ->
  get_travel_budget_estimate hotels_df attractions_df (PStr c) duration_days
    accommodation_category
  = get_travel_budget_estimate [] [] (PStr c) duration_days
      accommodation_category
  /\ (forall p,
        get_travel_budget_estimate hotels_df attractions_df (PStr c)
          duration_days accommodation_category = Success p ->
        exists n,
          as_int duration_days = Some n
          /\ sh_total (bb_accommodation (budget_breakdown p))
             = py_round
                 (inject_Z
                    (fallback_hotel_price (normalize_city c)
                       (bp_accommodation_category p) * n)) 2
          /\ avg_per_attraction (budget_breakdown p) = py_round 20 2).
Proof.
  intros Hh Ha.
  assert (Hnil : forall A (f : A -> string), city_absent f [] c)
    by (intros A f row []).
  unfold get_travel_budget_estimate. cbn [as_str].
  destruct (String.eqb c ""); [split; [reflexivity|discriminate]|].
  destruct (as_int duration_days) as [n|];
    [|split; [reflexivity|discriminate]].
  destruct (_ || _); [split; [reflexivity|discriminate]|].
  destruct (as_str accommodation_category) as [k|];
    [|split; [reflexivity|discriminate]].
  destruct (negb _); [split; [reflexivity|discriminate]|].
  rewrite (average_hotel_price_absent hotels_df c k Hh),
    (average_attraction_cost_absent attractions_df c n Ha),
    (average_hotel_price_absent [] c k (Hnil _ _)),
    (average_attraction_cost_absent [] c n (Hnil _ _)).
  split; [reflexivity|].
  cbv zeta. destruct (Qeq_bool _ 0); [discriminate|].
  intros p Hp. apply Success_inj in Hp. subst p.
  exists n. repeat split.
Qed.

Lemma budget_estimate_without_data_witness :
  get_travel_budget_estimate sample_hotels sample_attractions (PStr "oslo")
    (PInt 2) (PStr "budget")
  = get_travel_budget_estimate [] [] (PStr "oslo") (PInt 2) (PStr "budget").
Proof.
  assert (Hh : city_absent h_city sample_hotels "oslo").
  { intros row Hrow. simpl in Hrow.
    repeat (destruct Hrow as [<-|Hrow]; [vm_compute; discriminate|]).
    destruct Hrow. }
  assert (Ha : city_absent a_city sample_attractions "oslo").
  { intros row Hrow. simpl in Hrow.
    repeat (destruct Hrow as [<-|Hrow]; [vm_compute; discriminate|]).
    destruct Hrow. }
  exact (proj1 (budget_estimate_without_data sample_hotels sample_attractions
                  "oslo" (PInt 2) (PStr "budget") Hh Ha)).
Defined.

End Estimates.

(** ** Turns of the chat endpoint *)

(** [session['off_topic_warnings'] += 1] *)
Definition warned (s : Chat.session) : Chat.session :=
  {| Chat.messages := Chat.messages s;
     Chat.created_at := Chat.created_at s;
     Chat.message_count := Chat.message_count s;
     Chat.off_topic_warnings := Chat.off_topic_warnings s + 1;
     Chat.security_violations := Chat.security_violations s |}.

(** The same collaborators with another model. *)
Definition with_model (e : Chat.env)
    (model : list Chat.message -> option Chat.model_reply) : Chat.env :=
  {| Chat.now := Chat.now e; Chat.pick := Chat.pick e;
     Chat.converse := model;
     Chat.json_args := Chat.json_args e; Chat.invoke := Chat.invoke e |}.

(** What the model may be shown in a turn: the system prompt, the last
    ten entries of the history, the message of the user and, in a second
    call, the function call and its result. *)
Definition model_context (history : list Chat.message) (user_message : string)
    (context : list Chat.message) : Prop :=
  exists extra,
    context
    = Chat.text_message "system" Chat.system_prompt
        :: Chat.last10 history
        ++ Chat.text_message "user" user_message :: extra
    /\ (extra = [] \/ length extra = 2%nat).

(** The entries a turn adds to a history: the message of the user, then
    the answer of the assistant, with the function call and its result
    in between when the model asked for a function and answered after
    it. *)
Definition turn_entries (user_message : string)
    (said : option string) (new : list Chat.message) : Prop :=
  exists between,
    new = Chat.text_message "user" user_message :: between
          ++ [ {| Chat.role := "assistant"; Chat.content := said;
                  Chat.m_name := None; Chat.m_function_call := None |} ]
    /\ (between = []
        \/ exists name shown_args shown_result,
             between
             = [ {| Chat.role := "assistant"; Chat.content := None;
                    Chat.m_name := None;
                    Chat.m_function_call := Some (name, shown_args) |};
                 {| Chat.role := "function";
                    Chat.content := Some shown_result;
                    Chat.m_name := Some name;
                    Chat.m_function_call := None |} ]
             /\ In name Chat.function_names).

Section Turns.
Import Chat.

Lemma chat_body_message (sessions : store) (raw session_id : string)
    (e : env) :
  clean raw <> ""%string ->
  chat_body sessions (request raw session_id) e
  = let s := counted (session_of sessions session_id e) in
    let sessions1 := <[session_id := s]> sessions in
    if (50 <? message_count s)%Z then (sessions1, inr rate_limited)
    else
      let v := validate_content (PStr (clean raw)) session_id (pick e) in
      if negb (is_safe v) then
        if (2 <=? security_violations s + 1)%Z
        then (<[session_id := fresh (now e)]> sessions1, inr fresh_start)
        else (<[session_id := violated s]> sessions1,
              inr (block_message (security_violations s + 1)))
      else if negb (is_travel v) then
        (<[session_id := warned s]> sessions1,
         inr (off_topic_message (off_topic_warnings s + 1) v))
      else converse_turn sessions1 session_id s (clean raw) e.
Proof.
  intros Hne. unfold chat_body, request.
  cbn [b_message b_session_id from_option id].
  fold (clean raw).
  change (default (fresh (now e)) (sessions !! session_id))
    with (session_of sessions session_id e).
  apply String.eqb_neq in Hne. rewrite Hne. reflexivity.
Qed.

Lemma converse_turn_cases (sessions : store) (session_id : string)
    (s : session) (user_message : string) (e : env) :
  (exists x,
     converse_turn sessions session_id s user_message e = (sessions, inl x))
  \/ (exists r,
        converse_turn sessions session_id s user_message e
        = (sessions, inr r)
        /\ r_success r = false /\ (400 <= status r)%nat
        /\ status r <> 429%nat
        /\ travel_query r = false /\ session_reset r = false)
  \/ (exists new r,
        converse_turn sessions session_id s user_message e
        = (<[session_id := extend s new]> sessions, inr r)
        /\ turn_entries user_message (r_message r) new
        /\ travel_query r = true /\ status r = 200%nat
        /\ session_reset r = false).
Proof.
  unfold converse_turn.
  destruct (converse e _) as [[|text [[name arguments]|]]|].
  - left. eexists. reflexivity.
  - destruct (json_args e arguments) as [shown|].
    2:{ right. left. eexists. split; [reflexivity|]. simpl.
        split; [reflexivity|]. split; [lia|]. split; [lia|].
        split; reflexivity. }
    destruct (Seq.mem name function_names) eqn:Hname.
    2:{ right. left. eexists. split; [reflexivity|]. simpl.
        split; [reflexivity|]. split; [lia|]. split; [lia|].
        split; reflexivity. }
    destruct (invoke e name arguments) as [res|].
    2:{ left. eexists. reflexivity. }
    destruct (converse e _) as [[|final other]|].
    + left. eexists. reflexivity.
    + right. right. eexists. eexists. split; [reflexivity|].
      split; [|repeat split].
      exists [ {| role := "assistant"; content := None; m_name := None;
                  m_function_call := Some (name, shown) |};
               {| role := "function"; content := Some res;
                  m_name := Some name; m_function_call := None |} ].
      split; [reflexivity|]. right.
      exists name, shown, res. split; [reflexivity|].
      unfold Seq.mem in Hname. apply existsb_exists in Hname as (y & Hy & E).
      apply String.eqb_eq in E. subst y. exact Hy.
    + right. right. eexists. eexists. split; [reflexivity|].
      split; [|repeat split].
      exists []. split; [reflexivity | left; reflexivity].
  - right. right. eexists. eexists. split; [reflexivity|].
    split; [|repeat split].
    exists []. split; [reflexivity | left; reflexivity].
  - right. left. eexists. split; [reflexivity|]. simpl.
    split; [reflexivity|]. split; [lia|]. split; [lia|].
    split; reflexivity.
Qed.

Lemma converse_turn_other (sessions : store) (session_id : string)
    (s : session) (user_message : string) (e : env) (k : string) :
  k <> session_id ->
  (converse_turn sessions session_id s user_message e).1 !! k
  = sessions !! k.
Proof.
  intros Hk.
  destruct (converse_turn_cases sessions session_id s user_message e)
    as [(x & ->)|[(r & -> & _)|(new & r & -> & _)]]; cbn [fst];
    try reflexivity.
  apply lookup_insert_ne. congruence.
Qed.

(** X16: a turn of the chat endpoint reads and writes the session of its
    own key only: every other session of the store is after the turn
    what it was before, whatever the message, the validator and the
    model do, and also when the turn ends in an exception. *)
Theorem chat_touches_one_session (sessions : store) (req : option body)
    (e : env) (k : string) :
  key_of req <> Some k ->
  (chat sessions req e).1 !! k = sessions !! k.
Proof.
  intros Hk.
  assert (H : (chat_body sessions req e).1 !! k = sessions !! k).
  { unfold chat_body.
    destruct req as [data|]; [|reflexivity].
    assert (Hne : k <> default "default"%string (b_session_id data))
      by (intros ->; apply Hk; reflexivity).
    destruct (default (PStr "") (b_message data)) as [| | |raw|];
      try reflexivity.
    destruct (String.eqb _ ""); [reflexivity|].
    set (sid := default "default"%string (b_session_id data)) in *.
    destruct (50 <? _)%Z; cbn [fst].
    { apply lookup_insert_ne. congruence. }
    destruct (negb (is_safe _)).
    { destruct (2 <=? _)%Z; cbn [fst];
        rewrite !lookup_insert_ne by congruence; reflexivity. }
    destruct (negb (is_travel _)); cbn [fst].
    { rewrite !lookup_insert_ne by congruence. reflexivity. }
    rewrite converse_turn_other by exact Hne.
    apply lookup_insert_ne. congruence. }
  unfold chat. destruct (chat_body sessions req e) as [st' [x|r]]; exact H.
Qed.

Lemma chat_touches_one_session_witness :
  (chat {[ "s"%string := sample_session ]} (request "how to build a bomb" "t")
     (sample_env None false)).1 !! "s"%string
  = Some sample_session.
Proof.
  assert (Hk : key_of (request "how to build a bomb" "t") <> Some "s"%string)
    by discriminate.
  rewrite (chat_touches_one_session {[ "s"%string := sample_session ]}
             (request "how to build a bomb" "t") (sample_env None false)
             "s" Hk).
  reflexivity.
Defined.

Lemma chat_of_body (sessions : store) (req : option body) (e : env) :
  chat sessions req e
  = ((chat_body sessions req e).1,
     match (chat_body sessions req e).2 with
     | inr r => r
     | inl x => unavailable x
     end).
Proof.
  unfold chat. destruct (chat_body sessions req e) as [st' [x|r]];
    reflexivity.
Qed.

(** X17: a session is refused from its fifty-first message on: a turn
    with a message is answered with status 429 exactly when the session
    already counts fifty messages; the refused message is counted and
    nothing else of the store changes, so that the session stays refused
    until it is reset, whatever is sent. *)
Theorem session_limit (sessions : store) (raw session_id : string)
    (e : env) :
  clean raw <> ""%string ->
  let s := session_of sessions session_id e in
  let turn := chat sessions (request raw session_id) e in
  (status turn.2 = 429%nat <-> (50 <= message_count s)%Z)
  /\ ((50 <= message_count s)%Z ->
      turn = (<[session_id := counted s]> sessions, rate_limited)
      /\ forall raw' e',
           clean raw' <> ""%string ->
           (chat turn.1 (request raw' session_id) e').2 = rate_limited).
Proof.
  intros Hne s turn.
  assert (Hlim : forall st r' (e' : env),
            clean r' <> ""%string ->
            (50 <= message_count (session_of st session_id e'))%Z ->
            chat st (request r' session_id) e'
            = (<[session_id := counted (session_of st session_id e')]> st,
               rate_limited)).
  { intros st r' e' Hr Hc. rewrite chat_of_body, (chat_body_message _ _ _ _ Hr).
    cbv zeta.
    assert (E : (50 <? message_count (counted (session_of st session_id e')))%Z
                = true) by (apply Z.ltb_lt; simpl; lia).
    rewrite E. reflexivity. }
  split.
  - split; [|intros Hc; unfold turn; rewrite (Hlim _ _ _ Hne Hc); reflexivity].
    unfold turn. rewrite chat_of_body, (chat_body_message _ _ _ _ Hne).
    cbv zeta. fold s.
    destruct (50 <? _)%Z eqn:E.
    { intros _. apply Z.ltb_lt in E. simpl in E. lia. }
    destruct (negb (is_safe _)).
    { destruct (2 <=? _)%Z; cbn [snd]; discriminate. }
    destruct (negb (is_travel _)); [cbn [snd]; discriminate|].
    destruct (converse_turn_cases (<[session_id := counted s]> sessions)
                session_id (counted s) (clean raw) e)
      as [(x & ->)|[(r & -> & _ & _ & Hr & _)
                   |(new & r & -> & _ & _ & Hr & _)]];
      cbn [snd]; [discriminate | contradiction | rewrite Hr; discriminate].
  - intros Hc. split; [exact (Hlim _ _ _ Hne Hc)|].
    intros raw' e' Hr. unfold turn. rewrite (Hlim _ _ _ Hne Hc). cbn [fst].
    rewrite Hlim; [reflexivity | exact Hr|].
    unfold session_of at 1. rewrite lookup_insert_eq. simpl.
    fold s. lia.
Qed.

Lemma session_limit_witness :
  chat {[ "s"%string := sample_session ]} (request "hotels in Rome" "s")
    (sample_env None false)
  = (<["s"%string := counted sample_session]>
       {[ "s"%string := sample_session ]},
     rate_limited).
Proof.
  assert (Hne : clean "hotels in Rome" <> ""%string) by discriminate.
  assert (Hc : (50 <= message_count
                        (session_of {[ "s"%string := sample_session ]} "s"
                           (sample_env None false)))%Z)
    by (vm_compute; discriminate).
  exact (proj1 (proj2 (session_limit {[ "s"%string := sample_session ]}
                         "hotels in Rome" "s" (sample_env None false) Hne)
                  Hc)).
Defined.

(** X18: a message that the validator finds safe but not about travel,
    in a session below its limit, is counted as a warning and answered
    as off topic with the number of warnings so far; the history of the
    session is left as it is; from the third warning on the answer is
    one fixed text. *)
Theorem off_topic_turn (sessions : store) (raw session_id : string)
    (e : env) :
  clean raw <> ""%string ->
  let s := session_of sessions session_id e in
  let v := validate_content (PStr (clean raw)) session_id (pick e) in
  (message_count s < 50)%Z ->
  is_safe v = true ->
  is_travel v = false ->
  chat sessions (request raw session_id) e
  = (<[session_id := warned (counted s)]> sessions,
     off_topic_message (off_topic_warnings s + 1) v)
  /\ messages (warned (counted s)) = messages s
  /\ security_violations (warned (counted s)) = security_violations s
  /\ ((2 <= off_topic_warnings s)%Z ->
      r_message (off_topic_message (off_topic_warnings s + 1) v)
      = Some "I can ONLY assist with travel planning. I cannot help with other topics. Please ask about: hotels, attractions, itineraries, travel budgets, or destination recommendations."%string).
Proof.
  intros Hne s v Hc Hsafe Htravel.
  split; [|split; [reflexivity|split; [reflexivity|]]].
  - rewrite chat_of_body, (chat_body_message _ _ _ _ Hne). cbv zeta.
    fold s. fold v.
    assert (E : (50 <? message_count (counted s))%Z = false)
      by (apply Z.ltb_ge; simpl; lia).
    rewrite E, Hsafe, Htravel. cbn [negb fst snd].
    rewrite insert_insert_eq. reflexivity.
  - intros Hw. cbn [off_topic_message r_message]. unfold off_topic_text.
    destruct (Z.eqb_spec (off_topic_warnings s + 1) 1); [lia|].
    destruct (Z.eqb_spec (off_topic_warnings s + 1) 2); [lia|].
    destruct (Z.leb_spec 3 (off_topic_warnings s + 1)); [reflexivity | lia].
Qed.

Lemma off_topic_turn_witness :
  (chat ∅ (request "what is a monad" "s") (sample_env None false)).1
  = {[ "s"%string := warned (counted (fresh 0)) ]}.
Proof.
  assert (Hne : clean "what is a monad" <> ""%string) by discriminate.
  assert (Hc : (message_count (session_of ∅ "s" (sample_env None false))
                < 50)%Z) by (vm_compute; reflexivity).
  assert (Hs : is_safe (validate_content (PStr (clean "what is a monad")) "s"
                          (pick (sample_env None false))) = true)
    by (vm_compute; reflexivity).
  assert (Ht : is_travel (validate_content (PStr (clean "what is a monad"))
                            "s" (pick (sample_env None false))) = false)
    by (vm_compute; reflexivity).
  rewrite (proj1 (off_topic_turn ∅ "what is a monad" "s"
                    (sample_env None false) Hne Hc Hs Ht)).
  reflexivity.
Defined.

(** X19: after a turn with a message the session of the key exists, and
    its history has changed in one of three ways only: it is empty, the
    session being new again after the reset for security; or it is what
    it was, with one message more counted, whenever the answer is not a
    travel answer (limit, block, off topic, failure or exception); or it
    is what it was followed by the entries of the turn, the message of
    the user first and the answer given last, when the answer is a
    travel answer.  Nothing is ever removed from a history but by a
    reset. *)
Theorem chat_history_growth (sessions : store) (raw session_id : string)
    (e : env) :
  clean raw <> ""%string ->
  let s := session_of sessions session_id e in
  let turn := chat sessions (request raw session_id) e in
  exists s',
    turn.1 !! session_id = Some s'
    /\ session_active (session_status turn.1 session_id) = true
    /\ ((turn.2 = fresh_start /\ s' = fresh (now e))
        \/ (travel_query turn.2 = false /\ session_reset turn.2 = false
            /\ messages s' = messages s
            /\ message_count s' = (message_count s + 1)%Z)
        \/ (travel_query turn.2 = true
            /\ (exists new,
                  messages s' = messages s ++ new
                  /\ turn_entries (clean raw) (r_message turn.2) new)
            /\ message_count s' = (message_count s + 1)%Z
            /\ off_topic_warnings s' = off_topic_warnings s
            /\ security_violations s' = security_violations s)).
Proof.
  intros Hne s turn.
  enough (H : exists s',
    turn.1 !! session_id = Some s'
    /\ ((turn.2 = fresh_start /\ s' = fresh (now e))
        \/ (travel_query turn.2 = false /\ session_reset turn.2 = false
            /\ messages s' = messages s
            /\ message_count s' = (message_count s + 1)%Z)
        \/ (travel_query turn.2 = true
            /\ (exists new,
                  messages s' = messages s ++ new
                  /\ turn_entries (clean raw) (r_message turn.2) new)
            /\ message_count s' = (message_count s + 1)%Z
            /\ off_topic_warnings s' = off_topic_warnings s
            /\ security_violations s' = security_violations s))).
  { destruct H as (s' & Hs' & Hcases). exists s'.
    split; [exact Hs'|]. split; [|exact Hcases].
    unfold session_status. rewrite Hs'. reflexivity. }
  unfold turn. rewrite chat_of_body, (chat_body_message _ _ _ _ Hne).
  cbv zeta. fold s.
  destruct (50 <? _)%Z; cbn [fst snd].
  { exists (counted s). rewrite lookup_insert_eq.
    split; [reflexivity|]. right. left. repeat split. }
  destruct (negb (is_safe _)).
  { destruct (2 <=? _)%Z; cbn [fst snd].
    - exists (fresh (now e)). rewrite lookup_insert_eq.
      split; [reflexivity|]. left. split; reflexivity.
    - exists (violated (counted s)). rewrite lookup_insert_eq.
      split; [reflexivity|]. right. left. repeat split. }
  destruct (negb (is_travel _)); cbn [fst snd].
  { exists (warned (counted s)). rewrite lookup_insert_eq.
    split; [reflexivity|]. right. left. repeat split. }
  destruct (converse_turn_cases (<[session_id := counted s]> sessions)
              session_id (counted s) (clean raw) e)
    as [(x & ->)|[(r & -> & _ & _ & _ & Hq & Hr)
                 |(new & r & -> & Hnew & Ht & _ & Hr)]];
    cbn [fst snd].
  - exists (counted s). rewrite lookup_insert_eq.
    split; [reflexivity|]. right. left. repeat split.
  - exists (counted s). rewrite lookup_insert_eq.
    split; [reflexivity|]. right. left. repeat split; assumption.
  - exists (extend (counted s) new). rewrite lookup_insert_eq.
    split; [reflexivity|]. right. right.
    split; [exact Ht|]. split; [|repeat split].
    exists new. split; [reflexivity | exact Hnew].
Qed.

Lemma chat_history_growth_witness :
  exists s',
    (chat ∅ (request " hotels in Paris " "s")
       (sample_env (Some (Choice (Some "Here they are.") None)) false)).1
      !! "s"%string = Some s'
    /\ length (messages s') = 2%nat.
Proof.
  assert (Hne : clean " hotels in Paris " <> ""%string)
    by (vm_compute; discriminate).
  destruct (chat_history_growth ∅ " hotels in Paris " "s"
              (sample_env (Some (Choice (Some "Here they are.") None)) false)
              Hne) as (s' & Hs' & _).
  exists s'. split; [exact Hs'|].
  vm_compute in Hs'. injection Hs' as <-. reflexivity.
Defined.

Lemma length_last10 {A} (l : list A) : (length (last10 l) <= 10)%nat.
Proof. unfold last10. rewrite length_skipn. lia. Qed.

Lemma converse_turn_model (sessions : store) (session_id : string)
    (s : session) (user_message : string) (e : env)
    (model : list message -> option model_reply) :
  (forall context,
     model_context (messages s) user_message context ->
     model context = converse e context) ->
  converse_turn sessions session_id s user_message (with_model e model)
  = converse_turn sessions session_id s user_message e.
Proof.
  intros H. unfold converse_turn.
  cbn [with_model converse json_args invoke].
  rewrite (H (text_message "system" system_prompt
                :: last10 (messages s) ++ [text_message "user" user_message]))
    by (exists []; split; [reflexivity | left; reflexivity]).
  destruct (converse e _) as [[|text [[name arguments]|]]|]; try reflexivity.
  destruct (json_args e arguments) as [shown|]; [|reflexivity].
  destruct (Seq.mem name function_names); [|reflexivity].
  destruct (invoke e name arguments) as [res|]; [|reflexivity].
  rewrite H; [reflexivity|].
  eexists.
  split; [simpl; rewrite <- app_assoc; reflexivity | right; reflexivity].
Qed.

(** X20: the model is shown little of a session: a turn is the same with
    any other model that answers alike on the contexts made of the
    system prompt, the last ten entries of the history, the message of
    the user and, in a second call, the function call and its result;
    such a context has fourteen entries at most and starts with the
    system prompt.  When the session is at its limit, or when the
    validator finds the message unsafe or off topic, the model is not
    asked at all. *)
Theorem model_sees_bounded_context (sessions : store)
    (raw session_id : string) (e : env)
    (model : list message -> option model_reply) :
  let s := session_of sessions session_id e in
  let v := validate_content (PStr (clean raw)) session_id (pick e) in
  ((message_count s < 50)%Z -> is_safe v = true -> is_travel v = true ->
   forall context,
     model_context (messages s) (clean raw) context ->
     model context = converse e context) ->
  chat sessions (request raw session_id) (with_model e model)
  = chat sessions (request raw session_id) e
  /\ (forall context,
        model_context (messages s) (clean raw) context ->
        (length context <= 14)%nat
        /\ hd_error context = Some (text_message "system" system_prompt)).
Proof.
  intros s v H. split.
  - rewrite !chat_of_body.
    enough (Hb : chat_body sessions (request raw session_id)
                   (with_model e model)
                 = chat_body sessions (request raw session_id) e)
      by (rewrite Hb; reflexivity).
    destruct (String.eqb_spec (clean raw) "") as [E|Hne].
    { unfold chat_body, request. cbn [b_message b_session_id from_option id].
      fold (clean raw). rewrite E. reflexivity. }
    rewrite !(chat_body_message _ _ _ _ Hne). cbv zeta.
    change (session_of sessions session_id (with_model e model)) with s.
    fold s. cbn [with_model pick now]. fold v.
    destruct (50 <? _)%Z eqn:Ec; [reflexivity|].
    apply Z.ltb_ge in Ec. simpl in Ec.
    destruct (is_safe v) eqn:Es; cbn [negb]; [|reflexivity].
    destruct (is_travel v) eqn:Et; cbn [negb]; [|reflexivity].
    apply converse_turn_model. apply H; [lia | reflexivity | reflexivity].
  - intros context (extra & -> & Hextra). split; [|reflexivity].
    cbn [length]. rewrite length_app. cbn [length].
    pose proof (length_last10 (messages s)).
    destruct Hextra as [E|E]; [subst extra; simpl|]; lia.
Qed.

Lemma model_sees_bounded_context_witness :
  chat ∅ (request "hotel in paris" "s")
    (with_model (sample_env (Some (Choice (Some "Here.") None)) false)
       (fun context =>
          if (length context <=? 14)%nat
          then Some (Choice (Some "Here.") None) else Some NoChoice))
  = chat ∅ (request "hotel in paris" "s")
      (sample_env (Some (Choice (Some "Here.") None)) false).
Proof.
  refine (proj1 (model_sees_bounded_context ∅ "hotel in paris" "s"
                   (sample_env (Some (Choice (Some "Here.") None)) false)
                   _ _)).
  intros _ _ _ context (extra & -> & [-> | Hl]); [reflexivity|].
  destruct extra as [|a [|b [|c extra]]]; try discriminate Hl.
  reflexivity.
Defined.

Lemma strip_spaces (s : chars) : forallb is_space s = true -> strip s = [].
Proof.
  intros H. unfold strip. rewrite (lstrip_spaces s H). reflexivity.
Qed.

(** X21: a request whose message is absent, empty or made of whitespace
    only is answered with status 400 and changes nothing: no session is
    made for its key, and nothing is counted, whatever the store holds. *)
Theorem chat_without_text (sessions : store) (data : body) (e : env) :
  (b_message data = None
   \/ exists raw,
        b_message data = Some (PStr raw)
        /\ forallb is_space (of_string raw) = true) ->
  chat sessions (Some data) e
  = (sessions, error_response 400 "No message provided").
Proof.
  intros H. rewrite chat_of_body. unfold chat_body.
  destruct H as [->|(raw & -> & Hsp)]; cbn [from_option id];
    [reflexivity|].
  rewrite (strip_spaces _ Hsp). reflexivity.
Qed.

Lemma chat_without_text_witness :
  chat {[ "s"%string := sample_session ]} (request "   " "s")
    (sample_env None false)
  = ({[ "s"%string := sample_session ]},
     error_response 400 "No message provided").
Proof.
  apply (chat_without_text {[ "s"%string := sample_session ]}
           {| b_message := Some (PStr "   ");
              b_session_id := Some "s"%string |}
           (sample_env None false)).
  right. exists "   "%string. split; reflexivity.
Defined.

End Turns.

(** * Weather advice and the list of destinations *)

Module Season.
Import Seq Planner.

(** An entry of [weather_data]. *)
Record climate : Type := {
  best_months : list string;
  good_months : list string;
  avoid_months : list string;
  weather_info : string;
  peak_season : string;
  temperature_range : string;
  rainfall : string
}.

Definition valid_months : list string :=
  ["January"; "February"; "March"; "April"; "May"; "June"; "July";
   "August"; "September"; "October"; "November"; "December"]%string.

Definition weather_data : list (string * climate) :=
  [ ("Paris",
     {| best_months := ["April"; "May"; "June"; "September"; "October"];
        good_months := ["March"; "July"; "August"];
        avoid_months := ["December"; "January"; "February"];
        weather_info := "Mild temperatures, moderate rainfall, perfect for sightseeing";
        peak_season := "May-September";
        temperature_range := "3°C to 25°C (37°F to 77°F)";
        rainfall := "Moderate year-round, heaviest in winter" |});
    ("London",
     {| best_months := ["May"; "June"; "July"; "August"; "September"];
        good_months := ["April"; "October"];
        avoid_months := ["November"; "December"; "January"; "February"];
        weather_info := "Mild summers, rainy winters, longer daylight hours in summer";
        peak_season := "June-August";
        temperature_range := "2°C to 23°C (36°F to 73°F)";
        rainfall := "Year-round, but less in summer" |});
    ("Tokyo",
     {| best_months := ["March"; "April"; "May"; "October"; "November"];
        good_months := ["February"; "December"];
        avoid_months := ["June"; "July"; "August"; "September"];
        weather_info := "Cherry blossom season (March-May) and pleasant autumn weather";
        peak_season := "March-May, October-November";
        temperature_range := "0°C to 30°C (32°F to 86°F)";
        rainfall := "Rainy season June-July, typhoons August-September" |});
    ("New York",
     {| best_months := ["April"; "May"; "June"; "September"; "October"];
        good_months := ["March"; "November"];
        avoid_months := ["January"; "February"; "July"; "August"];
        weather_info := "Four distinct seasons, hot humid summers, cold winters";
        peak_season := "April-June, September-November";
        temperature_range := "-3°C to 29°C (27°F to 85°F)";
        rainfall := "Fairly distributed year-round" |});
    ("Dubai",
     {| best_months := ["November"; "December"; "January"; "February"; "March"];
        good_months := ["April"; "October"];
        avoid_months := ["June"; "July"; "August"; "September"];
        weather_info := "Desert climate, very hot summers, mild winters";
        peak_season := "November-March";
        temperature_range := "14°C to 41°C (57°F to 106°F)";
        rainfall := "Very low, occasional winter showers" |});
    ("Barcelona",
     {| best_months := ["April"; "May"; "June"; "September"; "October"];
        good_months := ["March"; "July"; "November"];
        avoid_months := ["December"; "January"; "February"];
        weather_info := "Mediterranean climate, warm dry summers, mild winters";
        peak_season := "May-September";
        temperature_range := "8°C to 28°C (46°F to 82°F)";
        rainfall := "Low, mainly in autumn and spring" |});
    ("Rome",
     {| best_months := ["April"; "May"; "June"; "September"; "October"];
        good_months := ["March"; "November"];
        avoid_months := ["July"; "August"; "December"; "January"];
        weather_info := "Mediterranean climate, hot summers, mild winters";
        peak_season := "April-June, September-October";
        temperature_range := "3°C to 30°C (37°F to 86°F)";
        rainfall := "Wettest in autumn and winter" |});
    ("Bangkok",
     {| best_months := ["November"; "December"; "January"; "February"];
        good_months := ["March"; "October"];
        avoid_months := ["April"; "May"; "June"; "July"; "August"; "September"];
        weather_info := "Tropical climate, hot and humid with distinct rainy season";
        peak_season := "November-February";
        temperature_range := "22°C to 35°C (72°F to 95°F)";
        rainfall := "Heavy monsoon May-October" |});
    ("Sydney",
     {| best_months := ["September"; "October"; "November"; "March"; "April"; "May"];
        good_months := ["February"; "June"];
        avoid_months := ["July"; "August"];
        weather_info := "Temperate climate, warm summers, mild winters (Southern Hemisphere)";
        peak_season := "September-November, March-May";
        temperature_range := "8°C to 26°C (46°F to 79°F)";
        rainfall := "Fairly even year-round, slightly more in autumn/winter" |});
    ("Mumbai",
     {| best_months := ["November"; "December"; "January"; "February"; "March"];
        good_months := ["October"; "April"];
        avoid_months := ["June"; "July"; "August"; "September"];
        weather_info := "Tropical climate, intense monsoon season, hot and humid";
        peak_season := "November-February";
        temperature_range := "16°C to 38°C (61°F to 100°F)";
        rainfall := "Heavy monsoon June-September" |}) ]%string.

Definition default_weather : climate :=
  {| best_months := ["April"; "May"; "September"; "October"];
     good_months := ["March"; "June"; "November"];
     avoid_months := ["December"; "January"; "February"];
     weather_info := "Generally pleasant weather for travel";
     peak_season := "April-October";
     temperature_range := "Variable";
     rainfall := "Seasonal variation" |}%string.

(** The answer of [check_weather_recommendation]; ["weather_details"] is
    the entry of the city, its rainfall under ["rainfall_info"]. *)
Record weather_payload : Type := {
  wp_city : string;
  travel_month : string;
  recommendation_level : string;
  recommendation : string;
  weather_details : climate;
  travel_tips : list string
}.

Definition check_weather_recommendation (city travel_month : pyval)
  : result weather_payload :=
  match as_str city with
  | None => Error (err "City parameter is required")
  | Some c =>
    if String.eqb c "" then Error (err "City parameter is required") else
    match as_str travel_month with
    | None => Error (err "Travel month is required")
    | Some m =>
      if String.eqb m "" then Error (err "Travel month is required") else
      let city := normalize_city c in
      let travel_month := normalize_city m in
      if negb (mem travel_month valid_months) then
        Error (err ("Invalid month. Must be one of: "
                      +:+ join ", " valid_months))
      else
        let city_weather := lookup_default weather_data city default_weather in
        let '(recommendation_level, recommendation) :=
          if mem travel_month (best_months city_weather) then
            ("excellent",
             "Excellent time to visit " +:+ city +:+ "! " +:+ travel_month
               +:+ " is one of the best months.")
          else if mem travel_month (good_months city_weather) then
            ("good",
             "Good time to visit " +:+ city +:+ ". " +:+ travel_month
               +:+ " offers decent weather conditions.")
          else if mem travel_month (avoid_months city_weather) then
            ("not_recommended",
             "Not the ideal time for " +:+ city
               +:+ ". Consider visiting during: "
               +:+ join ", " (firstn 3 (best_months city_weather)))
          else
            ("fair",
             "Fair time to visit " +:+ city +:+ ", though "
               +:+ join ", " (firstn 3 (best_months city_weather))
               +:+ " would be better.") in
        Success
          {| wp_city := city;
             travel_month := travel_month;
             recommendation_level := recommendation_level;
             recommendation := recommendation;
             weather_details := city_weather;
             travel_tips :=
               [ "Peak season: " +:+ peak_season city_weather
                   +:+ " - expect higher prices and crowds";
                 "Best weather: " +:+ join ", " (best_months city_weather);
                 "Temperature range: " +:+ temperature_range city_weather;
                 "Book accommodations early during peak months" ] |}
    end
  end%string.

End Season.

Module Endpoints.
Import Seq Planner.

(** An entry of ["destinations"]. *)
Record destination : Type := {
  d_city : string;
  d_country : string;
  hotels_available : nat;
  attractions_available : nat
}.

Record destinations_payload : Type := {
  destinations : list destination;
  total_cities : nat
}.

(** [len(df[df['city'] == city])] *)
Definition rows_of {A} (city_of : A -> string) (city : string)
    (rows : list A) : nat :=
  length (List.filter (fun row => String.eqb (city_of row) city) rows).

(** [hotels_df.groupby('city')['country'].first()] at [city]: the country
    of the first row of the city. *)
Definition first_country (hotels_df : list hotel) (city : string) : string :=
  match List.find (fun h => String.eqb (h_city h) city) hotels_df with
  | Some h => h_country h
  | None => ""
  end.

(** [get_travel_destinations]; an empty hotels dataset has no city, and
    an empty attractions dataset no row to count. *)
Definition get_travel_destinations (hotels_df : list hotel)
    (attractions_df : list attraction) : destinations_payload :=
  let cities := unique (List.map h_city hotels_df) in
  let destinations :=
    List.map
      (fun city =>
         {| d_city := city;
            d_country := first_country hotels_df city;
            hotels_available := rows_of h_city city hotels_df;
            attractions_available := rows_of a_city city attractions_df |})
      (sorted cities) in
  {| destinations := destinations; total_cities := length destinations |}.

End Endpoints.

(** ** Weather advice *)

(** The lists of months of a climate share no month and hold valid
    months only. *)
Definition well_split (cl : Season.climate) : bool :=
  forallb (fun m => negb (Seq.mem m (Season.good_months cl))
                    && negb (Seq.mem m (Season.avoid_months cl)))
    (Season.best_months cl)
  && forallb (fun m => negb (Seq.mem m (Season.avoid_months cl)))
       (Season.good_months cl)
  && forallb (fun m => Seq.mem m Season.valid_months)
       (Season.best_months cl ++ Season.good_months cl
        ++ Season.avoid_months cl).

Section Advice.
Import Planner Season.

Lemma mem_iff (x : string) (l : list string) :
  Seq.mem x l = true <-> In x l.
Proof.
  unfold Seq.mem. rewrite existsb_exists. split.
  - intros (y & Hy & E). apply String.eqb_eq in E. subst y. exact Hy.
  - intros H. exists x. split; [exact H | apply String.eqb_refl].
Qed.

Lemma every_climate_well_split (city : string) :
  well_split (lookup_default weather_data city default_weather) = true.
Proof.
  apply (lookup_default_prop (fun cl => well_split cl = true));
    [|vm_compute; reflexivity].
  intros kv Hkv. simpl in Hkv.
  repeat (destruct Hkv as [<-|Hkv]; [vm_compute; reflexivity|]).
  destruct Hkv.
Qed.

Lemma well_split_spec (cl : climate) (m : string) :
  well_split cl = true ->
  (Seq.mem m (best_months cl) = true ->
   Seq.mem m (good_months cl) = false /\ Seq.mem m (avoid_months cl) = false)
  /\ (Seq.mem m (good_months cl) = true ->
      Seq.mem m (avoid_months cl) = false)
  /\ (forall x, In x (best_months cl ++ good_months cl ++ avoid_months cl) ->
      In x valid_months).
Proof.
  unfold well_split. intros H.
  apply andb_prop in H as [H H3]. apply andb_prop in H as [H1 H2].
  rewrite forallb_forall in H1, H2, H3.
  split; [|split].
  - intros Hb. apply mem_iff in Hb. specialize (H1 m Hb).
    apply andb_prop in H1 as [Hg Ha].
    split; apply negb_true_iff; assumption.
  - intros Hg. apply mem_iff in Hg. specialize (H2 m Hg).
    apply negb_true_iff. exact H2.
  - intros x Hx. apply mem_iff, H3, Hx.
Qed.

Lemma check_weather_success (city travel_month : pyval)
    (p : weather_payload) :
  check_weather_recommendation city travel_month = Success p ->
  exists c m,
    as_str city = Some c /\ c <> ""%string
    /\ as_str travel_month = Some m /\ m <> ""%string
    /\ wp_city p = normalize_city c
    /\ Season.travel_month p = normalize_city m
    /\ In (normalize_city m) valid_months
    /\ weather_details p
       = lookup_default weather_data (normalize_city c) default_weather
    /\ recommendation_level p
       = (if Seq.mem (normalize_city m) (best_months (weather_details p))
          then "excellent"
          else if Seq.mem (normalize_city m)
                    (good_months (weather_details p))
          then "good"
          else if Seq.mem (normalize_city m)
                    (avoid_months (weather_details p))
          then "not_recommended" else "fair")%string.
Proof.
  unfold check_weather_recommendation. intros H.
  destruct (as_str city) as [c|]; [|discriminate H].
  destruct (String.eqb_spec c ""); [discriminate H|].
  destruct (as_str travel_month) as [m|]; [|discriminate H].
  destruct (String.eqb_spec m ""); [discriminate H|].
  destruct (Seq.mem (normalize_city m) valid_months) eqn:Em;
    [|discriminate H].
  cbn [negb] in H. exists c, m.
  apply mem_iff in Em.
  destruct (Seq.mem (normalize_city m) (best_months _)) eqn:E1;
    [|destruct (Seq.mem (normalize_city m) (good_months _)) eqn:E2;
      [|destruct (Seq.mem (normalize_city m) (avoid_months _)) eqn:E3]];
    apply Success_inj in H; subst p;
    cbn [wp_city Season.travel_month weather_details recommendation_level];
    rewrite ?E1, ?E2, ?E3; repeat split; assumption.
Qed.

(** X22: in an answer of [check_weather_recommendation] the level tells
    in which list of the climate of the city the month is: excellent for
    the best months, good for the good ones, not_recommended for those
    to avoid, fair for a month of no list.  The lists of every climate
    of the table, and of the default one, share no month, so that the
    order of the tests does not matter, and hold valid months only. *)
Theorem weather_level_by_month (city month : pyval) (p : weather_payload) :
  check_weather_recommendation city month = Success p ->
  let cl := weather_details p in
  let m := Season.travel_month p in
  In m valid_months
  /\ (recommendation_level p = "excellent"%string <-> In m (best_months cl))
  /\ (recommendation_level p = "good"%string <-> In m (good_months cl))
  /\ (recommendation_level p = "not_recommended"%string
      <-> In m (avoid_months cl))
  /\ (recommendation_level p = "fair"%string
      <-> ~ In m (best_months cl ++ good_months cl ++ avoid_months cl))
  /\ (forall x, In x (best_months cl ++ good_months cl ++ avoid_months cl) ->
      In x valid_months).
Proof.
  intros H. cbv zeta.
  destruct (check_weather_success _ _ _ H)
    as (c & m & _ & _ & _ & _ & _ & -> & Hm & Hcl & ->).
  pose proof (every_climate_well_split (normalize_city c)) as Hw.
  rewrite <- Hcl in Hw.
  destruct (well_split_spec _ (normalize_city m) Hw) as (Hb & Hg & Hv).
  split; [exact Hm|].
  rewrite !in_app_iff, <- !mem_iff.
  destruct (Seq.mem (normalize_city m) (best_months _)) eqn:E1.
  { destruct (Hb eq_refl) as [-> ->].
    repeat split; try discriminate; try reflexivity; try exact Hv;
      intuition discriminate. }
  destruct (Seq.mem (normalize_city m) (good_months _)) eqn:E2.
  { rewrite (Hg eq_refl).
    repeat split; try discriminate; try reflexivity; try exact Hv;
      intuition discriminate. }
  destruct (Seq.mem (normalize_city m) (avoid_months _)) eqn:E3;
    repeat split; try discriminate; try reflexivity; try exact Hv;
      intuition discriminate.
Qed.

Lemma weather_level_by_month_witness :
  exists p,
    check_weather_recommendation (PStr "paris") (PStr " november") = Success p
    /\ recommendation_level p = "fair"%string
    /\ In (Season.travel_month p) valid_months.
Proof.
  destruct (check_weather_recommendation (PStr "paris") (PStr " november"))
    as [p|e] eqn:E.
  - exists p. split; [reflexivity|].
    destruct (weather_level_by_month _ _ _ E) as (Hm & _).
    split; [|exact Hm].
    vm_compute in E. injection E as <-. reflexivity.
  - vm_compute in E. discriminate E.
Defined.

(** X23: weather advice is given exactly when the city is a string with
    a character and the month is a string that names a month once
    stripped and capitalised: the month is read in any case and with
    whitespace around it, an abbreviation is not a month, and the city
    need not be known, the default climate standing for it. *)
Theorem weather_advice_given_iff (city month : pyval) :
  (is_success (check_weather_recommendation city month) = true
   <-> exists c m,
         as_str city = Some c /\ c <> ""%string
         /\ as_str month = Some m /\ m <> ""%string
         /\ In (normalize_city m) valid_months)
  /\ (forall c m m',
        m <> ""%string -> m' <> ""%string ->
        lower (strip (of_string m)) = lower (strip (of_string m')) ->
        check_weather_recommendation c (PStr m)
        = check_weather_recommendation c (PStr m'))
  /\ (forall c m p,
        check_weather_recommendation (PStr c) m = Success p ->
        ~ In (normalize_city c) (List.map fst weather_data) ->
        weather_details p = default_weather).
Proof.
  split; [|split].
  - split.
    + destruct (check_weather_recommendation city month) as [p|e] eqn:E;
        [intros _|discriminate].
      destruct (check_weather_success _ _ _ E)
        as (c & m & Hc & Hc' & Hm & Hm' & _ & _ & Hin & _).
      exists c, m. repeat split; assumption.
    + intros (c & m & Hc & Hc' & Hm & Hm' & Hin).
      unfold check_weather_recommendation.
      rewrite Hc, Hm, (string_nonempty _ Hc'), (string_nonempty _ Hm').
      apply mem_iff in Hin. rewrite Hin. cbn [negb].
      destruct (Seq.mem _ (best_months _)); [reflexivity|].
      destruct (Seq.mem _ (good_months _)); [reflexivity|].
      destruct (Seq.mem _ (avoid_months _)); reflexivity.
  - intros c m m' Hm Hm' Heq. apply normalize_city_same in Heq.
    unfold check_weather_recommendation. cbn [as_str].
    rewrite (string_nonempty _ Hm), (string_nonempty _ Hm'), Heq.
    reflexivity.
  - intros c m p H Hnot.
    destruct (check_weather_success _ _ _ H)
      as (c' & m' & Hc & _ & _ & _ & _ & _ & _ & -> & _).
    injection Hc as <-. unfold lookup_default.
    destruct (List.find _ weather_data) as [kv|] eqn:E; [|reflexivity].
    exfalso. apply Hnot. apply List.find_some in E as [Hin Hk].
    apply String.eqb_eq in Hk. rewrite <- Hk. apply in_map, Hin.
Qed.

End Advice.

(** ** The list of destinations *)

Section Listing.
Import Planner Endpoints.

Lemma NoDup_unique (l : list string) : List.NoDup (Seq.unique l).
Proof.
  induction l as [|x l IH]; simpl; constructor.
  - intros Hin. apply filter_In in Hin as [_ Hx].
    rewrite String.eqb_refl in Hx. discriminate Hx.
  - apply List.NoDup_filter, IH.
Qed.

Lemma NoDup_sorted_unique (l : list string) :
  List.NoDup (Seq.sorted (Seq.unique l)).
Proof.
  unfold Seq.sorted.
  rewrite <- (List.map_id (Seq.sort String.leb (Seq.unique l))).
  apply (NoDup_map_sort (fun x : string => x)).
  rewrite List.map_id. apply NoDup_unique.
Qed.

Lemma string_leb_total (x y : string) :
  String.leb x y = false -> String.leb y x = true.
Proof.
  intros H. destruct (String.leb_total x y) as [E|E]; [congruence | exact E].
Qed.

(** A row is counted for one city of a list without repeats at most, and
    for one exactly when its city is in the list. *)
Lemma one_city (x : string) (l : list string) :
  List.NoDup l ->
  (list_sum (List.map (fun c => if String.eqb x c then 1 else 0) l) <= 1)%nat
  /\ (In x l ->
      list_sum (List.map (fun c => if String.eqb x c then 1 else 0) l)
      = 1%nat).
Proof.
  induction 1 as [|c l Hc Hl [IH1 IH2]]; simpl; [split; [lia | tauto]|].
  destruct (String.eqb_spec x c) as [->|Hne].
  - assert (Hz : list_sum
                   (List.map (fun c0 => if String.eqb c c0 then 1 else 0) l)
                 = 0%nat).
    { clear - Hc. induction l as [|y l IH]; [reflexivity|]. simpl.
      destruct (String.eqb_spec c y) as [->|_]; [exfalso; apply Hc; now left|].
      apply IH. intros Hin. apply Hc. now right. }
    rewrite Hz. split; [lia | reflexivity].
  - split; [exact IH1|]. intros [E|Hin]; [congruence | apply IH2, Hin].
Qed.

Lemma rows_of_sum {A} (city_of : A -> string) (rows : list A)
    (l : list string) :
  List.NoDup l ->
  (list_sum (List.map (fun c => rows_of city_of c rows) l) <= length rows)%nat
  /\ ((forall row, In row rows -> In (city_of row) l) ->
      list_sum (List.map (fun c => rows_of city_of c rows) l) = length rows).
Proof.
  intros Hl.
  induction rows as [|r rows [IH1 IH2]].
  - assert (Hz : list_sum (List.map (fun c => rows_of city_of c []) l)
                 = 0%nat).
    { clear. induction l as [|c l IH]; [reflexivity | exact IH]. }
    rewrite Hz. split; [lia | reflexivity].
  - assert (Hs : list_sum (List.map (fun c => rows_of city_of c (r :: rows)) l)
                 = (list_sum
                      (List.map
                         (fun c => if String.eqb (city_of r) c then 1 else 0)
                         l)
                    + list_sum (List.map (fun c => rows_of city_of c rows) l))%nat).
    { clear. induction l as [|c l IH]; [reflexivity|].
      cbn [List.map list_sum fold_right]. fold (list_sum) in *.
      unfold list_sum in *. rewrite IH. unfold rows_of. cbn [List.filter].
      destruct (String.eqb (city_of r) c); cbn [length]; lia. }
    rewrite Hs. destruct (one_city (city_of r) l Hl) as [H1 H2].
    cbn [length]. split; [lia|].
    intros Hall. rewrite H2 by (apply Hall; now left).
    rewrite IH2; [reflexivity|]. intros row Hrow. apply Hall. now right.
Qed.

(** X24: the destinations listed are the cities of the hotels dataset,
    each once and in increasing order, with the country of its first
    hotel; a city with attractions but without a hotel is not listed.
    Every destination has a hotel at least, the hotels counted add up to
    the rows of the hotels dataset, and the attractions counted to the
    rows of the attractions dataset at most. *)
Theorem destinations_listing (hotels_df : list hotel)
    (attractions_df : list attraction) :
  let p := get_travel_destinations hotels_df attractions_df in
  let cities := List.map d_city (destinations p) in
  Sorted (fun a b => String.leb a b = true) cities
  /\ List.NoDup cities
  /\ (forall c, In c cities <-> exists h, In h hotels_df /\ h_city h = c)
  /\ Forall (fun d =>
               (1 <= hotels_available d)%nat
               /\ exists h,
                    In h hotels_df /\ h_city h = d_city d
                    /\ h_country h = d_country d)
       (destinations p)
  /\ list_sum (List.map hotels_available (destinations p)) = length hotels_df
  /\ (list_sum (List.map attractions_available (destinations p))
      <= length attractions_df)%nat
  /\ total_cities p = length (destinations p).
Proof.
  cbv zeta. unfold get_travel_destinations.
  cbn [destinations total_cities].
  set (l := Seq.sorted (Seq.unique (List.map h_city hotels_df))).
  assert (Hl : List.NoDup l) by apply NoDup_sorted_unique.
  assert (Hin : forall c, In c l <-> exists h, In h hotels_df /\ h_city h = c).
  { intros c. unfold l. rewrite In_sorted_unique, in_map_iff.
    split; intros (h & H1 & H2); exists h; tauto. }
  rewrite !List.map_map. cbn [d_city hotels_available attractions_available].
  rewrite List.map_id.
  split; [apply sort_Sorted, string_leb_total|].
  split; [exact Hl|]. split; [exact Hin|].
  split; [|split; [|split; [|reflexivity]]].
  - apply List.Forall_forall. intros d Hd.
    apply in_map_iff in Hd as (c & <- & Hc).
    cbn [hotels_available d_city d_country].
    apply Hin in Hc as (h & Hh & Hhc).
    unfold rows_of, first_country.
    destruct (List.find (fun h0 => String.eqb (h_city h0) c) hotels_df)
      as [h1|] eqn:E.
    + apply List.find_some in E as [Hh1 Hc1]. apply String.eqb_eq in Hc1.
      split; [|exists h1; repeat split; assumption].
      assert (Hf : In h (List.filter (fun row => String.eqb (h_city row) c)
                           hotels_df)).
      { apply filter_In. split; [exact Hh|]. apply String.eqb_eq, Hhc. }
      destruct (List.filter _ hotels_df); [destruct Hf | simpl; lia].
    + exfalso. pose proof (List.find_none _ _ E h Hh) as Hn.
      apply String.eqb_neq in Hn. contradiction.
  - apply (rows_of_sum h_city hotels_df l Hl).
    intros row Hrow. apply Hin. exists row. split; [exact Hrow|reflexivity].
  - apply (rows_of_sum a_city attractions_df l Hl).
Qed.

End Listing.

(** ** A threat never reaches the model *)

Section Forwarding.
Import Chat.

Lemma held_threat_is_unsafe (text : chars) :
  holds_word_of threat_keywords text ->
  sr_is_safe (check_threats_in threat_patterns (lower (strip text))) = false.
Proof.
  intros (kw & Hin & Hocc).
  pose proof (check_threats_first threat_words text threat_words_edged) as H.
  cbv zeta in H. fold threat_patterns in H.
  destruct H as [[_ Hall] | (_ & _ & _ & _ & _ & _ & _ & Hu & _)];
    [|exact Hu].
  exfalso. unfold threat_keywords in Hin.
  apply List.in_concat in Hin as (ws & Hws & Hk).
  apply in_map_iff in Hws as ([c ws'] & <- & Hc).
  apply (Hall c ws' Hc). exists kw. split; assumption.
Qed.

Lemma strip_idem (s : chars) : strip (strip s) = strip s.
Proof. destruct (strip_stripped s). apply strip_fixed; assumption. Qed.

Lemma strip_nil (s : chars) : strip s = [] -> forallb is_space s = true.
Proof.
  unfold strip, rstrip. intros H.
  assert (H1 : lstrip (rev (lstrip s)) = []).
  { rewrite <- (rev_involutive (lstrip (rev (lstrip s)))), H. reflexivity. }
  apply lstrip_nil in H1.
  assert (H2 : lstrip s = []).
  { pose proof (no_lead_lstrip s) as Hl.
    destruct (lstrip s) as [|c r]; [reflexivity|]. simpl in Hl.
    rewrite forallb_forall in H1.
    rewrite (H1 c) in Hl; [discriminate Hl|].
    apply in_rev. rewrite rev_involutive. now left. }
  apply lstrip_nil, H2.
Qed.

Lemma is_word_not_space (c : ascii) : is_word c = true -> is_space c = false.
Proof.
  destruct c as [[] [] [] [] [] [] [] []]; simpl; intros H;
    try reflexivity; discriminate H.
Qed.

Lemma held_word_not_blank (kw : string) (text : chars) :
  word_edged (of_string kw) = true ->
  whole_word (of_string kw) text ->
  forallb is_space text = false.
Proof.
  intros Hedge (pre & mid & post & -> & Hlow & _).
  apply andb_prop in Hedge as [Hhd _].
  destruct (of_string kw) as [|k ks]; [discriminate Hhd|].
  destruct mid as [|c mid]; [discriminate Hlow|].
  simpl in Hlow, Hhd. injection Hlow as Hc _.
  assert (Hw : is_word c = true).
  { rewrite <- is_word_lower_char, Hc, is_word_lower_char. exact Hhd. }
  apply not_true_is_false. intros Hall.
  rewrite forallb_forall in Hall.
  assert (Hin : In c (pre ++ (c :: mid) ++ post))
    by (apply in_or_app; right; now left).
  specialize (Hall c Hin).
  rewrite (is_word_not_space c Hw) in Hall. discriminate Hall.
Qed.

(** X25: a message of ASCII characters that holds a threat keyword as a
    whole word is never forwarded: the turn is the same whatever the model would answer, the
    answer is the refusal for the session limit, the block message or
    the reset for security, never a travel answer, and the message is not
    written to the history, which is left as it was or emptied. *)
Theorem threat_is_never_forwarded (sessions : store)
    (raw session_id : string) (e : env)
    (model : list message -> option model_reply) :
  ascii_text (of_string raw) = true ->
  holds_word_of threat_keywords (of_string raw) ->
  let turn := chat sessions (request raw session_id) e in
  chat sessions (request raw session_id) (with_model e model) = turn
  /\ travel_query turn.2 = false
  /\ (turn.2 = rate_limited \/ blocked turn.2 = true
      \/ turn.2 = fresh_start)
  /\ exists s',
       turn.1 !! session_id = Some s'
       /\ (messages s' = []
           \/ messages s' = messages (session_of sessions session_id e)).
Proof.
  intros _ Hheld turn.
  assert (Hne : clean raw <> ""%string).
  { destruct Hheld as (kw & Hin & Hocc).
    pose proof (held_word_not_blank kw _ (threat_keywords_edged kw Hin) Hocc)
      as Hb.
    intros E. unfold clean, to_string in E.
    apply (f_equal list_ascii_of_string) in E.
    rewrite list_ascii_of_string_of_list_ascii in E. simpl in E.
    apply strip_nil in E. congruence. }
  assert (Hunsafe : forall pk,
            is_safe (validate_content (PStr (clean raw)) session_id pk)
            = false).
  { intros pk. unfold validate_content.
    rewrite (string_nonempty _ Hne), validate_text_is_safe.
    unfold clean. rewrite of_to_string, strip_idem.
    apply held_threat_is_unsafe, Hheld. }
  unfold turn. rewrite !chat_of_body, !(chat_body_message _ _ _ _ Hne).
  cbv zeta.
  change (session_of sessions session_id (with_model e model))
    with (session_of sessions session_id e).
  cbn [with_model pick now]. rewrite !Hunsafe. cbn [negb].
  destruct (50 <? _)%Z; cbn [fst snd].
  { split; [reflexivity|]. split; [reflexivity|]. split; [now left|].
    eexists. rewrite lookup_insert_eq. split; [reflexivity|].
    right. reflexivity. }
  destruct (2 <=? _)%Z; cbn [fst snd].
  - split; [reflexivity|]. split; [reflexivity|].
    split; [right; now right|].
    eexists. rewrite lookup_insert_eq. split; [reflexivity|].
    left. reflexivity.
  - split; [reflexivity|]. split; [reflexivity|].
    split; [right; now left|].
    eexists. rewrite lookup_insert_eq. split; [reflexivity|].
    right. reflexivity.
Qed.

Lemma threat_is_never_forwarded_witness :
  chat ∅ (request "Where to buy COCAINE in Rome?" "s")
    (with_model (sample_env None false)
       (fun _ => Some (Choice (Some "Here.") None)))
  = chat ∅ (request "Where to buy COCAINE in Rome?" "s")
      (sample_env None false).
Proof.
  assert (Hh : holds_word_of threat_keywords
                 (of_string "Where to buy COCAINE in Rome?")).
  { exists "cocaine"%string. split; [vm_compute; tauto|].
    exists (of_string "Where to buy "), (of_string "COCAINE"),
      (of_string " in Rome?").
    repeat split; reflexivity. }
  assert (Ha : ascii_text (of_string "Where to buy COCAINE in Rome?") = true)
    by reflexivity.
  exact (proj1 (threat_is_never_forwarded ∅ "Where to buy COCAINE in Rome?"
                  "s" (sample_env None false)
                  (fun _ => Some (Choice (Some "Here.") None)) Ha Hh)).
Defined.

End Forwarding.
